(** * Nash Cards valuation tool: a shallow embedding of its JavaScript

  The development follows the three scripts of the site:
  - [js/api.js]  (module [API]): remote lookups, the response cache and
    the condition-based pricing;
  - [js/ui.js]   (modules [UI] and [Auth]): the screens and the
    credential store kept in [localStorage];
  - the main application script (module [App]): the search workflow.

  JavaScript values are modelled as follows.
  - A string is a [string]; its characters stand for the UTF-16 code
    units below 256 (ASCII and Latin-1).  Case mapping and white space
    are those of JavaScript on that range; code units from 256 on are
    outside the modelled domain.
  - A number is an IEEE 754 binary64 value, Rocq's primitive [float];
    clock readings ([Date.now()]) are integers and are kept in [Z].
  - Objects are records; a property that may be absent is an [option].
  - A map used as a dictionary (the response cache) is a [gmap]. *)

From Stdlib Require Import ZArith Lia Bool List Ascii String.
From Stdlib Require Import Uint63 PrimFloat FloatOps SpecFloat FloatAxioms.
From Stdlib Require Import QArith.
From stdpp Require Import gmap strings list pretty.
From Equations Require Import Equations.
From Equations.Prop Require Import Logic.

Local Open Scope string_scope.
Local Open Scope Z_scope.

(* ===================================================================== *)
(** ** JavaScript strings *)
(* ===================================================================== *)

Module JsString.

(** [!s]: the empty string is the only falsy string. *)
Definition falsy (s : string) : bool :=
  match s with EmptyString => true | String _ _ => false end.

Definition truthy (s : string) : bool := negb (falsy s).

(** [o || d] where [o] is a string or [undefined]. *)
Definition or_default (o : option string) (d : string) : string :=
  match o with
  | Some s => if truthy s then s else d
  | None => d
  end.

Definition code (c : ascii) : Z := Z.of_nat (nat_of_ascii c).

(** The small letter of a capital: A to Z, and the Latin-1 capitals
    U+00C0 to U+00DE without the multiplication sign U+00D7. *)
Definition lower_char (c : ascii) : ascii :=
  if ((65 <=? code c) && (code c <=? 90))
     || ((192 <=? code c) && (code c <=? 222) && negb (code c =? 215))
  then ascii_of_nat (nat_of_ascii c + 32) else c.

(** The capital of a small letter: a to z, the Latin-1 small letters
    U+00E0 to U+00FE without the division sign U+00F7, and [SS] for the
    sharp s U+00DF.  The capitals of U+00B5 and U+00FF lie above 255:
    on these two code units alone the function is not that of
    JavaScript, and they are left as they are. *)
Definition upper_char (c : ascii) : string :=
  if code c =? 223 then "SS"
  else if ((97 <=? code c) && (code c <=? 122))
          || ((224 <=? code c) && (code c <=? 254) && negb (code c =? 247))
  then String (ascii_of_nat (nat_of_ascii c - 32)) EmptyString
  else String c EmptyString.

Fixpoint map_chars (f : ascii -> ascii) (s : string) : string :=
  match s with
  | EmptyString => EmptyString
  | String c r => String (f c) (map_chars f r)
  end.

Definition toLowerCase : string -> string := map_chars lower_char.

Fixpoint toUpperCase (s : string) : string :=
  match s with
  | EmptyString => EmptyString
  | String c r => upper_char c +:+ toUpperCase r
  end.

(** White space and line terminators below 256, as [trim] and the
    class [\s] of regular expressions take them: TAB, LF, VT, FF, CR,
    SPACE and the no-break space U+00A0. *)
Definition is_white (c : ascii) : bool :=
  ((9 <=? code c) && (code c <=? 13)) || (code c =? 32) || (code c =? 160).

Fixpoint trimStart (s : string) : string :=
  match s with
  | EmptyString => EmptyString
  | String c r => if is_white c then trimStart r else s
  end.

Definition rev (s : string) : string :=
  string_of_list_ascii (List.rev (list_ascii_of_string s)).

Definition trimEnd (s : string) : string := rev (trimStart (rev s)).

Definition trim (s : string) : string := trimEnd (trimStart s).

(** [s.startsWith(p)]. *)
Fixpoint startsWith (p s : string) : bool :=
  match p, s with
  | EmptyString, _ => true
  | String _ _, EmptyString => false
  | String a p', String b s' => Ascii.eqb a b && startsWith p' s'
  end.

(** [s.includes(sub)]: [sub] occurs in [s] as a contiguous run. *)
Fixpoint includes (s sub : string) : bool :=
  startsWith sub s ||
  match s with
  | EmptyString => false
  | String _ r => includes r sub
  end.

(** [s.substring(0, n)]. *)
Fixpoint take (n : nat) (s : string) : string :=
  match n, s with
  | O, _ => EmptyString
  | S _, EmptyString => EmptyString
  | S n', String c r => String c (take n' r)
  end.

(** The double quote, as a one-character string. *)
Definition dquote : string := String (ascii_of_nat 34) EmptyString.

End JsString.

(* ===================================================================== *)
(** ** JavaScript numbers *)
(* ===================================================================== *)

Module JsNumber.

Definition number : Set := float.

(** The number nearest to an integer (exact below 2^53). *)
Definition of_Z (z : Z) : number :=
  SF2Prim (binary_normalize prec emax z 0 false).

(** [!x]: NaN and the two zeros are the falsy numbers. *)
Definition truthy (x : number) : bool := negb (is_nan x || is_zero x).

(** The exact value of a finite number as [(mantissa, exponent)],
    standing for [mantissa * 2^exponent]. *)
Definition exact (x : number) : option (Z * Z) :=
  match Prim2SF x with
  | S754_zero _ => Some (0, 0)
  | S754_finite s m e => Some (if s then Z.neg m else Z.pos m, e)
  | _ => None
  end.

(** [floor (m * 2^e * k + 1/2)] for a positive scale [k]: rounding to
    the nearest integer, ties towards +infinity. *)
Definition round_half_up (m e k : Z) : Z :=
  if 0 <=? e then m * 2 ^ e * k
  else (2 * m * k + 2 ^ (- e)) / 2 ^ (- e + 1).

(** [x % y] on numbers: the remainder of the truncating division,
    computed exactly; it keeps the sign of the dividend. *)
Definition rem (x y : number) : number :=
  match Prim2SF x, Prim2SF y with
  | S754_nan, _ | _, S754_nan => nan
  | S754_infinity _, _ => nan
  | _, S754_zero _ => nan
  | _, S754_infinity _ => x
  | S754_zero _, _ => x
  | S754_finite sx mx ex, S754_finite _ my ey =>
      let e := Z.min ex ey in
      let r := Z.rem (Z.pos mx * 2 ^ (ex - e)) (Z.pos my * 2 ^ (ey - e)) in
      if r =? 0 then (if sx then (-0)%float else 0%float)
      else SF2Prim (binary_normalize prec emax (if sx then - r else r) e false)
  end.

(** Decimal digits of a natural number, at least [width] of them. *)
Definition digits (width : nat) (n : Z) : string :=
  let d : string := pretty (Z.to_N n) in
  string_of_list_ascii (replicate (width - String.length d) "0"%char) +:+ d.

(** [digits] with a point before the last [f] of them. *)
Definition point (f : nat) (n : Z) : string :=
  let d := digits (S f) n in
  let k := (String.length d - f)%nat in
  if (f =? 0)%nat then d
  else JsString.take k d +:+ "." +:+ string_of_list_ascii (drop k (list_ascii_of_string d)).

(** Division to the nearest integer, ties to the even one. *)
Definition div_nearest_even (a b : Z) : Z :=
  let q := a / b in
  let r := a mod b in
  if 2 * r <? b then q
  else if b <? 2 * r then q + 1
  else if Z.even q then q else q + 1.

(** [s * 10^p] reads back as [x]. *)
Definition reads_back (x : number) (s : Z) (p : nat) : bool :=
  (0 <? s) && (of_Z (s * 10 ^ Z.of_nat p) =? x)%float.

(** The shortest [s * 10^p] that reads back as the integer-valued
    number [x] of value [v], searched from the largest [p] down.  For
    each [p] the two multiples of [10^p] around [v] are tried; when
    both read back as [x] the nearer one is taken, the even one on a
    tie. *)
Fixpoint shortest (x : number) (v : Z) (p : nat) (tries : nat) : Z * nat :=
  let below := v / 10 ^ Z.of_nat p in
  let above := below + 1 in
  match tries with
  | O => (v, O)
  | S tries' =>
      match reads_back x below p, reads_back x above p with
      | true, true => (div_nearest_even v (10 ^ Z.of_nat p), p)
      | true, false => (below, p)
      | false, true => (above, p)
      | false, false => shortest x v (Nat.pred p) tries'
      end
  end.

(** [Number::toString] of an integer value [v >= 10^21] held by [x]:
    exponent notation with the fewest digits that identify [x]. *)
Definition exponential (x : number) (v : Z) : string :=
  let nd := String.length (pretty (Z.to_N v)) in
  let '(s, p) := shortest x v nd 19 in
  let d : string := pretty (Z.to_N s) in
  let n := (String.length d + p)%nat in
  match d with
  | String c EmptyString => d
  | String c r => String c ("." +:+ r)
  | EmptyString => d
  end +:+ "e+" +:+ pretty (n - 1)%nat.

(** [x.toFixed(f)]. *)
Definition toFixed (f : nat) (x : number) : string :=
  match Prim2SF x with
  | S754_nan => "NaN"
  | S754_infinity s => if s then "-Infinity" else "Infinity"
  | S754_zero _ => point f 0
  | S754_finite s m e =>
      (if s then "-" else "") +:+
      (if (0 <=? e) && (10 ^ 21 <=? Z.pos m * 2 ^ e)
       then exponential (abs x) (Z.pos m * 2 ^ e)
       else point f (round_half_up (Z.pos m) e (10 ^ Z.of_nat f)))
  end.

(** The string a template literal shows for [Math.round(x)]. *)
Definition round_toString (x : number) : string :=
  match Prim2SF x with
  | S754_nan => "NaN"
  | S754_infinity s => if s then "-Infinity" else "Infinity"
  | S754_zero _ => "0"
  | S754_finite s m e =>
      let z := round_half_up (if s then Z.neg m else Z.pos m) e 1 in
      if 10 ^ 21 <=? Z.abs z
      then (if s then "-" else "") +:+ exponential (abs x) (Z.abs z)
      else pretty z
  end.

(** [s.charCodeAt(i)]: NaN when [i] is outside the string. *)
Definition charCodeAt (s : string) (i : Z) : number :=
  if i <? 0 then nan
  else match String.get (Z.to_nat i) s with
       | Some c => of_Z (JsString.code c)
       | None => nan
       end.

End JsNumber.

(* ===================================================================== *)
(** ** Regular expressions, for [RegExp.prototype.test] *)
(* ===================================================================== *)

Module Regex.

Inductive regex : Type :=
| Void : regex
| Eps : regex
| Class (p : ascii -> bool) : regex
| Seq (r s : regex) : regex
| Alt (r s : regex) : regex
| Star (r : regex) : regex.

(** [r+] *)
Definition Plus (r : regex) : regex := Seq r (Star r).

Fixpoint nullable (r : regex) : bool :=
  match r with
  | Void => false
  | Eps => true
  | Class _ => false
  | Seq r s => nullable r && nullable s
  | Alt r s => nullable r || nullable s
  | Star _ => true
  end.

(** The residual of [r] after reading [c]. *)
Fixpoint deriv (c : ascii) (r : regex) : regex :=
  match r with
  | Void => Void
  | Eps => Void
  | Class p => if p c then Eps else Void
  | Seq r s =>
      if nullable r then Alt (Seq (deriv c r) s) (deriv c s)
      else Seq (deriv c r) s
  | Alt r s => Alt (deriv c r) (deriv c s)
  | Star r => Seq (deriv c r) (Star r)
  end.

(** [/^r$/.test(s)]: the whole of [s] is a word of [r]. *)
Fixpoint test (r : regex) (s : string) : bool :=
  match s with
  | EmptyString => nullable r
  | String c s' => test (deriv c r) s'
  end.

End Regex.

(* ===================================================================== *)
(** ** [Auth]: the credential store of js/ui.js *)
(* ===================================================================== *)

Module Auth.

Import JsString.

(** A Credential Record. *)
Record User : Type := {
  user_id : string;
  user_name : string;
  user_email : string;
  user_password : string
}.

(** A Session Record; [loginTime] is the instant that
    [new Date().toISOString()] renders. *)
Record Session : Type := {
  session_id : string;
  session_name : string;
  session_email : string;
  loginTime : Z
}.

(** [localStorage], read through the two keys the module uses:
    [STORAGE_KEY = 'nashCards_users'] holds the JSON of the user list and
    [SESSION_KEY = 'nashCards_session'] the JSON of the session.  A key
    that was never set, or was removed, is [None]. *)
Record LocalStorage : Type := {
  nashCards_users : option (list User);
  nashCards_session : option Session
}.

(** What [signup] and [login] return; [user] is present on a
    successful login only. *)
Record Result : Type := {
  success : bool;
  message : string;
  user : option Session
}.

Definition failure (msg : string) : Result :=
  {| success := false; message := msg; user := None |}.

Definition getStoredUsers (ls : LocalStorage) : option (list User) :=
  nashCards_users ls.

Definition setStoredUsers (users : list User) (ls : LocalStorage) : LocalStorage :=
  {| nashCards_users := Some users; nashCards_session := nashCards_session ls |}.

Definition getSession (ls : LocalStorage) : option Session :=
  nashCards_session ls.

Definition isLoggedIn (ls : LocalStorage) : bool :=
  match getSession ls with Some _ => true | None => false end.

Definition logout (ls : LocalStorage) : LocalStorage :=
  {| nashCards_users := nashCards_users ls; nashCards_session := None |}.

(** [[^\s@]] *)
Definition not_space_or_at (c : ascii) : bool :=
  negb (is_white c || Ascii.eqb c "@"%char).

(** [/^[^\s@]+@[^\s@]+\.[^\s@]+$/] *)
Definition emailRegex : Regex.regex :=
  Regex.Seq (Regex.Plus (Regex.Class not_space_or_at))
    (Regex.Seq (Regex.Class (Ascii.eqb "@"%char))
       (Regex.Seq (Regex.Plus (Regex.Class not_space_or_at))
          (Regex.Seq (Regex.Class (Ascii.eqb "."%char))
             (Regex.Plus (Regex.Class not_space_or_at))))).

Definition isValidEmail (email : string) : bool :=
  Regex.test emailRegex email.

(** [login(email, password)]; [now] is the clock reading of
    [new Date()]. *)
Definition login (email password : string) (now : Z) (ls : LocalStorage)
  : Result * LocalStorage :=
  if falsy email || falsy password then
    (failure "Email and password are required", ls)
  else
    let users := default [] (getStoredUsers ls) in
    match List.find (fun u => String.eqb (user_email u) email) users with
    | None => (failure "User not found", ls)
    | Some user =>
        if negb (String.eqb (user_password user) password) then
          (failure "Invalid password", ls)
        else
          let session := {| session_id := user_id user;
                            session_name := user_name user;
                            session_email := user_email user;
                            loginTime := now |} in
          ({| success := true; message := "Login successful";
              user := Some session |},
           {| nashCards_users := nashCards_users ls;
              nashCards_session := Some session |})
    end.

(** [signup(name, email, password)]; [now] is the reading of
    [Date.now()] that becomes the new id, [login_now] the one taken by
    the automatic login. *)
Definition signup (name email password : string) (now login_now : Z)
    (ls : LocalStorage) : Result * LocalStorage :=
  if falsy name || falsy email || falsy password then
    (failure "All fields are required", ls)
  else if negb (isValidEmail email) then
    (failure "Invalid email address", ls)
  else if (Z.of_nat (String.length password) <? 6) then
    (failure "Password must be at least 6 characters", ls)
  else
    let users := default [] (getStoredUsers ls) in
    if existsb (fun u => String.eqb (user_email u) email) users then
      (failure "Email already registered", ls)
    else
      let newUser := {| user_id := pretty now; user_name := name;
                        user_email := email; user_password := password |} in
      let users := (users ++ [newUser])%list in
      let ls := setStoredUsers users ls in
      let ls := snd (login email password login_now ls) in
      ({| success := true; message := "Account created successfully";
          user := None |}, ls).

(** [init()]: seed the demo account when no user list is stored. *)
Definition init (ls : LocalStorage) : LocalStorage :=
  match getStoredUsers ls with
  | Some _ => ls
  | None =>
      setStoredUsers
        [ {| user_id := "1"; user_name := "Demo User";
             user_email := "demo@example.com";
             user_password := "password123" |} ] ls
  end.

(** [getProfile()] *)
Definition getProfile (ls : LocalStorage) : option User :=
  match getSession ls with
  | None => None
  | Some session =>
      List.find (fun u => String.eqb (user_id u) (session_id session))
        (default [] (getStoredUsers ls))
  end.

End Auth.

(* ===================================================================== *)
(** ** Property lookup on an object literal *)
(* ===================================================================== *)

Module JsObject.

Import JsNumber.

(** What [obj[key]] can evaluate to when [obj] is an object literal
    whose own properties hold values of type [A]: an own value, a
    member inherited from [Object.prototype] (a function, or the
    prototype itself for [__proto__]), or [undefined]. *)
Inductive value (A : Type) : Type :=
| Undefined : value A
| Own (a : A) : value A
| Inherited (key : string) : value A.

Arguments Undefined {A}.
Arguments Own {A} a.
Arguments Inherited {A} key.

(** The property names every object literal inherits. *)
Definition Object_prototype : list string :=
  [ "constructor"; "__defineGetter__"; "__defineSetter__"; "hasOwnProperty";
    "__lookupGetter__"; "__lookupSetter__"; "isPrototypeOf";
    "propertyIsEnumerable"; "toString"; "valueOf"; "__proto__";
    "toLocaleString" ]%string.

Definition inherited (key : string) : bool :=
  existsb (String.eqb key) Object_prototype.

Fixpoint own {A} (props : list (string * A)) (key : string) : option A :=
  match props with
  | [] => None
  | (k, x) :: rest => if String.eqb k key then Some x else own rest key
  end.

(** [obj[key]]: own properties first, then the prototype. *)
Definition get {A} (props : list (string * A)) (key : string) : value A :=
  match own props key with
  | Some x => Own x
  | None => if inherited key then Inherited key else Undefined
  end.

(** Truthiness, given that of the own values; functions and objects
    are truthy. *)
Definition truthy {A} (truthyA : A -> bool) (v : value A) : bool :=
  match v with
  | Undefined => false
  | Own a => truthyA a
  | Inherited _ => true
  end.

(** [v || d] *)
Definition or {A} (truthyA : A -> bool) (v : value A) (d : A) : value A :=
  if truthy truthyA v then v else Own d.

(** [ToNumber]: functions and plain objects convert to NaN. *)
Definition toNumber (v : value number) : number :=
  match v with
  | Own x => x
  | Undefined | Inherited _ => nan
  end.

End JsObject.

(* ===================================================================== *)
(** ** Completions: values and thrown errors *)
(* ===================================================================== *)

(** The outcome of evaluating JavaScript code: a value, or a thrown
  [Error] with its [message]. *)
Inductive Completion (A : Type) : Type :=
| Normal (a : A) : Completion A
| Throw (message : string) : Completion A.

Arguments Normal {A} a.
Arguments Throw {A} message.

(* ===================================================================== *)
(** ** [API]: js/api.js *)
(* ===================================================================== *)

Module API.

Import JsString JsNumber.

(** [CACHE_DURATION = 3600000]: one hour in milliseconds. *)
Definition CACHE_DURATION : Z := 3600000.

(** *** Data *)

(** A card object of the remote catalogue.  The code reads [id] and
    [name] directly and every other property through [?.] or [||]. *)
Record RemoteSet : Type := {
  set_name : option string;
  set_id : option string
}.

Record RemoteImages : Type := {
  images_large : option string;
  images_small : option string
}.

Record RemoteCard : Type := {
  remote_id : option string;
  remote_name : string;
  remote_set : option RemoteSet;
  remote_number : option string;
  remote_images : option RemoteImages;
  remote_rarity : option string;
  remote_types : option (list string);
  remote_hp : option string
}.

(** A value where the code expects a card, as far as the code can
    tell such values apart: a card whose [name] is a string, or a
    value on which the first use the code makes of [card.name] throws
    (a card without a name, [null], a number, ...); [message] is then
    the message of the TypeError.  The search lowers the name and so
    throws on every name that is no string; the detail path hands the
    name on and throws when it is [undefined] or [null].  A name of
    any other type that is no string is outside the model of the
    detail path, and the other fields of a card are taken to have the
    types the catalogue documents. *)
Inductive RemoteItem : Type :=
| Named (c : RemoteCard) : RemoteItem
| Nameless (message : string) : RemoteItem.

Record TcgPlayer : Type := { avg : option number }.
Record Prices : Type := { tcgplayer : option TcgPlayer }.

(** A Card Result. *)
Record Card : Type := {
  card_id : option string;
  card_name : string;
  card_set : string;
  card_setCode : string;
  card_number : string;
  card_imageUrl : JsObject.value string;
  card_rarity : string;
  card_type : string;
  card_hp : string;
  card_prices : option Prices
}.

Record PriceBreakdown : Type := {
  breakdown_basePrice : string;
  conditionAdjustment : string;
  estimatedValue : string
}.

(** An enriched Card Result: [{ ...card, selectedCondition, ... }]. *)
Record EnrichedCard : Type := {
  card : Card;
  selectedCondition : string;
  basePrice : string;
  adjustedPrice : string;
  conditionMultiplier : JsObject.value number;
  priceBreakdown : PriceBreakdown
}.

(** *** The network *)

(** A GET request: the endpoint and the query parameters appended to
    the URL. *)
Record Request : Type := {
  endpoint : string;
  params : list (string * string)
}.

(** What [fetch] resolves to; [json] is the outcome of
    [response.json()], a throw when the body is not JSON. *)
Record HttpResponse (B : Type) : Type := {
  ok : bool;
  status : Z;
  statusText : string;
  json : Completion B
}.
Arguments ok {B} h.
Arguments status {B} h.
Arguments statusText {B} h.
Arguments json {B} h.

(** The remote service as seen from one call: every request either
    fails in transport or gets a response. *)
Definition Network (B : Type) : Type := Request -> Completion (HttpResponse B).

(** What [body.data] is in the reply to a search, as [searchCards]
    can tell: a value that is falsy or has no [length] above 0 and is
    no array; a value with a [length] above 0 that is no array (a
    string, an object), on which [filter] cannot be called, with the
    message of that TypeError; or an array with its elements. *)
Inductive CardsData : Type :=
| Absent : CardsData
| Unlisted (message : string) : CardsData
| Listed (items : list RemoteItem) : CardsData.

(** The parsed body of the reply to a search: [null], on which
    reading [data] throws a TypeError with [message], or any other
    value, with what its [data] is. *)
Inductive CardsBody : Type :=
| NullBody (message : string) : CardsBody
| Body (cards_data : CardsData) : CardsBody.

(** The parsed body of the reply to a request for one card: [null], or
    any other value with its [data]: nothing when [data] is falsy, and
    else the card. *)
Inductive CardBody : Type :=
| NullCard (message : string) : CardBody
| Detail (one_data : option RemoteItem) : CardBody.

(** [{ success: true, data }] or [{ success: false, error }]. *)
Record Fetched (B : Type) : Type := {
  fetched_success : bool;
  fetched_data : option B;
  fetched_error : option string
}.
Arguments fetched_success {B} f.
Arguments fetched_data {B} f.
Arguments fetched_error {B} f.

(** What [searchCards] returns. *)
Record SearchResult : Type := {
  success : bool;
  data : option (list Card);
  error : option string
}.

(** *** Module state and its monad *)

Record CacheEntry : Type := {
  entry_data : list Card;
  timestamp : Z
}.

(** The module's [cache], and the log of the requests sent so far
    (newest last). *)
Record State : Type := {
  cache : gmap string CacheEntry;
  requests : list Request
}.

Definition M (A : Type) : Type := State -> Completion A * State.

Definition ret {A} (a : A) : M A := fun st => (Normal a, st).

Definition throw {A} (msg : string) : M A := fun st => (Throw msg, st).

Definition bind {A B} (m : M A) (k : A -> M B) : M B :=
  fun st =>
    match m st with
    | (Normal a, st') => k a st'
    | (Throw msg, st') => (Throw msg, st')
    end.

(** [try { body } catch (error) { handler(error.message) }] *)
Definition try_catch {A} (body : M A) (handler : string -> M A) : M A :=
  fun st =>
    match body st with
    | (Normal a, st') => (Normal a, st')
    | (Throw msg, st') => handler msg st'
    end.

Definition get_cache : M (gmap string CacheEntry) :=
  fun st => (Normal (cache st), st).

(** [cache.set(key, entry)] *)
Definition cache_set (key : string) (entry : CacheEntry) : M unit :=
  fun st => (Normal tt, {| cache := <[key := entry]> (cache st);
                           requests := requests st |}).

(** [await fetch(url)]: the request is sent, then the network answers. *)
Definition fetch {B} (net : Network B) (url : Request) : M (HttpResponse B) :=
  fun st => (net url, {| cache := cache st;
                         requests := (requests st ++ [url])%list |}).

(** Lift a completion that touches no state. *)
Definition lift {A} (c : Completion A) : M A := fun st => (c, st).

Declare Scope api_scope.
Delimit Scope api_scope with api.
Notation "'let*' x ':=' e 'in' k" := (bind e (fun x => k))
  (at level 10, x name, e at level 100, k at level 200) : api_scope.
Local Open Scope api_scope.

(** *** Functions *)

Definition fetchFromPokemonTCG {B} (net : Network B) (endpoint : string)
    (params : list (string * string)) : M (Fetched B) :=
  try_catch
    (let url := {| endpoint := endpoint; params := params |} in
     let* response := fetch net url in
     if negb (ok response) then
       throw ("API Error: " +:+ pretty (status response) +:+ " "
              +:+ statusText response)
     else
       let* data := lift (json response) in
       ret {| fetched_success := true; fetched_data := Some data;
              fetched_error := None |})
    (fun message =>
       ret {| fetched_success := false; fetched_data := None;
              fetched_error := Some message |}).

(** The argument of [generateMockPrice]: written for a card object,
    called with a card or with a name. *)
Inductive PriceSeed : Type :=
| OfCard (c : Card) : PriceSeed
| OfString (s : string) : PriceSeed.

(** [card.name]: a string has no property of that name. *)
Definition name_of (card : PriceSeed) : option string :=
  match card with
  | OfCard c => Some (card_name c)
  | OfString _ => None
  end.

Definition generateMockPrice (card : PriceSeed) : number :=
  let seed := charCodeAt (or_default (name_of card) "pokemon") 0 in
  let basePrice := (5 + rem (seed * 137) 496)%float in
  basePrice.

(** The object built for one remote card, in [formatCardResults] and
    again in [getCardPricing]. *)
Definition formatCard (c : RemoteCard) : Card :=
  {| card_id := remote_id c;
     card_name := remote_name c;
     card_set := or_default (s ← remote_set c; set_name s) "Unknown Set";
     card_setCode := or_default (s ← remote_set c; set_id s) "UNKNOWN";
     card_number := or_default (remote_number c) "N/A";
     card_imageUrl :=
       JsObject.Own
         (or_default (i ← remote_images c; images_large i)
            (or_default (i ← remote_images c; images_small i) ""));
     card_rarity := or_default (remote_rarity c) "Common";
     card_type := or_default (t ← remote_types c; head t) "Unknown";
     card_hp := or_default (remote_hp c) "N/A";
     card_prices :=
       Some {| tcgplayer :=
         Some {| avg := Some (generateMockPrice (OfString (remote_name c))) |} |}
  |}.

(** [formatCardResults(cards, cacheKey)]; [now] is the reading of
    [Date.now()] stored as the entry's timestamp. *)
Definition formatCardResults (now : Z) (cards : list RemoteCard)
    (cacheKey : string) : M SearchResult :=
  let formattedCards := map formatCard cards in
  let* _ := cache_set cacheKey {| entry_data := formattedCards;
                                  timestamp := now |} in
  ret {| success := true; data := Some formattedCards; error := None |}.

(** [result.success && result.data.data && result.data.data.length > 0],
    with [result.data.data] when it holds.  Reading [data] of a [null]
    body throws. *)
Definition found_cards (result : Fetched CardsBody)
  : Completion (option CardsData) :=
  if fetched_success result then
    match fetched_data result with
    | Some (NullBody message) => Throw message
    | Some (Body (Listed (c :: cs))) => Normal (Some (Listed (c :: cs)))
    | Some (Body (Unlisted message)) => Normal (Some (Unlisted message))
    | Some (Body _) => Normal None
    | None => Normal None
    end
  else Normal None.

(** [card.name] where the code goes on to use it: it throws on a value
    that has no name to use. *)
Definition named (item : RemoteItem) : Completion RemoteCard :=
  match item with
  | Named c => Normal c
  | Nameless message => Throw message
  end.

(** The elements as the callback of [filter] meets them, in order: it
    lowers the name of each and throws on the first that has none. *)
Fixpoint named_cards (items : list RemoteItem) : Completion (list RemoteCard) :=
  match items with
  | [] => Normal []
  | item :: rest =>
      match named item with
      | Throw message => Throw message
      | Normal c =>
          match named_cards rest with
          | Throw message => Throw message
          | Normal cs => Normal (c :: cs)
          end
      end
  end.

(** [data.filter(card => card.name.toLowerCase().includes(nameMatch))]
    as far as it can throw: [data] has to be an array, and every
    element a card with a name.  When it does not throw, [data] is
    the list of these cards. *)
Definition filter_input (data : CardsData) : Completion (list RemoteCard) :=
  match data with
  | Absent => Normal []
  | Unlisted message => Throw message
  | Listed items => named_cards items
  end.

(** [searchCards(name, set, number)].  [now_lookup] is the clock read
    when a cached entry is examined and [now_store] the one read when
    the results are cached. *)
Definition searchCards (net : Network CardsBody) (now_lookup now_store : Z)
    (name set number : string) : M SearchResult :=
  try_catch
    (let cacheKey := "search_" +:+ name +:+ "_" +:+ set +:+ "_" +:+ number in
     let remote : M SearchResult :=
       let query := "name:" +:+ dquote +:+ trim name +:+ dquote in
       let query :=
         if JsString.truthy set && JsString.truthy (trim set)
         then query +:+ " series.name:" +:+ dquote +:+ trim set +:+ dquote
         else query in
       let params := [("q", query)] in
       let* result := fetchFromPokemonTCG net "/cards" params in
       let* found := lift (found_cards result) in
       match found with
       | Some data =>
           let nameMatch := trim (toLowerCase name) in
           let* cards := lift (filter_input data) in
           let filteredCards :=
             List.filter
               (fun card => includes (toLowerCase (remote_name card)) nameMatch)
               cards in
           if (length filteredCards =? 0)%nat then
             let results := cards in
             formatCardResults now_store results cacheKey
           else formatCardResults now_store filteredCards cacheKey
       | None =>
           ret {| success := false; data := None;
                  error := Some "No cards found" |}
       end in
     let* cache := get_cache in
     match cache !! cacheKey with
     | Some cached =>
         if now_lookup - timestamp cached <? CACHE_DURATION then
           ret {| success := true; data := Some (entry_data cached);
                  error := None |}
         else remote
     | None => remote
     end)
    (fun message =>
       ret {| success := false; data := None; error := Some message |}).

(** The own properties of [conditionMultipliers]. *)
Definition conditionMultipliers : list (string * number) :=
  [ ("Near Mint", 1.0%float);
    ("Lightly Played", 0.75%float);
    ("Moderately Played", 0.50%float) ].

(** [card.prices?.tcgplayer?.avg] *)
Definition listed_avg (c : Card) : option number :=
  p ← card_prices c; t ← tcgplayer p; avg t.

(** [card.prices?.tcgplayer?.avg || generateMockPrice(card)] *)
Definition base_price (c : Card) : number :=
  match listed_avg c with
  | Some x => if JsNumber.truthy x then x else generateMockPrice (OfCard c)
  | None => generateMockPrice (OfCard c)
  end.

Definition enrichCardWithPricing (c : Card) (condition : string) : EnrichedCard :=
  let multiplier :=
    JsObject.or JsNumber.truthy
      (JsObject.get conditionMultipliers condition) 0.5%float in
  let basePrice := base_price c in
  let adjustedPrice := (basePrice * JsObject.toNumber multiplier)%float in
  {| card := c;
     selectedCondition := condition;
     basePrice := toFixed 2 basePrice;
     adjustedPrice := toFixed 2 adjustedPrice;
     conditionMultiplier := multiplier;
     priceBreakdown :=
       {| breakdown_basePrice := toFixed 2 basePrice;
          conditionAdjustment :=
            round_toString (JsObject.toNumber multiplier * 100)%float +:+ "%";
          estimatedValue := toFixed 2 adjustedPrice |}
  |}.

(** [result.success && result.data.data], with [result.data.data]
    when it holds.  Reading [data] of a [null] body throws. *)
Definition detail_card (result : Fetched CardBody)
  : Completion (option RemoteItem) :=
  if fetched_success result then
    match fetched_data result with
    | Some (NullCard message) => Throw message
    | Some (Detail one_data) => Normal one_data
    | None => Normal None
    end
  else Normal None.

(** What [getCardPricing] returns: the enriched card, or the fetch
    result handed back as it is, or the message of a caught error. *)
Inductive Pricing : Type :=
| Priced (data : EnrichedCard) : Pricing
| Unpriced (result : Fetched CardBody) : Pricing
| PricingError (message : string) : Pricing.

Definition getCardPricing (net : Network CardBody) (cardId condition : string)
  : M Pricing :=
  try_catch
    (let* result := fetchFromPokemonTCG net ("/cards/" +:+ cardId) [] in
     let* found := lift (detail_card result) in
     match found with
     | Some item =>
         let* c := lift (named item) in
         ret (Priced (enrichCardWithPricing (formatCard c) condition))
     | None => ret (Unpriced result)
     end)
    (fun message => ret (PricingError message)).

(** [clearCache()] *)
Definition clearCache : M unit :=
  fun st => (Normal tt, {| cache := ∅; requests := requests st |}).

Definition getSampleCard : Card :=
  {| card_id := Some "sample_001";
     card_name := "Charizard";
     card_set := "Base Set";
     card_setCode := "BS";
     card_number := "4/102";
     card_imageUrl := JsObject.Own "https://images.pokemontcg.io/base1/4.png";
     card_rarity := "Holo Rare";
     card_type := "Fire";
     card_hp := "120";
     card_prices := Some {| tcgplayer := Some {| avg := Some 45.50%float |} |}
  |}.

End API.

(* ===================================================================== *)
(** ** [UI]: the screens of js/ui.js *)
(* ===================================================================== *)

Module UI.

Import JsString.

(** The keys of [screens].  The page's markup is not part of the
    scripts; every element the module looks up is taken to exist. *)
Inductive Screen : Type :=
| auth | cardInput | confirmation | loading | results | error.

Definition Screen_eqb (a b : Screen) : bool :=
  match a, b with
  | auth, auth | cardInput, cardInput | confirmation, confirmation
  | loading, loading | results, results | error, error => true
  | _, _ => false
  end.

(** A Card Descriptor, as [handleSearch] stores it under [cardData]. *)
Record CardData : Type := {
  name : string;
  set : string;
  number : string;
  condition : string;
  photo : string
}.

(** [sessionStorage], read through the keys the scripts use. *)
Record SessionStorage : Type := {
  cardData : option CardData;
  currentScreen : option Screen;
  previousScreen : option Screen
}.

(** What [showResults] writes into the results screen. *)
Record ResultsView : Type := {
  resultsCardName : string;
  resultsCardSet : string;
  resultsCondition : string;
  resultsPrice : string;
  resultsCardImage : JsObject.value string;
  breakdownLabel : string;
  breakdownPrice : string
}.

(** The parts of the document the modelled functions touch.
    [active] lists the screens whose element carries the class
    [active]; [resultsView] is [None] until [showResults] ran. *)
Record Dom : Type := {
  active : list Screen;
  errorMessage : string;
  userMenuHidden : bool;
  searchDisabled : bool;
  userDisplayName : string;
  userMenuBtnShown : bool;
  resultsView : option ResultsView
}.

Record World : Type := {
  localStorage : Auth.LocalStorage;
  sessionStorage : SessionStorage;
  dom : Dom
}.

Definition set_dom (f : Dom -> Dom) (w : World) : World :=
  {| localStorage := localStorage w;
     sessionStorage := sessionStorage w;
     dom := f (dom w) |}.

Definition protectedScreens : list Screen :=
  [cardInput; confirmation; loading; results].

(** [protectedScreens.includes(screenName)] *)
Definition is_protected (screenName : Screen) : bool :=
  existsb (Screen_eqb screenName) protectedScreens.

(** [elements.errorMessage.textContent = message] *)
Definition set_errorMessage (message : string) : World -> World :=
  set_dom (fun d =>
    {| active := active d; errorMessage := message;
       userMenuHidden := userMenuHidden d;
       searchDisabled := searchDisabled d;
       userDisplayName := userDisplayName d;
       userMenuBtnShown := userMenuBtnShown d;
       resultsView := resultsView d |}).

(** The tail of [showScreen], past the session check: hide every
    screen, show the selected one and record it, close the user menu. *)
Definition display (screenName : Screen) (w : World) : World :=
  {| localStorage := localStorage w;
     sessionStorage :=
       {| cardData := cardData (sessionStorage w);
          currentScreen := Some screenName;
          previousScreen := previousScreen (sessionStorage w) |};
     dom :=
       {| active := [screenName];
          errorMessage := errorMessage (dom w);
          userMenuHidden := true;
          searchDisabled := searchDisabled (dom w);
          userDisplayName := userDisplayName (dom w);
          userMenuBtnShown := userMenuBtnShown (dom w);
          resultsView := resultsView (dom w) |} |}.

(** The session check that opens [showScreen]. *)
Definition must_log_in (screenName : Screen) (w : World) : bool :=
  is_protected screenName && negb (Auth.isLoggedIn (localStorage w)).

(** The recursion of [showScreen] descends from a protected screen to
    the two open ones. *)
Definition rank (screenName : Screen) : nat :=
  if is_protected screenName then 1%nat else 0%nat.

(** [showScreen(screenName)].  In the first branch the inner call is
    the body of [showError('Please log in first to continue')]. *)
Equations? showScreen (screenName : Screen) (w : World) : World
  by wf (rank screenName) lt :=
  showScreen screenName w with inspect (must_log_in screenName w) := {
    | exist _ true denied =>
        showScreen auth
          (showScreen error
             (set_errorMessage "Please log in first to continue" w));
    | exist _ false _ => display screenName w }.
Proof.
  all: unfold must_log_in in denied; apply andb_prop in denied as [Hp _];
    unfold rank; rewrite Hp; simpl; lia.
Qed.

(** [showError(message)] *)
Definition showError (message : string) (w : World) : World :=
  showScreen error (set_errorMessage message w).

(** [showLoading()] *)
Definition showLoading (w : World) : World := showScreen loading w.

(** [disableSearch()] and [enableSearch()] *)
Definition set_searchDisabled (b : bool) : World -> World :=
  set_dom (fun d =>
    {| active := active d; errorMessage := errorMessage d;
       userMenuHidden := userMenuHidden d;
       searchDisabled := b;
       userDisplayName := userDisplayName d;
       userMenuBtnShown := userMenuBtnShown d;
       resultsView := resultsView d |}).

Definition disableSearch : World -> World := set_searchDisabled true.
Definition enableSearch : World -> World := set_searchDisabled false.

(** The inline image shown when a card has no picture. *)
Definition noImage : string :=
  let q (s : string) := dquote +:+ s +:+ dquote in
  "data:image/svg+xml,%3Csvg xmlns=" +:+ q "http://www.w3.org/2000/svg"
  +:+ " width=" +:+ q "200" +:+ " height=" +:+ q "280"
  +:+ " viewBox=" +:+ q "0 0 200 280"
  +:+ "%3E%3Crect width=" +:+ q "200" +:+ " height=" +:+ q "280"
  +:+ " fill=" +:+ q "%23f0f0f0" +:+ "/%3E%3Ctext x=" +:+ q "50%"
  +:+ " y=" +:+ q "50%" +:+ " text-anchor=" +:+ q "middle"
  +:+ " dy=" +:+ q ".3em" +:+ " fill=" +:+ q "%23999"
  +:+ " font-family=" +:+ q "Arial" +:+ " font-size=" +:+ q "14"
  +:+ "%3ENo Image%3C/text%3E%3C/svg%3E".

(** [showResults(cardData)] for an enriched card: [adjustedPrice] and
    [priceBreakdown] are present, so [price] is never consulted and
    the breakdown is always shown. *)
Definition showResults (c : API.EnrichedCard) (w : World) : World :=
  let priceValue := or_default (Some (API.adjustedPrice c)) "N/A" in
  let view :=
    {| resultsCardName := API.card_name (API.card c);
       resultsCardSet :=
         or_default (Some (API.card_set (API.card c)))
           (or_default (Some (API.card_setCode (API.card c))) "N/A");
       resultsCondition := or_default (Some (API.selectedCondition c)) "N/A";
       resultsPrice := "$" +:+ priceValue;
       resultsCardImage :=
         JsObject.or truthy (API.card_imageUrl (API.card c)) noImage;
       breakdownLabel :=
         "Base Price × " +:+ API.conditionAdjustment (API.priceBreakdown c);
       breakdownPrice :=
         "$" +:+ API.estimatedValue (API.priceBreakdown c) |} in
  showScreen results
    (set_dom (fun d =>
       {| active := active d; errorMessage := errorMessage d;
          userMenuHidden := userMenuHidden d;
          searchDisabled := searchDisabled d;
          userDisplayName := userDisplayName d;
          userMenuBtnShown := userMenuBtnShown d;
          resultsView := Some view |}) w).

(** [handleConfirmSearch()] *)
Definition handleConfirmSearch (w : World) : World :=
  showScreen loading
    {| localStorage := localStorage w;
       sessionStorage :=
         {| cardData := cardData (sessionStorage w);
            currentScreen := currentScreen (sessionStorage w);
            previousScreen := Some confirmation |};
       dom := dom w |}.

(** [updateUserDisplay()] *)
Definition updateUserDisplay (w : World) : World :=
  let show (text : string) (shown : bool) :=
    set_dom (fun d =>
      {| active := active d; errorMessage := errorMessage d;
         userMenuHidden := userMenuHidden d;
         searchDisabled := searchDisabled d;
         userDisplayName := text;
         userMenuBtnShown := shown;
         resultsView := resultsView d |}) in
  match Auth.getSession (localStorage w) with
  | Some session =>
      show (or_default (Some (Auth.session_name session)) "User") true w
  | None => showScreen auth (show "Login" false w)
  end.

(** The retry button of the error screen. *)
Definition errorRetry (w : World) : World :=
  showScreen (default cardInput (previousScreen (sessionStorage w))) w.

End UI.

(* ===================================================================== *)
(** ** [App]: the main application script *)
(* ===================================================================== *)

Module App.

Import JsString JsNumber.

(** The page: what [UI] and [Auth] see, the state of [API], and the
    two variables of the application module. *)
Record State : Type := {
  ui : UI.World;
  api : API.State;
  currentCard : option API.Card;
  searchInProgress : bool
}.

Definition set_ui (f : UI.World -> UI.World) (st : State) : State :=
  {| ui := f (ui st); api := api st;
     currentCard := currentCard st;
     searchInProgress := searchInProgress st |}.

Definition set_searchInProgress (b : bool) (st : State) : State :=
  {| ui := ui st; api := api st;
     currentCard := currentCard st;
     searchInProgress := b |}.

(** [generateMockPrice(cardName)] *)
Definition generateMockPrice (cardName : string) : number :=
  let seed := (charCodeAt cardName 0
               + charCodeAt cardName (Z.of_nat (String.length cardName) - 1))%float in
  (15 + rem (seed * 257) 486)%float.

Definition pokemonMap : list (string * string) :=
  [ ("charizard", "https://images.pokemontcg.io/base1/4.png");
    ("blastoise", "https://images.pokemontcg.io/base1/2.png");
    ("venusaur", "https://images.pokemontcg.io/base1/1.png");
    ("dragonite", "https://images.pokemontcg.io/base1/5.png");
    ("machamp", "https://images.pokemontcg.io/base1/7.png");
    ("golem", "https://images.pokemontcg.io/base1/6.png");
    ("arcanine", "https://images.pokemontcg.io/base1/23.png");
    ("lapras", "https://images.pokemontcg.io/base1/16.png");
    ("snorlax", "https://images.pokemontcg.io/base1/27.png");
    ("alakazam", "https://images.pokemontcg.io/base1/1/1.png");
    ("pikachu", "https://images.pokemontcg.io/base1/25.png") ].

(** [generateMockImageUrl(pokemonName)] *)
Definition generateMockImageUrl (pokemonName : string) : JsObject.value string :=
  let normalizedName := toLowerCase pokemonName in
  JsObject.or JsString.truthy (JsObject.get pokemonMap normalizedName)
    "https://images.pokemontcg.io/base1/4.png".

(** [createMockCardResult(cardData)]; [now] is the reading of
    [Date.now()] that goes into the id. *)
Definition createMockCardResult (now : Z) (cardData : UI.CardData) : API.Card :=
  {| API.card_id := Some ("mock_" +:+ pretty now);
     API.card_name := UI.name cardData;
     API.card_set := UI.set cardData;
     API.card_setCode := toUpperCase (take 2 (UI.set cardData));
     API.card_number := or_default (Some (UI.number cardData)) "1/102";
     API.card_imageUrl := generateMockImageUrl (UI.name cardData);
     API.card_rarity := "Holo Rare";
     API.card_type := "Varies";
     API.card_hp := "120";
     API.card_prices :=
       Some {| API.tcgplayer :=
         Some {| API.avg := Some (generateMockPrice (UI.name cardData)) |} |}
  |}.

(** Where a call of [performSearch] stands when it first gives up
    control. *)
Inductive Suspension : Type :=
| Returned : Suspension
    (** it returned: the guard was set, or no card data was stored *)
| RedirectScheduled : Suspension
    (** it returned after arming the one-second timer that shows the
        [auth] screen *)
| AwaitingDelay (cardData : UI.CardData) : Suspension.
    (** it waits on [delay(2000)] with the guard set *)

(** [performSearch()] up to its first [await]. *)
Definition performSearch_begin (st : State) : State * Suspension :=
  if searchInProgress st then (st, Returned)
  else if negb (Auth.isLoggedIn (UI.localStorage (ui st))) then
    (set_ui (UI.showError "You must be logged in to search for cards") st,
     RedirectScheduled)
  else
    match UI.cardData (UI.sessionStorage (ui st)) with
    | None => (set_ui (UI.showError "Card data not found") st, Returned)
    | Some cardData =>
        let st := set_searchInProgress true st in
        let st := set_ui UI.disableSearch st in
        let st := set_ui UI.showLoading st in
        (st, AwaitingDelay cardData)
    end.

(** The timer armed by the log-in check. *)
Definition redirect_timer (st : State) : State :=
  set_ui (UI.showScreen UI.auth) st.

(** The [try] block from the point where [API.searchCards] has
    settled with [outcome], then [catch] and [finally].  [now] is the
    clock read if a mock card is built. *)
Definition performSearch_settle (now : Z) (cardData : UI.CardData)
    (outcome : Completion API.SearchResult) (st : State) : State :=
  let st :=
    match outcome with
    | Normal searchResult =>
        let card :=
          if negb (API.success searchResult) then
            createMockCardResult now cardData
          else
            match API.data searchResult with
            | Some (first :: _) => first
            | _ => createMockCardResult now cardData
            end in
        let enrichedCard :=
          API.enrichCardWithPricing card (UI.condition cardData) in
        set_ui (UI.showResults enrichedCard)
          {| ui := ui st; api := api st;
             currentCard := Some card;
             searchInProgress := searchInProgress st |}
    | Throw _ =>
        set_ui (UI.showError "Failed to fetch card pricing. Please try again.") st
    end in
  let st := set_searchInProgress false st in
  set_ui UI.enableSearch st.

(** [performSearch()] from the end of [delay(2000)] on: the call of
    [API.searchCards] against [net], then the rest. *)
Definition performSearch_resume (net : API.Network API.CardsBody)
    (now_lookup now_store now_mock : Z) (cardData : UI.CardData)
    (st : State) : State :=
  let '(outcome, api') :=
    API.searchCards net now_lookup now_store
      (UI.name cardData) (UI.set cardData) (UI.number cardData) (api st) in
  performSearch_settle now_mock cardData outcome
    {| ui := ui st; api := api';
       currentCard := currentCard st;
       searchInProgress := searchInProgress st |}.

(** One call of [performSearch] run to its end with nothing else
    happening in between. *)
Definition performSearch (net : API.Network API.CardsBody)
    (now_lookup now_store now_mock : Z) (st : State) : State :=
  match performSearch_begin st with
  | (st', AwaitingDelay cardData) =>
      performSearch_resume net now_lookup now_store now_mock cardData st'
  | (st', _) => st'
  end.

End App.

(* ===================================================================== *)
(** ** Statements: the vocabulary of the specification *)
(* ===================================================================== *)

Module Pricing.

Import JsNumber API.

(** The multiplier the specification gives each condition tier:
    1.0 for Near Mint, 0.75 for Lightly Played, 0.50 for Moderately
    Played and 0.50 for any other condition. *)
Definition tier_multiplier (condition : string) : number :=
  if String.eqb "Near Mint" condition then 1.0%float
  else if String.eqb "Lightly Played" condition then 0.75%float
  else if String.eqb "Moderately Played" condition then 0.50%float
  else 0.50%float.

Definition digit (c : ascii) : option Z :=
  let n := JsString.code c in
  if (48 <=? n) && (n <=? 57) then Some (n - 48) else None.

(** The natural number written by a non-empty run of digits. *)
Fixpoint numeral (acc : Z) (s : string) : option Z :=
  match s with
  | EmptyString => Some acc
  | String c r => d ← digit c; numeral (10 * acc + d) r
  end.

(** The integer and fraction parts of [s] around its first point. *)
Fixpoint split_point (s : string) : option (string * string) :=
  match s with
  | EmptyString => None
  | String c r =>
      if Ascii.eqb c "."%char then Some (EmptyString, r)
      else '(i, f) ← split_point r; Some (String c i, f)
  end.

(** The rational number written by a numeral with exactly two
    decimals, such as [34.13] or [-0.50]. *)
Definition decimal (s : string) : option Q :=
  let '(negative, body) :=
    match s with
    | String "-"%char r => (true, r)
    | _ => (false, s)
    end in
  '(i, f) ← split_point body;
  if JsString.falsy i || negb (String.length f =? 2)%nat then None
  else
    whole ← numeral 0 i;
    cents ← numeral 0 f;
    let q := (whole * 100 + cents) # 100 in
    Some (if negative then Qopp q else q).

(** The rational number a finite binary64 value is. *)
Definition rational (x : number) : option Q :=
  '(m, e) ← exact x;
  Some (if 0 <=? e then inject_Z (m * 2 ^ e)
        else Qmake m (Z.to_pos (2 ^ (- e)))).

(** The invariant as the specification words it, read off the
    returned object: [adjustedPrice = basePrice × multiplier], with
    the multiplier of the selected condition's tier. *)
Definition price_invariantb (r : EnrichedCard) : bool :=
  match decimal (adjustedPrice r), decimal (basePrice r),
        rational (tier_multiplier (selectedCondition r)) with
  | Some adjusted, Some base, Some multiplier =>
      Qeq_bool adjusted (base * multiplier)
  | _, _, _ => false
  end.

Definition price_invariant (r : EnrichedCard) : Prop :=
  price_invariantb r = true.

(** The check behind the invariant for a whole-dollar base price. *)
Definition whole_dollar_ok (d : Z) : bool :=
  forallb
    (fun multiplier =>
       match decimal (toFixed 2 (of_Z d * multiplier)%float),
             decimal (toFixed 2 (of_Z d)), rational multiplier with
       | Some adjusted, Some base, Some m => Qeq_bool adjusted (base * m)
       | _, _, _ => false
       end)
    [1.0%float; 0.75%float; 0.50%float].

End Pricing.

(** The error classes of the credential store, by the messages that
    carry them. *)
Module Credentials.

Import Auth.

Definition validation_messages : list string :=
  [ "All fields are required"; "Invalid email address";
    "Password must be at least 6 characters" ].

Definition validation_error (r : Result) : Prop :=
  success r = false /\ In (message r) validation_messages.

Definition duplicate_email_error (r : Result) : Prop :=
  success r = false /\ message r = "Email already registered".

Definition stored_users (ls : LocalStorage) : list User :=
  default [] (getStoredUsers ls).

(** [email] is present among the stored users. *)
Definition registered (email : string) (ls : LocalStorage) : Prop :=
  exists u, In u (stored_users ls) /\ user_email u = email.

(** [u] is the stored user a look-up by [email] matches: the first one
    with that email. *)
Definition matched (email : string) (ls : LocalStorage) (u : User) : Prop :=
  exists before after,
    stored_users ls = (before ++ u :: after)%list
    /\ user_email u = email
    /\ Forall (fun v => user_email v <> email) before.

(** The second half of C4 as stated: a registered email always draws
    the duplicate-email error. *)
Definition duplicate_always_reported (name email password : string)
    (now login_now : Z) (ls : LocalStorage) : Prop :=
  registered email ls ->
  duplicate_email_error (fst (signup name email password now login_now ls))
  /\ snd (signup name email password now login_now ls) = ls.

End Credentials.

Module Screens.

Import UI.




End Screens.

Module Lookup.

Import JsString API.

(** The composite key of a search. *)
Definition cacheKey (name set number : string) : string :=
  "search_" +:+ name +:+ "_" +:+ set +:+ "_" +:+ number.

(** The one request a search sends: the exact name and, when a set is
    given, the name of the set. *)
Definition search_query (name set : string) : string :=
  let query := "name:" +:+ dquote +:+ trim name +:+ dquote in
  if JsString.truthy set && JsString.truthy (trim set)
  then query +:+ " series.name:" +:+ dquote +:+ trim set +:+ dquote
  else query.

Definition search_request (name set : string) : Request :=
  {| endpoint := "/cards"; params := [("q", search_query name set)] |}.

(** The entry under [key] that is still inside its window at [now];
    an expired entry counts as absent. *)
Definition fresh (now : Z) (st : State) (key : string) : option CacheEntry :=
  match cache st !! key with
  | Some entry =>
      if now - timestamp entry <? CACHE_DURATION then Some entry else None
  | None => None
  end.

(** How a remote call ends for a search: in an error (transport
    failure, a status that is not OK, a body that is not JSON); with
    the cards of the body, which may be missing; or with a body the
    search cannot read ([null], a [data] that is no array, an element
    without a name), and the message of the TypeError it runs into. *)
Inductive Reply : Type :=
| Errored (message : string) : Reply
| Answered (cards : option (list RemoteCard)) : Reply
| Garbled (message : string) : Reply.

(** A parsed body as the search reads it. *)
Definition read (body : CardsBody) : Reply :=
  match body with
  | NullBody message => Garbled message
  | Body Absent => Answered None
  | Body (Unlisted message) => Garbled message
  | Body (Listed items) =>
      match named_cards items with
      | Normal cards => Answered (Some cards)
      | Throw message => Garbled message
      end
  end.

Definition reply (net : Network CardsBody) (req : Request) : Reply :=
  match net req with
  | Throw message => Errored message
  | Normal response =>
      if ok response then
        match json response with
        | Normal body => read body
        | Throw message => Errored message
        end
      else Errored ("API Error: " +:+ pretty (status response) +:+ " "
                    +:+ statusText response)
  end.

(** The remote call errored or yielded an empty data set: the two
    cases C7 names. *)
Definition errored_or_empty (r : Reply) : Prop :=
  match r with
  | Errored _ => True
  | Answered None => True
  | Answered (Some []) => True
  | Answered (Some (_ :: _)) => False
  | Garbled _ => False
  end.

(** The remote call left the search without cards: it errored, it
    yielded nothing, or its body could not be read. *)
Definition nothing_found (r : Reply) : Prop :=
  match r with
  | Errored _ => True
  | Answered None => True
  | Answered (Some []) => True
  | Answered (Some (_ :: _)) => False
  | Garbled _ => True
  end.

(** The [error] a search reports for a remote call that left it
    without cards. *)
Definition reported (r : Reply) : string :=
  match r with
  | Garbled message => message
  | _ => "No cards found"
  end.

(** C7 as stated, for one search that the cache does not answer: it
    reports failure exactly when the remote call errors or yields an
    empty data set. *)
Definition failure_as_stated (net : Network CardsBody)
    (now_lookup now_store : Z) (name set number : string) (st : State)
  : Prop :=
  fresh now_lookup st (cacheKey name set number) = None ->
  forall res,
    fst (searchCards net now_lookup now_store name set number st)
    = Normal res ->
    (success res = false
     <-> errored_or_empty (reply net (search_request name set))).

(** [sub] occurs in [s]. *)
Definition substring (sub s : string) : Prop :=
  exists before after, s = before +:+ sub +:+ after.

(** The filter of the code: the card's name contains the trimmed query
    name, both in lower case. *)
Definition name_matches (name : string) (c : RemoteCard) : bool :=
  includes (toLowerCase (remote_name c)) (trim (toLowerCase name)).

(** The cards a search keeps: the matching ones, or all of them when
    none matches. *)
Definition kept (name : string) (cards : list RemoteCard) : list RemoteCard :=
  match List.filter (name_matches name) cards with
  | [] => cards
  | filtered => filtered
  end.

(** The filter as C6 words it: the card's name contains the query name,
    case-insensitively. *)
Definition name_contains (name : string) (c : RemoteCard) : bool :=
  includes (toLowerCase (remote_name c)) (toLowerCase name).

Definition kept_as_stated (name : string) (cards : list RemoteCard)
  : list RemoteCard :=
  match List.filter (name_contains name) cards with
  | [] => cards
  | filtered => filtered
  end.

Definition found (cards : list Card) : SearchResult :=
  {| success := true; data := Some cards; error := None |}.

Definition not_found : SearchResult :=
  {| success := false; data := None; error := Some "No cards found" |}.

(** What a search returns from its [catch]. *)
Definition unreadable (message : string) : SearchResult :=
  {| success := false; data := None; error := Some message |}.

(** C6 as stated, for one search that reaches the remote service. *)
Definition filter_as_stated (net : Network CardsBody) (now_lookup now_store : Z)
    (name set number : string) (st : State) : Prop :=
  forall cards,
    fresh now_lookup st (cacheKey name set number) = None ->
    reply net (search_request name set) = Answered (Some cards) ->
    cards <> [] ->
    fst (searchCards net now_lookup now_store name set number st)
    = Normal (found (map formatCard (kept_as_stated name cards))).

(** C2 as stated, for two searches in a row: the first at [t1] (its
    results stored at [t1']), the second at [t2]. *)
Definition cache_as_stated (net1 net2 : Network CardsBody)
    (t1 t1' t2 t2' : Z) (name set number : string) (st : State) : Prop :=
  let first := searchCards net1 t1 t1' name set number st in
  let second := searchCards net2 t2 t2' name set number (snd first) in
  (0 <= t2 - t1' < CACHE_DURATION ->
     fst second = fst first
     /\ requests (snd second) = requests (snd first))
  /\ (CACHE_DURATION <= t2 - t1' ->
      requests (snd second)
      = (requests (snd first) ++ [search_request name set])%list).

End Lookup.

Module Workflow.

Import JsNumber.

(** The synthetic price as a function of the codes of the first and of
    the last character of the name. *)
Definition seeded_price (first last : Z) : number :=
  (15 + rem ((of_Z first + of_Z last) * 257) 486)%float.

(** The whole number of dollars the seeded function comes to. *)
Definition seeded_dollars (first last : Z) : Z :=
  15 + ((first + last) * 257) mod 486.

(** The last character of [String c s]. *)
Fixpoint last_char (c : ascii) (s : string) : ascii :=
  match s with
  | EmptyString => c
  | String d r => last_char d r
  end.

(** The two end characters of a name: its first and its last, which
    are one and the same in a name of one character. *)
Definition ends (s : string) : option (ascii * ascii) :=
  match s with
  | EmptyString => None
  | String a r => Some (a, last_char a r)
  end.

(** The number of a small natural number, through the primitive
    conversion. *)
Definition small (n : Z) : number := PrimFloat.of_uint63 (Uint63.of_Z n).

(** Three checks that together show [seeded_price] to be
    [seeded_dollars]: the code of a character converts as [small]; the
    sum of two codes is exact; and for a sum of codes the seeded
    function is the whole number of dollars, and truthy. *)
Definition code_ok (a : Z) : bool := PrimFloat.Leibniz.eqb (of_Z a) (small a).

Definition sum_ok (a b : Z) : bool :=
  PrimFloat.Leibniz.eqb (small a + small b)%float (small (a + b)).

Definition seeded_sum_ok (s : Z) : bool :=
  PrimFloat.Leibniz.eqb (15 + rem (small s * 257) 486)%float
    (of_Z (15 + (s * 257) mod 486))
  && JsNumber.truthy (15 + rem (small s * 257) 486)%float.

(** The lookup settled without a card to use: it reported failure, or
    it came back with no cards. *)
Definition without_cards (r : API.SearchResult) : Prop :=
  API.success r = false \/ API.data r = None \/ API.data r = Some [].

(** The page over time, as far as [performSearch] is concerned: the
    confirm button invokes it; a search that is waiting on its delay and
    its lookup resumes when they are over; any other handler or timer
    works on what [UI] and [Auth] see and leaves the variables of [App]
    and the state of [API] alone.  ([App.reset] and [API.clearCache]
    are exported but bound to no event of the page; they are not among
    the events.) *)
Inductive Event : Type :=
| Trigger : Event
| Settle (net : API.Network API.CardsBody)
    (now_lookup now_store now_mock : Z) : Event
| Handler (f : UI.World -> UI.World) : Event.

(** The page and the calls of [performSearch] that are suspended,
    oldest first. *)
Record Page : Type := {
  state : App.State;
  in_flight : list UI.CardData
}.

Definition step (e : Event) (p : Page) : Page :=
  match e with
  | Trigger =>
      let '(st, suspension) := App.performSearch_begin (state p) in
      {| state := st;
         in_flight :=
           match suspension with
           | App.AwaitingDelay cardData => (in_flight p ++ [cardData])%list
           | _ => in_flight p
           end |}
  | Settle net now_lookup now_store now_mock =>
      match in_flight p with
      | [] => p
      | cardData :: rest =>
          {| state := App.performSearch_resume net now_lookup now_store
                        now_mock cardData (state p);
             in_flight := rest |}
      end
  | Handler f => {| state := App.set_ui f (state p); in_flight := in_flight p |}
  end.

Definition run (events : list Event) (p : Page) : Page :=
  fold_left (fun p e => step e p) events p.

(** At most one search is in flight, and the guard is set exactly while
    one is. *)
Definition single_flight (p : Page) : Prop :=
  (length (in_flight p) <= 1)%nat
  /\ (App.searchInProgress (state p) = true <-> in_flight p <> []).

End Workflow.

(** Sample inputs, used to exercise the statements below. *)
Module Examples.

(** The descriptor of end-to-end scenario C. *)
Definition charizard : UI.CardData :=
  {| UI.name := "Charizard"; UI.set := "Base Set"; UI.number := "";
     UI.condition := "Near Mint"; UI.photo := "" |}.

(** The store after [Auth.init] on an empty [localStorage]: the demo
    account and no session. *)
Definition seeded : Auth.LocalStorage :=
  Auth.init {| Auth.nashCards_users := None; Auth.nashCards_session := None |}.

Definition demo_user : Auth.User :=
  {| Auth.user_id := "1"; Auth.user_name := "Demo User";
     Auth.user_email := "demo@example.com";
     Auth.user_password := "password123" |}.

(** The seeded store with a session left by somebody else. *)
Definition stale_session : Auth.LocalStorage :=
  {| Auth.nashCards_users := Some [demo_user];
     Auth.nashCards_session :=
       Some {| Auth.session_id := "9"; Auth.session_name := "Guest";
               Auth.session_email := "guest@example.com";
               Auth.loginTime := 3 |} |}.


Definition remote_card (name : string) : API.RemoteCard :=
  {| API.remote_id := Some name; API.remote_name := name;
     API.remote_set := None; API.remote_number := None;
     API.remote_images := None; API.remote_rarity := None;
     API.remote_types := None; API.remote_hp := None |}.

(** A service that answers every request with the given cards. *)
Definition answering (cards : list API.RemoteCard) : API.Network API.CardsBody :=
  fun _ =>
    Normal {| API.ok := true; API.status := 200; API.statusText := "OK";
              API.json :=
                Normal (API.Body (API.Listed (map API.Named cards))) |}.

(** A service that answers every request with one card that has an
    id and no name. *)
Definition nameless : API.Network API.CardsBody :=
  fun _ =>
    Normal {| API.ok := true; API.status := 200; API.statusText := "OK";
              API.json :=
                Normal (API.Body (API.Listed
                  [API.Nameless
                     "Cannot read properties of undefined (reading 'toLowerCase')"])) |}.

(** A service that cannot be reached. *)
Definition unreachable : API.Network API.CardsBody :=
  fun _ => Throw "Failed to fetch".

(** A detail service that answers every request with the given card. *)
Definition detailing (c : API.RemoteCard) : API.Network API.CardBody :=
  fun _ =>
    Normal {| API.ok := true; API.status := 200; API.statusText := "OK";
              API.json := Normal (API.Detail (Some (API.Named c))) |}.

Definition fresh_start : API.State :=
  {| API.cache := ∅; API.requests := [] |}.

(** A page on the confirmation screen, logged in as the demo user,
    with the Charizard descriptor stored and no search under way. *)
Definition ready_page : App.State :=
  {| App.ui :=
       {| UI.localStorage :=
            snd (Auth.login "demo@example.com" "password123" 5 seeded);
          UI.sessionStorage :=
            {| UI.cardData := Some charizard;
               UI.currentScreen := Some UI.confirmation;
               UI.previousScreen := None |};
          UI.dom :=
            {| UI.active := [UI.confirmation]; UI.errorMessage := "";
               UI.userMenuHidden := true; UI.searchDisabled := false;
               UI.userDisplayName := "Demo User"; UI.userMenuBtnShown := true;
               UI.resultsView := None |} |};
     App.api := fresh_start;
     App.currentCard := None;
     App.searchInProgress := false |}.

(** The same page while a search is under way. *)
Definition busy_page : App.State :=
  fst (App.performSearch_begin ready_page).

End Examples.

(* ===================================================================== *)
(** ** The forms and their handlers (js/ui.js) *)
(* ===================================================================== *)

Module Handlers.

Import JsString.

(** The two forms of the auth screen: the values of their inputs and
    whether each form carries the class [hidden]. *)
Record AuthForm : Type := {
  loginEmail : string;
  loginPassword : string;
  signupName : string;
  signupEmail : string;
  signupPassword : string;
  signupPassword2 : string;
  loginFormHidden : bool;
  signupFormHidden : bool
}.

(** One of the [input[name="condition"]] radio buttons. *)
Record Radio : Type := {
  radio_value : string;
  radio_checked : bool
}.

(** An image element: its [src] attribute, if it has one, and the
    address of its document ([baseURI]), against which the attribute
    is resolved when the property [src] is read. *)
Record Image : Type := {
  src_attribute : option string;
  baseURI : string
}.

(** Reading [image.src].  Without the attribute it is the empty
    string; an empty attribute resolves to the address of the
    document.  The other values the page writes are the data URLs a
    file reader produced, which are absolute and read back as
    written. *)
Definition src (image : Image) : string :=
  match src_attribute image with
  | None => ""
  | Some EmptyString => baseURI image
  | Some url => url
  end.

(** [image.src = url] *)
Definition set_src (url : string) (image : Image) : Image :=
  {| src_attribute := Some url; baseURI := baseURI image |}.

(** The card input screen: its inputs and the photo preview. *)
Record CardForm : Type := {
  cardName : string;
  cardSet : string;
  cardNumber : string;
  conditionRadios : list Radio;
  previewImage : Image;
  photoPreviewHidden : bool;
  cardPhotoInput : string
}.

(** What [showConfirmation] writes into the confirmation screen. *)
Record ConfirmView : Type := {
  confirmCardName : string;
  confirmCardSet : string;
  confirmCardNumber : string;
  confirmCondition : string;
  confirmCardImage : string
}.

(** The page as the handlers see it; [confirmView] is [None] until
    [showConfirmation] ran. *)
Record Page : Type := {
  world : UI.World;
  authForm : AuthForm;
  cardForm : CardForm;
  confirmView : option ConfirmView
}.

Definition set_world (f : UI.World -> UI.World) (p : Page) : Page :=
  {| world := f (world p); authForm := authForm p;
     cardForm := cardForm p; confirmView := confirmView p |}.

Definition set_authForm (f : AuthForm -> AuthForm) (p : Page) : Page :=
  {| world := world p; authForm := f (authForm p);
     cardForm := cardForm p; confirmView := confirmView p |}.

Definition set_cardForm (f : CardForm -> CardForm) (p : Page) : Page :=
  {| world := world p; authForm := authForm p;
     cardForm := f (cardForm p); confirmView := confirmView p |}.

(** [clearAuthForm()] *)
Definition clearAuthForm (f : AuthForm) : AuthForm :=
  {| loginEmail := ""; loginPassword := ""; signupName := "";
     signupEmail := ""; signupPassword := ""; signupPassword2 := "";
     loginFormHidden := loginFormHidden f;
     signupFormHidden := signupFormHidden f |}.

(** [toggleForms()] *)
Definition toggleForms (f : AuthForm) : AuthForm :=
  clearAuthForm
    {| loginEmail := loginEmail f; loginPassword := loginPassword f;
       signupName := signupName f; signupEmail := signupEmail f;
       signupPassword := signupPassword f;
       signupPassword2 := signupPassword2 f;
       loginFormHidden := negb (loginFormHidden f);
       signupFormHidden := negb (signupFormHidden f) |}.

(** [toggleUserMenu()] *)
Definition toggleUserMenu : UI.World -> UI.World :=
  UI.set_dom (fun d =>
    {| UI.active := UI.active d; UI.errorMessage := UI.errorMessage d;
       UI.userMenuHidden := negb (UI.userMenuHidden d);
       UI.searchDisabled := UI.searchDisabled d;
       UI.userDisplayName := UI.userDisplayName d;
       UI.userMenuBtnShown := UI.userMenuBtnShown d;
       UI.resultsView := UI.resultsView d |}).

(** [getSelectedCondition()]: the value of the first checked radio
    button, [null] when none is checked. *)
Fixpoint getSelectedCondition (radios : list Radio) : option string :=
  match radios with
  | [] => None
  | radio :: rest =>
      if radio_checked radio then Some (radio_value radio)
      else getSelectedCondition rest
  end.

(** [showPhoto(src)] *)
Definition showPhoto (url : string) (f : CardForm) : CardForm :=
  {| cardName := cardName f; cardSet := cardSet f;
     cardNumber := cardNumber f; conditionRadios := conditionRadios f;
     previewImage := set_src url (previewImage f);
     photoPreviewHidden := false;
     cardPhotoInput := cardPhotoInput f |}.

(** [clearPhoto()] *)
Definition clearPhoto (f : CardForm) : CardForm :=
  {| cardName := cardName f; cardSet := cardSet f;
     cardNumber := cardNumber f; conditionRadios := conditionRadios f;
     previewImage := set_src "" (previewImage f);
     photoPreviewHidden := true;
     cardPhotoInput := "" |}.

(** [clearCardForm()] *)
Definition clearCardForm (f : CardForm) : CardForm :=
  clearPhoto
    {| cardName := ""; cardSet := ""; cardNumber := "";
       conditionRadios :=
         map (fun radio => {| radio_value := radio_value radio;
                              radio_checked := false |})
           (conditionRadios f);
       previewImage := previewImage f;
       photoPreviewHidden := photoPreviewHidden f;
       cardPhotoInput := cardPhotoInput f |}.

(** The properties of a [File] that [handleFileUpload] reads. *)
Record File : Type := {
  file_type : string;
  file_size : Z
}.

(** [handleFileUpload(file)].  The second component tells whether the
    file was handed to the reader; its data URL reaches [showPhoto]
    when the reader is done. *)
Definition handleFileUpload (file : File) (p : Page) : Page * bool :=
  if negb (startsWith "image/" (file_type file)) then
    (set_world (UI.showError "Please upload an image file") p, false)
  else if 10 * 1024 * 1024 <? file_size file then
    (set_world (UI.showError "File size must be less than 10MB") p, false)
  else (p, true).

(** [showConfirmation()]: it reads the stored card data without
    checking that there is any. *)
Definition showConfirmation (p : Page) : Completion Page :=
  match UI.cardData (UI.sessionStorage (world p)) with
  | None => Throw "Cannot read properties of null (reading 'name')"
  | Some cardData =>
      let view :=
        {| confirmCardName := UI.name cardData;
           confirmCardSet := UI.set cardData;
           confirmCardNumber := or_default (Some (UI.number cardData)) "N/A";
           confirmCondition := UI.condition cardData;
           confirmCardImage :=
             if truthy (UI.photo cardData) then UI.photo cardData
             else UI.noImage |} in
      Normal
        (set_world (UI.showScreen UI.confirmation)
           {| world := world p; authForm := authForm p;
              cardForm := cardForm p; confirmView := Some view |})
  end.

(** [handleSearch()] *)
Definition handleSearch (p : Page) : Completion Page :=
  if negb (Auth.isLoggedIn (UI.localStorage (world p))) then
    Normal (set_world (UI.showError "Please log in first to search for cards") p)
  else
    let hasPhoto := negb (photoPreviewHidden (cardForm p)) in
    let cardName := trim (cardName (cardForm p)) in
    let cardSet := trim (cardSet (cardForm p)) in
    let condition := getSelectedCondition (conditionRadios (cardForm p)) in
    if negb hasPhoto && falsy cardName && falsy cardSet then
      Normal (set_world
                (UI.showError "Please upload a photo or enter card details") p)
    else if falsy cardName || falsy cardSet then
      Normal (set_world (UI.showError "Please enter card name and set") p)
    else
      match condition with
      | Some condition =>
          if falsy condition then
            Normal (set_world
                      (UI.showError "Please select a card condition") p)
          else
            showConfirmation
              (set_world
                 (fun w =>
                    {| UI.localStorage := UI.localStorage w;
                       UI.sessionStorage :=
                         {| UI.cardData :=
                              Some {| UI.name := cardName;
                                      UI.set := cardSet;
                                      UI.number := trim (cardNumber (cardForm p));
                                      UI.condition := condition;
                                      UI.photo := src (previewImage (cardForm p)) |};
                            UI.currentScreen :=
                              UI.currentScreen (UI.sessionStorage w);
                            UI.previousScreen :=
                              UI.previousScreen (UI.sessionStorage w) |};
                       UI.dom := UI.dom w |}) p)
      | None =>
          Normal (set_world (UI.showError "Please select a card condition") p)
      end.

Definition set_localStorage (ls : Auth.LocalStorage) (w : UI.World) : UI.World :=
  {| UI.localStorage := ls; UI.sessionStorage := UI.sessionStorage w;
     UI.dom := UI.dom w |}.

(** [handleLogin()]; [now] is the clock reading of the login. *)
Definition handleLogin (now : Z) (p : Page) : Page :=
  let email := trim (loginEmail (authForm p)) in
  let password := loginPassword (authForm p) in
  if falsy email || falsy password then
    set_world (UI.showError "Please enter email and password") p
  else
    let '(result, ls) := Auth.login email password now (UI.localStorage (world p)) in
    let p := set_world (set_localStorage ls) p in
    if Auth.success result then
      let p := set_world UI.updateUserDisplay p in
      let p := set_authForm clearAuthForm p in
      set_world (UI.showScreen UI.cardInput) p
    else set_world (UI.showError (Auth.message result)) p.

(** [handleSignup()]; [now] and [login_now] are the clock readings of
    the new id and of the automatic login. *)
Definition handleSignup (now login_now : Z) (p : Page) : Page :=
  let name := trim (signupName (authForm p)) in
  let email := trim (signupEmail (authForm p)) in
  let password := signupPassword (authForm p) in
  let password2 := signupPassword2 (authForm p) in
  if falsy name || falsy email || falsy password || falsy password2 then
    set_world (UI.showError "Please fill in all fields") p
  else if negb (String.eqb password password2) then
    set_world (UI.showError "Passwords do not match") p
  else
    let '(result, ls) :=
      Auth.signup name email password now login_now (UI.localStorage (world p)) in
    let p := set_world (set_localStorage ls) p in
    if Auth.success result then
      let p := set_world UI.updateUserDisplay p in
      let p := set_authForm clearAuthForm p in
      set_world (UI.showScreen UI.cardInput) p
    else set_world (UI.showError (Auth.message result)) p.

(** [handleLogout()] *)
Definition handleLogout (p : Page) : Page :=
  let p := set_world (fun w => set_localStorage (Auth.logout (UI.localStorage w)) w) p in
  let p := set_world UI.updateUserDisplay p in
  let p := set_world (UI.showScreen UI.auth) p in
  set_cardForm clearCardForm p.

(** The [home] button of the results screen. *)
Definition home (p : Page) : Page :=
  set_cardForm clearCardForm (set_world (UI.showScreen UI.cardInput) p).

End Handlers.

(* ===================================================================== *)
(** ** Start-up and reset (the main application script) *)
(* ===================================================================== *)

Module Startup.

(** The scripts at run time: the page as [App] sees it, and how many
    times [App.init] has run, which is how many times [UI.init] and
    [setupEventListeners] have added their listeners.  A button keeps
    one listener per function: the handlers added by name
    ([handleLogin], [handleSearch], [performSearch], ...) are there
    once however often [init] runs, while an arrow function is a new
    function each time and is added again. *)
Record Runtime : Type := {
  page : App.State;
  inits : nat
}.

(** [App.init()]: [Auth.init()], then [UI.init()], which adds the
    listeners and calls [updateUserDisplay()], then the first screen,
    then [setupEventListeners()]. *)
Definition init (r : Runtime) : Runtime :=
  let st := page r in
  let w := Handlers.set_localStorage (Auth.init (UI.localStorage (App.ui st)))
             (App.ui st) in
  let w := UI.updateUserDisplay w in
  let w := if Auth.isLoggedIn (UI.localStorage w)
           then UI.showScreen UI.cardInput w
           else UI.showScreen UI.auth w in
  {| page := {| App.ui := w; App.api := App.api st;
                App.currentCard := App.currentCard st;
                App.searchInProgress := App.searchInProgress st |};
     inits := S (inits r) |}.

(** [App.getCurrentCard()] *)
Definition getCurrentCard (st : App.State) : option API.Card :=
  App.currentCard st.

(** [App.reset()], on the variables of the module and the card form. *)
Definition reset (st : App.State) (form : Handlers.CardForm)
  : App.State * Handlers.CardForm :=
  ({| App.ui := App.ui st; App.api := App.api st;
      App.currentCard := None; App.searchInProgress := false |},
   Handlers.clearCardForm form).

End Startup.

(* ===================================================================== *)
(** ** The rest of js/api.js *)
(* ===================================================================== *)

Module Catalogue.

Import API.
Local Open Scope api_scope.

(** [getPopularSets()] *)
Definition getPopularSets {B} (net : Network B) : M (Fetched B) :=
  try_catch
    (let* result := fetchFromPokemonTCG net "/sets" [] in
     ret result)
    (fun message =>
       ret {| fetched_success := false; fetched_data := None;
              fetched_error := Some message |}).

End Catalogue.

(* ===================================================================== *)
(** ** Statements about the rest of the code *)
(* ===================================================================== *)

Module Remote.

Import API.

(** What a remote call comes to: the parsed body, or the message of the
    error (transport failure, a status that is not OK, a body that is
    not JSON). *)
Definition outcome {B} (net : Network B) (req : Request) : Completion B :=
  match net req with
  | Throw message => Throw message
  | Normal response =>
      if ok response then json response
      else Throw ("API Error: " +:+ pretty (status response) +:+ " "
                  +:+ statusText response)
  end.

(** The request of the detail path. *)
Definition detail_request (cardId : string) : Request :=
  {| endpoint := "/cards/" +:+ cardId; params := [] |}.

(** A card as [formatCard] builds them. *)
Definition formatted (c : Card) : Prop := exists rc, c = formatCard rc.

(** Every cache entry holds at least one card, and only formatted
    ones. *)
Definition cache_sound (st : State) : Prop :=
  forall key entry,
    cache st !! key = Some entry ->
    entry_data entry <> [] /\ Forall formatted (entry_data entry).

End Remote.

Module Text.

Import JsString.

(** [trimStart] on the list of characters. *)
Fixpoint drop_white (l : list ascii) : list ascii :=
  match l with
  | [] => []
  | c :: r => if is_white c then drop_white r else l
  end.

(** The string begins with a character that is not white space, or is
    empty. *)
Definition headed (l : list ascii) : Prop :=
  match l with
  | [] => True
  | c :: _ => is_white c = false
  end.

End Text.

Module Language.

Import Regex.

(** The words of a regular expression. *)
Inductive matches : regex -> string -> Prop :=
| matches_eps : matches Eps ""
| matches_class p c : p c = true -> matches (Class p) (String c "")
| matches_seq r s u v :
    matches r u -> matches s v -> matches (Seq r s) (u +:+ v)
| matches_alt_l r s u : matches r u -> matches (Alt r s) u
| matches_alt_r r s u : matches s u -> matches (Alt r s) u
| matches_star_nil r : matches (Star r) ""
| matches_star_cons r u v :
    matches r u -> matches (Star r) v -> matches (Star r) (u +:+ v).

(** Every character of the string satisfies [p]. *)
Fixpoint every (p : ascii -> bool) (s : string) : bool :=
  match s with
  | EmptyString => true
  | String c s' => p c && every p s'
  end.

(** A non-empty run of characters that are neither white space nor
    [@]. *)
Definition plain (s : string) : bool :=
  match s with
  | EmptyString => false
  | String _ _ => every Auth.not_space_or_at s
  end.

(** [local@domain.tld] *)
Definition address (l d t : string) : string :=
  l +:+ "@" +:+ d +:+ "." +:+ t.

End Language.

Module Accounts.

Import Auth Credentials.

(** The calls a page makes on the credential store. *)
Inductive Op : Type :=
| Init
| Signup (name email password : string) (now login_now : Z)
| Login (email password : string) (now : Z)
| Logout.

Definition apply (op : Op) (ls : LocalStorage) : LocalStorage :=
  match op with
  | Init => init ls
  | Signup name email password now login_now =>
      snd (signup name email password now login_now ls)
  | Login email password now => snd (login email password now ls)
  | Logout => logout ls
  end.

Definition run (ops : list Op) (ls : LocalStorage) : LocalStorage :=
  fold_left (fun ls op => apply op ls) ops ls.

(** A browser that never opened the page. *)
Definition empty : LocalStorage :=
  {| nashCards_users := None; nashCards_session := None |}.

Definition session_at (now : Z) (u : User) : Session :=
  {| session_id := user_id u; session_name := user_name u;
     session_email := user_email u; loginTime := now |}.

(** The session is the one of the stored user [u]. *)
Definition session_of (u : User) (s : Session) : Prop :=
  exists now, s = session_at now u.

(** What [signup] demands of a record. *)
Definition acceptable (u : User) : Prop :=
  user_name u <> "" /\ isValidEmail (user_email u) = true
  /\ (6 <= String.length (user_password u))%nat.

Definition unique_emails (ls : LocalStorage) : Prop :=
  List.NoDup (map user_email (stored_users ls)).

Definition unique_ids (ls : LocalStorage) : Prop :=
  List.NoDup (map user_id (stored_users ls)).

Definition session_known (ls : LocalStorage) : Prop :=
  forall s, getSession ls = Some s ->
            exists u, In u (stored_users ls) /\ session_of u s.

Definition well_formed (ls : LocalStorage) : Prop :=
  unique_emails ls /\ Forall acceptable (stored_users ls) /\ session_known ls.

(** The stored records of [ls] are still there, in place and
    unaltered, in [ls']. *)
Definition keeps_records (ls ls' : LocalStorage) : Prop :=
  exists added, stored_users ls' = (stored_users ls ++ added)%list.

End Accounts.

Module Forms.

Import JsString Handlers.

(** The descriptor [handleSearch] builds from the card form. *)
Definition descriptor (f : CardForm) (condition : string) : UI.CardData :=
  {| UI.name := trim (cardName f); UI.set := trim (cardSet f);
     UI.number := trim (cardNumber f); UI.condition := condition;
     UI.photo := src (previewImage f) |}.

(** The card form is filled in: a name and a set that are more than
    white space, and a checked condition. *)
Definition complete (f : CardForm) (condition : string) : Prop :=
  trim (cardName f) <> "" /\ trim (cardSet f) <> ""
  /\ getSelectedCondition (conditionRadios f) = Some condition
  /\ condition <> "".

(** [w'] is [w] turned to the error screen with [message]: the stores
    are as they were, but for the screen recorded as current. *)
Definition refused (message : string) (w w' : UI.World) : Prop :=
  UI.localStorage w' = UI.localStorage w
  /\ UI.cardData (UI.sessionStorage w') = UI.cardData (UI.sessionStorage w)
  /\ UI.previousScreen (UI.sessionStorage w')
     = UI.previousScreen (UI.sessionStorage w)
  /\ UI.active (UI.dom w') = [UI.error]
  /\ UI.errorMessage (UI.dom w') = message.

(** What the confirmation screen shows for a descriptor. *)
Definition confirming (cardData : UI.CardData) : ConfirmView :=
  {| confirmCardName := UI.name cardData;
     confirmCardSet := UI.set cardData;
     confirmCardNumber :=
       if String.eqb (UI.number cardData) "" then "N/A" else UI.number cardData;
     confirmCondition := UI.condition cardData;
     confirmCardImage :=
       if String.eqb (UI.photo cardData) "" then UI.noImage
       else UI.photo cardData |}.

End Forms.

(** Sample pages, used to exercise the statements below. *)
Module Samples.

Import Handlers.

Definition radios : list Radio :=
  [ {| radio_value := "Near Mint"; radio_checked := false |};
    {| radio_value := "Lightly Played"; radio_checked := true |};
    {| radio_value := "Moderately Played"; radio_checked := false |} ].

Definition blank : AuthForm :=
  {| loginEmail := ""; loginPassword := ""; signupName := "";
     signupEmail := ""; signupPassword := ""; signupPassword2 := "";
     loginFormHidden := false; signupFormHidden := true |}.

(** The card form with a name typed with spaces around it. *)
Definition filled : CardForm :=
  {| cardName := " Pikachu "; cardSet := "Base Set"; cardNumber := "";
     conditionRadios := radios;
     previewImage :=
       {| src_attribute := None;
          baseURI := "https://nashcards.example/index.html" |};
     photoPreviewHidden := true; cardPhotoInput := "" |}.

(** The demo user in front of the filled card form. *)
Definition searching : Page :=
  {| world := App.ui Examples.ready_page; authForm := blank;
     cardForm := filled; confirmView := None |}.

(** A visitor in front of the auth screen, with the stores of a browser
    that opened the page before. *)
Definition visitor (form : AuthForm) : Page :=
  {| world :=
       {| UI.localStorage := Examples.seeded;
          UI.sessionStorage :=
            {| UI.cardData := None; UI.currentScreen := Some UI.auth;
               UI.previousScreen := None |};
          UI.dom :=
            {| UI.active := [UI.auth]; UI.errorMessage := "";
               UI.userMenuHidden := true; UI.searchDisabled := false;
               UI.userDisplayName := "Login"; UI.userMenuBtnShown := false;
               UI.resultsView := None |} |};
     authForm := form; cardForm := filled; confirmView := None |}.

End Samples.

(* ===================================================================== *)
(** ** The page as a whole *)
(* ===================================================================== *)

(** The listeners that [UI.init], [setupUploadArea] and
    [setupEventListeners] register, and the timers and promises of
    [performSearch], as the events of one page. *)
Module Site.

Import Handlers.

(** The page: the variables of [App], what [UI] and [Auth] see, how
    many times [App.init] has run, the forms, and the calls of
    [performSearch] that are suspended, oldest first. *)
Record Page : Type := {
  app : App.State;
  inits : nat;
  auth_form : AuthForm;
  card_form : CardForm;
  confirm_view : option ConfirmView;
  in_flight : list UI.CardData
}.

(** The page as the handlers of [UI] see it. *)
Definition view (s : Page) : Handlers.Page :=
  {| world := App.ui (app s); authForm := auth_form s;
     cardForm := card_form s; confirmView := confirm_view s |}.

Definition update (s : Page) (p : Handlers.Page) : Page :=
  {| app := App.set_ui (fun _ => world p) (app s);
     inits := inits s;
     auth_form := authForm p; card_form := cardForm p;
     confirm_view := confirmView p; in_flight := in_flight s |}.

Definition handler (f : Handlers.Page -> Handlers.Page) (s : Page) : Page :=
  update s (f (view s)).

Inductive Event : Type :=
| Edit (auth : AuthForm -> AuthForm) (card : CardForm -> CardForm)
    (** the user types into the inputs or checks a condition *)
| ClickLogin (now : Z)
| ClickSignup (now login_now : Z)
| ClickToggleForms
| ChooseFile (file : File)
    (** a file is chosen or dropped on the upload area *)
| FileRead (src : string)
    (** the reader started by [handleFileUpload] is done *)
| ClickClearPhoto
| ClickSearch
| ClickBack
| ClickConfirmSearch
| SearchSettles (net : API.Network API.CardsBody)
    (now_lookup now_store now_mock : Z)
    (** the delay of the oldest suspended search is over, and its
        lookup, made against [net], has settled *)
| RedirectTimer
    (** the timer armed by the log-in check of [performSearch] *)
| ClickNewSearch
| ClickHome
| ClickErrorRetry
| ClickErrorHome
| ClickUserMenu
| ClickLogout.

(** How the listener of an event was added: by the name of a function,
    as an arrow function, or not by [App.init] at all (the user's own
    input, the callback of a reader, a timer, a promise). *)
Inductive Binding : Type := ByName | ByArrow | Unbound.

Definition binding (e : Event) : Binding :=
  match e with
  | ClickLogin _ | ClickSignup _ _ | ClickClearPhoto | ClickSearch
  | ClickConfirmSearch | ClickUserMenu | ClickLogout => ByName
  | ClickToggleForms | ChooseFile _ | ClickBack | ClickNewSearch
  | ClickHome | ClickErrorRetry | ClickErrorHome => ByArrow
  | Edit _ _ | FileRead _ | SearchSettles _ _ _ _ | RedirectTimer => Unbound
  end.

(** What the listener of an event does when it runs once.  A click on
    the confirm button runs its two listeners in the order they were
    added, [handleConfirmSearch] and then [performSearch].
    [handleSearch] is written as it may throw, from
    [showConfirmation]; it stores the descriptor first, so that it
    never does. *)
Definition once (e : Event) (s : Page) : Page :=
  match e with
  | Edit auth card =>
      handler (fun p => set_cardForm card (set_authForm auth p)) s
  | ClickLogin now => handler (handleLogin now) s
  | ClickSignup now login_now => handler (handleSignup now login_now) s
  | ClickToggleForms => handler (set_authForm toggleForms) s
  | ChooseFile file => handler (fun p => fst (handleFileUpload file p)) s
  | FileRead src => handler (set_cardForm (showPhoto src)) s
  | ClickClearPhoto => handler (set_cardForm clearPhoto) s
  | ClickSearch =>
      match handleSearch (view s) with
      | Normal p => update s p
      | Throw _ => s
      end
  | ClickBack | ClickNewSearch | ClickErrorHome =>
      handler (set_world (UI.showScreen UI.cardInput)) s
  | ClickConfirmSearch =>
      let s := handler (set_world UI.handleConfirmSearch) s in
      let '(st, suspension) := App.performSearch_begin (app s) in
      {| app := st; inits := inits s;
         auth_form := auth_form s; card_form := card_form s;
         confirm_view := confirm_view s;
         in_flight :=
           match suspension with
           | App.AwaitingDelay cardData => (in_flight s ++ [cardData])%list
           | _ => in_flight s
           end |}
  | SearchSettles net now_lookup now_store now_mock =>
      match in_flight s with
      | [] => s
      | cardData :: rest =>
          {| app := App.performSearch_resume net now_lookup now_store now_mock
                      cardData (app s);
             inits := inits s;
             auth_form := auth_form s; card_form := card_form s;
             confirm_view := confirm_view s; in_flight := rest |}
      end
  | RedirectTimer =>
      {| app := App.redirect_timer (app s); inits := inits s;
         auth_form := auth_form s; card_form := card_form s;
         confirm_view := confirm_view s; in_flight := in_flight s |}
  | ClickHome => handler home s
  | ClickErrorRetry => handler (set_world UI.errorRetry) s
  | ClickUserMenu => handler (set_world toggleUserMenu) s
  | ClickLogout => handler handleLogout s
  end.

(** One event: every listener that [App.init] added for it runs, in
    turn.  A listener added by name is there once, if [init] ran at
    all; one added as an arrow function is there once for each run of
    [init]. *)
Definition step (e : Event) (s : Page) : Page :=
  match binding e with
  | ByName => if (inits s =? 0)%nat then s else once e s
  | ByArrow => Nat.iter (inits s) (once e) s
  | Unbound => once e s
  end.

Definition run (events : list Event) (s : Page) : Page :=
  fold_left (fun s e => step e s) events s.

(** The scripts as they are loaded: no card, no search under way, an
    empty cache, no listener yet, and the stores and the document as
    the browser hands them over. *)
Definition unstarted (w : UI.World) : Startup.Runtime :=
  {| Startup.page :=
       {| App.ui := w;
          App.api := {| API.cache := ∅; API.requests := [] |};
          App.currentCard := None; App.searchInProgress := false |};
     Startup.inits := 0 |}.

(** The page of a runtime. *)
Definition of_runtime (r : Startup.Runtime) (auth : AuthForm)
    (card : CardForm) : Page :=
  {| app := Startup.page r; inits := Startup.inits r;
     auth_form := auth; card_form := card; confirm_view := None;
     in_flight := [] |}.





End Site.

(** What the page asks of the remote service. *)
Module Requests.

Import JsString.




End Requests.

(** What one event may do to what [UI] and [Auth] see. *)
Module Steps.




End Steps.

(* ===================================================================== *)
(** ** Pricing *)
(* ===================================================================== *)

Section PricingFacts.

Import JsNumber API Pricing.

Lemma tier_multiplier_cases condition :
  tier_multiplier condition = 1.0%float
  \/ tier_multiplier condition = 0.75%float
  \/ tier_multiplier condition = 0.50%float.
Proof.
  unfold tier_multiplier.
  repeat (case String.eqb; [tauto |]). tauto.
Qed.

(** The look-up with its default yields the tier's multiplier, except
    for the names an object literal inherits. *)
Lemma multiplier_lookup condition :
  JsObject.inherited condition = false ->
  JsObject.or truthy (JsObject.get conditionMultipliers condition) 0.5%float
  = JsObject.Own (tier_multiplier condition).
Proof.
  intros Hown. unfold JsObject.get, tier_multiplier, conditionMultipliers.
  cbn [JsObject.own].
  repeat (destruct (String.eqb _ condition); [reflexivity |]).
  rewrite Hown. reflexivity.
Qed.

Lemma whole_dollars_checked :
  forallb whole_dollar_ok (seqZ 1 500) = true.
Proof. vm_compute. reflexivity. Qed.

Lemma whole_dollar_invariant d multiplier :
  1 <= d <= 500 ->
  In multiplier [1.0%float; 0.75%float; 0.50%float] ->
  match decimal (toFixed 2 (of_Z d * multiplier)%float),
        decimal (toFixed 2 (of_Z d)), rational multiplier with
  | Some adjusted, Some base, Some m => Qeq_bool adjusted (base * m)
  | _, _, _ => false
  end = true.
Proof.
  intros Hd Hm.
  pose proof whole_dollars_checked as Hall.
  rewrite forallb_forall in Hall.
  assert (Hin : In d (seqZ 1 500)).
  { apply list_elem_of_In, elem_of_seqZ. lia. }
  specialize (Hall d Hin). unfold whole_dollar_ok in Hall.
  rewrite forallb_forall in Hall. exact (Hall multiplier Hm).
Qed.

Lemma whole_dollar_price_invariant (c : Card) (condition : string) (d : Z) :
  JsObject.inherited condition = false ->
  1 <= d <= 500 -> base_price c = of_Z d ->
  price_invariant (enrichCardWithPricing c condition).
Proof.
  intros Hown Hd Hbase.
  unfold price_invariant, price_invariantb, enrichCardWithPricing.
  cbn [basePrice adjustedPrice selectedCondition].
  rewrite (multiplier_lookup _ Hown), Hbase. cbn [JsObject.toNumber].
  apply whole_dollar_invariant; [exact Hd |].
  destruct (tier_multiplier_cases condition) as [-> | [-> | ->]];
    simpl; tauto.
Qed.

(** C1 (as amended).  For every card and every condition that is not
    the name of a member inherited from [Object.prototype],
    [enrichCardWithPricing] returns a copy of the card extended with
    the condition, the multiplier of its tier (1.0 for Near Mint, 0.75
    for Lightly Played, 0.50 for Moderately Played and 0.50 for any
    other condition), the base price rendered with two decimals, and
    the product of base price and multiplier rendered with two
    decimals.  When the base price is a whole number of dollars from 1
    to 500 the rendered [adjustedPrice] is exactly the rendered
    [basePrice] times the multiplier. *)
Theorem enrichCardWithPricing_price (c : Card) (condition : string) :
  JsObject.inherited condition = false ->
  let r := enrichCardWithPricing c condition in
  card r = c /\
  selectedCondition r = condition /\
  conditionMultiplier r = JsObject.Own (tier_multiplier condition) /\
  basePrice r = toFixed 2 (base_price c) /\
  adjustedPrice r = toFixed 2 (base_price c * tier_multiplier condition)%float /\
  (forall d : Z, 1 <= d <= 500 -> base_price c = of_Z d -> price_invariant r).
Proof.
  intros Hown r.
  assert (Hm : conditionMultiplier r = JsObject.Own (tier_multiplier condition)).
  { apply multiplier_lookup, Hown. }
  assert (Ha : adjustedPrice r
               = toFixed 2 (base_price c * tier_multiplier condition)%float).
  { subst r. unfold enrichCardWithPricing. cbn [adjustedPrice].
    rewrite (multiplier_lookup _ Hown). reflexivity. }
  split; [reflexivity |]. split; [reflexivity |].
  split; [exact Hm |]. split; [reflexivity |]. split; [exact Ha |].
  intros d Hd Hbase. subst r.
  exact (whole_dollar_price_invariant c condition d Hown Hd Hbase).
Qed.

Lemma enrichCardWithPricing_price_witness :
  JsObject.inherited "Lightly Played" = false /\
  adjustedPrice
    (enrichCardWithPricing (App.createMockCardResult 0 Examples.charizard)
       "Lightly Played") = "124.50" /\
  price_invariant
    (enrichCardWithPricing (App.createMockCardResult 0 Examples.charizard)
       "Lightly Played").
Proof.
  pose proof (enrichCardWithPricing_price
                (App.createMockCardResult 0 Examples.charizard)
                "Lightly Played" eq_refl) as H.
  cbv zeta in H. destruct H as (_ & _ & _ & _ & Ha & Hinv).
  split; [reflexivity |]. split.
  - rewrite Ha. vm_compute. reflexivity.
  - apply (Hinv 166); [lia | vm_compute; reflexivity].
Defined.

(** C1 as stated fails on the sample card of the module itself: in
    Lightly Played condition its 45.50 becomes 34.125, returned as
    [34.13], which is not 45.50 × 0.75. *)
Lemma sample_card_price_is_rounded :
  basePrice (enrichCardWithPricing getSampleCard "Lightly Played") = "45.50"
  /\ adjustedPrice (enrichCardWithPricing getSampleCard "Lightly Played") = "34.13"
  /\ ~ price_invariant (enrichCardWithPricing getSampleCard "Lightly Played").
Proof.
  split; [vm_compute; reflexivity |].
  split; [vm_compute; reflexivity |].
  unfold price_invariant. vm_compute. discriminate.
Qed.

(** A condition named like an inherited member selects that member,
    not the default: the multiplier is no number and the price is
    [NaN]. *)
Lemma inherited_condition_is_not_defaulted :
  conditionMultiplier (enrichCardWithPricing getSampleCard "toString")
  = JsObject.Inherited "toString"
  /\ adjustedPrice (enrichCardWithPricing getSampleCard "toString") = "NaN".
Proof. split; vm_compute; reflexivity. Qed.

(** *** The price of formatted cards *)

Lemma generateMockPrice_of_name (s : string) :
  generateMockPrice (OfString s) = 469%float.
Proof. unfold generateMockPrice. cbn [name_of JsString.or_default]. vm_compute. reflexivity. Qed.

Lemma formatCard_avg (c : RemoteCard) :
  listed_avg (formatCard c) = Some 469%float.
Proof.
  change (Some (generateMockPrice (OfString (remote_name c))) = Some 469%float).
  rewrite generateMockPrice_of_name. reflexivity.
Qed.

(** C10.  Every card formatted by the search path and by the detail
    path carries the same base price, whatever its name: both pass the
    name, a string, to [generateMockPrice], whose look-up of [name] on
    it finds nothing, so the seed is that of ['pokemon'] and the price
    is 469. *)
Theorem formatted_price_is_constant :
  (forall s : string, generateMockPrice (OfString s) = 469%float) /\
  (forall (now : Z) (cards : list RemoteCard) (cacheKey : string)
          (st : State),
      exists st',
        formatCardResults now cards cacheKey st
        = (Normal {| success := true; data := Some (map formatCard cards);
                     error := None |}, st')
        /\ Forall (fun c => listed_avg c = Some 469%float
                            /\ base_price c = 469%float)
             (map formatCard cards)) /\
  (forall (net : Network CardBody) (cardId condition : string)
          (st st' : State) (e : EnrichedCard),
      getCardPricing net cardId condition st = (Normal (Priced e), st') ->
      listed_avg (card e) = Some 469%float /\ basePrice e = "469.00").
Proof.
  split; [exact generateMockPrice_of_name |]. split.
  - intros now cards cacheKey st. eexists. split; [reflexivity |].
    apply List.Forall_forall. intros c Hc.
    apply in_map_iff in Hc as (rc & <- & _).
    split; [apply formatCard_avg |].
    unfold base_price. rewrite formatCard_avg. reflexivity.
  - intros net cardId condition st st' e H.
    unfold getCardPricing, try_catch, bind, lift in H.
    destruct (fetchFromPokemonTCG net _ [] st) as [[result | msg] st1];
      [| discriminate].
    destruct (detail_card result) as [[[c | m] |] | m]; cbn in H;
      try discriminate.
    injection H as <- _.
    cbn [card basePrice enrichCardWithPricing]. split.
    + apply formatCard_avg.
    + unfold base_price. rewrite formatCard_avg. vm_compute. reflexivity.
Qed.


Lemma formatted_price_is_constant_witness :
  getCardPricing (Examples.detailing (Examples.remote_card "Pikachu"))
    "xy1-42" "Near Mint" Examples.fresh_start
  = (Normal (Priced (enrichCardWithPricing
                       (formatCard (Examples.remote_card "Pikachu"))
                       "Near Mint")),
     {| cache := ∅;
        requests := [{| endpoint := "/cards/xy1-42"; params := [] |}] |})
  /\ basePrice (enrichCardWithPricing
                  (formatCard (Examples.remote_card "Pikachu")) "Near Mint")
     = "469.00".
Proof.
  split; [reflexivity |].
  exact (proj2 (proj2 (proj2 formatted_price_is_constant)
                  (Examples.detailing (Examples.remote_card "Pikachu"))
                  "xy1-42" "Near Mint" Examples.fresh_start
                  {| cache := ∅;
                     requests := [{| endpoint := "/cards/xy1-42";
                                     params := [] |}] |}
                  (enrichCardWithPricing
                     (formatCard (Examples.remote_card "Pikachu")) "Near Mint")
                  eq_refl)).
Defined.

End PricingFacts.

(* ===================================================================== *)
(** ** The credential store *)
(* ===================================================================== *)

Section CredentialFacts.

Import Auth Credentials.

Lemma falsy_empty (s : string) : JsString.falsy s = true <-> s = "".
Proof. destruct s; simpl; split; congruence. Qed.

Lemma existsb_registered email ls :
  registered email ls ->
  existsb (fun u => String.eqb (user_email u) email) (stored_users ls) = true.
Proof.
  intros (u & Hin & Hu). apply existsb_exists. exists u.
  split; [exact Hin |]. apply String.eqb_eq, Hu.
Qed.

Lemma find_matched email ls u :
  matched email ls u ->
  List.find (fun v => String.eqb (user_email v) email) (stored_users ls) = Some u.
Proof.
  intros (before & after & -> & Hu & Hbefore).
  induction Hbefore as [| v before Hv _ IH]; simpl.
  - apply String.eqb_eq in Hu. rewrite Hu. reflexivity.
  - apply String.eqb_neq in Hv. rewrite Hv. exact IH.
Qed.

Lemma find_unregistered email ls :
  ~ registered email ls ->
  List.find (fun v => String.eqb (user_email v) email) (stored_users ls) = None.
Proof.
  intros Hno. destruct (List.find _ _) as [u |] eqn:Hfind; [| reflexivity].
  apply find_some in Hfind as [Hin Heq]. apply String.eqb_eq in Heq.
  exfalso. apply Hno. exists u. split; assumption.
Qed.

Lemma falsy_any (a b c : string) :
  JsString.falsy a || JsString.falsy b || JsString.falsy c = true
  <-> a = "" \/ b = "" \/ c = "".
Proof. rewrite !orb_true_iff, !falsy_empty. tauto. Qed.

Lemma validation_failure (message : string) (ls : LocalStorage) :
  In message validation_messages ->
  validation_error (fst (failure message, ls))
  /\ snd (failure message, ls) = ls.
Proof.
  intros Hin. split; [| reflexivity]. split; [reflexivity | exact Hin].
Qed.

(** What [signup] answers, guard by guard, in the order of the
    source. *)
Lemma signup_guards (name email password : string) (now login_now : Z)
    (ls : LocalStorage) :
  let out := signup name email password now login_now ls in
  (name = "" \/ email = "" \/ password = "" ->
     out = (failure "All fields are required", ls))
  /\ (name <> "" -> email <> "" -> password <> "" ->
      isValidEmail email = false ->
      out = (failure "Invalid email address", ls))
  /\ (name <> "" -> email <> "" -> password <> "" ->
      isValidEmail email = true -> (String.length password < 6)%nat ->
      out = (failure "Password must be at least 6 characters", ls))
  /\ (name <> "" -> email <> "" -> password <> "" ->
      isValidEmail email = true -> (6 <= String.length password)%nat ->
      registered email ls ->
      out = (failure "Email already registered", ls)).
Proof.
  intros out.
  assert (Hfull : name <> "" -> email <> "" -> password <> "" ->
                  JsString.falsy name || JsString.falsy email
                  || JsString.falsy password = false).
  { intros Hn He Hp.
    destruct (JsString.falsy name || JsString.falsy email
              || JsString.falsy password) eqn:E; [| reflexivity].
    apply falsy_any in E. destruct E as [E | [E | E]]; contradiction. }
  split; [| split; [| split]].
  - intros H. apply falsy_any in H. subst out. unfold signup.
    rewrite H. reflexivity.
  - intros Hn He Hp Hv. subst out. unfold signup.
    rewrite (Hfull Hn He Hp), Hv. reflexivity.
  - intros Hn He Hp Hv Hlen. subst out. unfold signup.
    rewrite (Hfull Hn He Hp), Hv. cbn [negb].
    destruct (Z.ltb_spec (Z.of_nat (String.length password)) 6);
      [reflexivity | lia].
  - intros Hn He Hp Hv Hlen Hreg. subst out. unfold signup.
    rewrite (Hfull Hn He Hp), Hv. cbn [negb].
    destruct (Z.ltb_spec (Z.of_nat (String.length password)) 6); [lia |].
    apply existsb_registered in Hreg. fold (stored_users ls).
    rewrite Hreg. reflexivity.
Qed.

(** C4 (as amended).  Whatever is stored, [signup] with a password of
    fewer than 6 characters fails with a validation error and leaves
    [localStorage] as it was: no Credential Record is added and no
    session is created.  [signup] with an email that is already present
    among the stored users also fails and leaves [localStorage] as it
    was; the failure is the duplicate-email error when the name is not
    empty, the email is well formed and the password has at least 6
    characters, and a validation error otherwise.  The guards answer in
    the order of the source: a missing field first, then the shape of
    the email, then the length of the password, and the duplicate only
    when all of these pass. *)
Theorem signup_rejections (name email password : string) (now login_now : Z)
    (ls : LocalStorage) :
  let out := signup name email password now login_now ls in
  ((String.length password < 6)%nat ->
     validation_error (fst out) /\ snd out = ls)
  /\ (registered email ls ->
        success (fst out) = false /\ snd out = ls
        /\ (validation_error (fst out) \/ duplicate_email_error (fst out))
        /\ (name <> "" -> isValidEmail email = true ->
              (6 <= String.length password)%nat ->
              duplicate_email_error (fst out))
        /\ (name = "" \/ isValidEmail email = false
              \/ (String.length password < 6)%nat ->
              validation_error (fst out)))
  /\ (name = "" \/ email = "" \/ password = "" ->
        out = (failure "All fields are required", ls))
  /\ (name <> "" -> email <> "" -> password <> "" ->
        isValidEmail email = false ->
        out = (failure "Invalid email address", ls))
  /\ (name <> "" -> email <> "" -> password <> "" ->
        isValidEmail email = true -> (String.length password < 6)%nat ->
        out = (failure "Password must be at least 6 characters", ls))
  /\ (name <> "" -> isValidEmail email = true ->
        (6 <= String.length password)%nat -> registered email ls ->
        out = (failure "Email already registered", ls)).
Proof.
  intros out.
  destruct (signup_guards name email password now login_now ls)
    as (Hempty & Hinvalid & Hshort & Hdup).
  subst out.
  set (out := signup name email password now login_now ls) in *.
  clearbody out.
  assert (Hvalidation :
            name = "" \/ isValidEmail email = false
            \/ (String.length password < 6)%nat ->
            validation_error (fst out) /\ snd out = ls).
  { intros Hbad.
    destruct (string_dec name "") as [Hn | Hn];
      [rewrite (Hempty (or_introl Hn)); apply validation_failure;
       left; reflexivity |].
    destruct (string_dec email "") as [He | He];
      [rewrite (Hempty (or_intror (or_introl He))); apply validation_failure;
       left; reflexivity |].
    destruct (string_dec password "") as [Hp | Hp];
      [rewrite (Hempty (or_intror (or_intror Hp))); apply validation_failure;
       left; reflexivity |].
    destruct (Bool.bool_dec (isValidEmail email) true) as [Hv | Hv].
    - destruct Hbad as [Hbad | [Hbad | Hbad]];
        [contradiction | congruence |].
      rewrite (Hshort Hn He Hp Hv Hbad). apply validation_failure.
      right; right; left; reflexivity.
    - apply not_true_is_false in Hv. rewrite (Hinvalid Hn He Hp Hv).
      apply validation_failure. right; left; reflexivity. }
  assert (Hduplicate :
            name <> "" -> isValidEmail email = true ->
            (6 <= String.length password)%nat -> registered email ls ->
            out = (failure "Email already registered", ls)).
  { intros Hn Hv Hlen Hreg. apply Hdup; try assumption.
    - intros ->. vm_compute in Hv. discriminate Hv.
    - intros ->. cbn [String.length] in Hlen. lia. }
  split; [intros Hlen; apply Hvalidation; right; right; exact Hlen |].
  split; [| split; [exact Hempty |]; split; [exact Hinvalid |];
            split; [exact Hshort | exact Hduplicate]].
  clear Hempty Hinvalid Hshort Hdup.
  intros Hreg.
  assert (Hok : name <> "" -> isValidEmail email = true ->
                (6 <= String.length password)%nat ->
                duplicate_email_error (fst out) /\ snd out = ls).
  { intros Hn Hv Hlen. rewrite (Hduplicate Hn Hv Hlen Hreg).
    unfold duplicate_email_error. cbn [fst snd failure success message].
    repeat split. }
  clear Hduplicate.
  assert (Hcases : (name = "" \/ isValidEmail email = false
                    \/ (String.length password < 6)%nat)
                   \/ (name <> "" /\ isValidEmail email = true
                       /\ (6 <= String.length password)%nat)).
  { clear. destruct (string_dec name "") as [Hn | Hn];
      [left; left; exact Hn |].
    destruct (Bool.bool_dec (isValidEmail email) true) as [Hv | Hv];
      [| apply not_true_is_false in Hv; left; right; left; exact Hv].
    destruct (Nat.lt_ge_cases (String.length password) 6) as [Hlen | Hlen];
      [left; right; right; exact Hlen | right; repeat split; assumption]. }
  split; [| split; [| split; [| split]]].
  - destruct Hcases as [Hbad | (Hn & Hv & Hlen)].
    + exact (proj1 (proj1 (Hvalidation Hbad))).
    + exact (proj1 (proj1 (Hok Hn Hv Hlen))).
  - destruct Hcases as [Hbad | (Hn & Hv & Hlen)].
    + exact (proj2 (Hvalidation Hbad)).
    + exact (proj2 (Hok Hn Hv Hlen)).
  - destruct Hcases as [Hbad | (Hn & Hv & Hlen)].
    + left. exact (proj1 (Hvalidation Hbad)).
    + right. exact (proj1 (Hok Hn Hv Hlen)).
  - intros Hn Hv Hlen. exact (proj1 (Hok Hn Hv Hlen)).
  - intros Hbad. exact (proj1 (Hvalidation Hbad)).
Qed.

Lemma signup_rejections_witness :
  (String.length "abc" < 6)%nat
  /\ registered "demo@example.com" Examples.seeded
  /\ validation_error
       (fst (signup "Ann" "ann@x.com" "abc" 0 0 Examples.seeded))
  /\ duplicate_email_error
       (fst (signup "Ann" "demo@example.com" "abc123" 0 0 Examples.seeded))
  /\ snd (signup "Ann" "demo@example.com" "abc123" 0 0 Examples.seeded)
     = Examples.seeded
  /\ signup "" "demo@example.com" "abc123" 0 0 Examples.seeded
     = (failure "All fields are required", Examples.seeded).
Proof.
  assert (Hshort : (String.length "abc" < 6)%nat) by (simpl; lia).
  assert (Hreg : registered "demo@example.com" Examples.seeded).
  { eexists. split; [left; reflexivity | reflexivity]. }
  split; [exact Hshort |]. split; [exact Hreg |].
  split; [| split; [| split]].
  - exact (proj1 (proj1 (signup_rejections "Ann" "ann@x.com" "abc" 0 0
                           Examples.seeded) Hshort)).
  - destruct (proj1 (proj2 (signup_rejections "Ann" "demo@example.com"
                              "abc123" 0 0 Examples.seeded)) Hreg)
      as (_ & _ & _ & Hdup & _).
    apply Hdup; [discriminate | reflexivity | simpl; lia].
  - exact (proj1 (proj2 (proj1 (proj2 (signup_rejections "Ann"
                   "demo@example.com" "abc123" 0 0 Examples.seeded)) Hreg))).
  - apply (proj1 (proj2 (proj2 (signup_rejections "" "demo@example.com"
                                  "abc123" 0 0 Examples.seeded)))).
    left. reflexivity.
Defined.

(** C4 as stated fails where its two halves meet: a short password
    with a registered email draws the validation error, not the
    duplicate-email one. *)
Lemma duplicate_not_always_reported :
  ~ duplicate_always_reported "Ann" "demo@example.com" "abc" 0 0 Examples.seeded.
Proof.
  intros H.
  assert (Hreg : registered "demo@example.com" Examples.seeded).
  { eexists. split; [left; reflexivity | reflexivity]. }
  destruct (H Hreg) as [[_ Hmsg] _]. vm_compute in Hmsg. discriminate.
Qed.

(** C5.  Whatever is stored: [login] fails when the email or the
    password is empty; otherwise it fails with the not-found result when
    no stored user has the email; otherwise with the invalid-password
    result when the password of the matched user (the first with that
    email) differs; and otherwise it succeeds, leaves the stored users
    alone and makes the matched user's session the one session record,
    whatever session was there before. *)
Theorem login_outcomes (email password : string) (now : Z) (ls : LocalStorage) :
  let out := login email password now ls in
  (email = "" \/ password = "" ->
     out = (failure "Email and password are required", ls))
  /\ (email <> "" -> password <> "" -> ~ registered email ls ->
        out = (failure "User not found", ls))
  /\ (forall u, email <> "" -> password <> "" -> matched email ls u ->
        user_password u <> password ->
        out = (failure "Invalid password", ls))
  /\ (forall u, email <> "" -> password <> "" -> matched email ls u ->
        user_password u = password ->
        let session := {| session_id := user_id u;
                          session_name := user_name u;
                          session_email := user_email u;
                          loginTime := now |} in
        fst out = {| success := true; message := "Login successful";
                     user := Some session |}
        /\ getSession (snd out) = Some session
        /\ isLoggedIn (snd out) = true
        /\ getStoredUsers (snd out) = getStoredUsers ls).
Proof.
  assert (Hnonempty : email <> "" -> password <> "" ->
            JsString.falsy email || JsString.falsy password = false).
  { intros He Hp. apply orb_false_intro.
    - destruct (JsString.falsy email) eqn:H; [| reflexivity].
      apply falsy_empty in H. contradiction.
    - destruct (JsString.falsy password) eqn:H; [| reflexivity].
      apply falsy_empty in H. contradiction. }
  unfold login. fold (stored_users ls). repeat apply conj.
  - intros [-> | ->]; [reflexivity |].
    rewrite orb_true_r. reflexivity.
  - intros He Hp Hno. rewrite (Hnonempty He Hp).
    rewrite (find_unregistered _ _ Hno). reflexivity.
  - intros u He Hp Hu Hpw. rewrite (Hnonempty He Hp).
    rewrite (find_matched _ _ _ Hu).
    apply String.eqb_neq in Hpw. rewrite Hpw. reflexivity.
  - intros u He Hp Hu Hpw. rewrite (Hnonempty He Hp).
    rewrite (find_matched _ _ _ Hu).
    apply String.eqb_eq in Hpw. rewrite Hpw. cbn.
    repeat split.
Qed.

Lemma login_outcomes_witness :
  matched "demo@example.com" Examples.seeded Examples.demo_user
  /\ isLoggedIn
       (snd (login "demo@example.com" "password123" 7 Examples.stale_session))
     = true
  /\ getSession
       (snd (login "demo@example.com" "password123" 7 Examples.stale_session))
     = Some {| session_id := "1"; session_name := "Demo User";
               session_email := "demo@example.com"; loginTime := 7 |}
  /\ login "demo@example.com" "wrong-password" 7 Examples.stale_session
     = (failure "Invalid password", Examples.stale_session).
Proof.
  assert (Hm : matched "demo@example.com" Examples.stale_session
                 Examples.demo_user).
  { exists [], []. repeat split. constructor. }
  destruct (login_outcomes "demo@example.com" "password123" 7
              Examples.stale_session) as (_ & _ & _ & Hok).
  destruct (Hok Examples.demo_user) as (_ & Hs & Hin & _);
    [discriminate | discriminate | exact Hm | reflexivity |].
  destruct (login_outcomes "demo@example.com" "wrong-password" 7
              Examples.stale_session) as (_ & _ & Hbad & _).
  split; [exact Hm |]. split; [exact Hin |]. split; [exact Hs |].
  apply (Hbad Examples.demo_user);
    [discriminate | discriminate | exact Hm | discriminate].
Defined.

Lemma find_last_added (email : string) (users : list User) (u : User) :
  Forall (fun v => user_email v <> email) users ->
  user_email u = email ->
  List.find (fun v => String.eqb (user_email v) email) (users ++ [u])%list
  = Some u.
Proof.
  intros Hnone Hu. induction Hnone as [| v users Hv _ IH]; simpl.
  - apply String.eqb_eq in Hu. rewrite Hu. reflexivity.
  - apply String.eqb_neq in Hv. rewrite Hv. exact IH.
Qed.

(** [signup] with a name, a well-formed email that is not yet
    registered and a password of 6 characters or more succeeds: it
    appends one Credential Record, whose id is the clock reading, and
    logs the new user in. *)
Theorem signup_success (name email password : string) (now login_now : Z)
    (ls : LocalStorage) :
  name <> "" -> isValidEmail email = true ->
  (6 <= String.length password)%nat -> ~ registered email ls ->
  let out := signup name email password now login_now ls in
  let newUser := {| user_id := pretty now; user_name := name;
                    user_email := email; user_password := password |} in
  fst out = {| success := true; message := "Account created successfully";
               user := None |}
  /\ getStoredUsers (snd out) = Some (stored_users ls ++ [newUser])%list
  /\ getSession (snd out)
     = Some {| session_id := pretty now; session_name := name;
               session_email := email; loginTime := login_now |}.
Proof.
  intros Hname Hvalid Hlen Hnew. cbv zeta.
  assert (He : JsString.falsy email = false).
  { destruct email; [discriminate Hvalid | reflexivity]. }
  assert (Hp : JsString.falsy password = false).
  { destruct password; [simpl in Hlen; lia | reflexivity]. }
  assert (Hn : JsString.falsy name = false).
  { destruct name; [contradiction | reflexivity]. }
  assert (Hnone : Forall (fun v => user_email v <> email) (stored_users ls)).
  { apply List.Forall_forall. intros v Hin Heq. apply Hnew.
    exists v. split; assumption. }
  assert (Hex : existsb (fun u => String.eqb (user_email u) email)
                  (stored_users ls) = false).
  { apply not_true_is_false. intros H. apply existsb_exists in H as (v & Hin & Hv).
    apply String.eqb_eq in Hv. apply Hnew. exists v. split; assumption. }
  unfold signup. rewrite Hn, He, Hp, Hvalid. cbn [orb negb].
  destruct (Z.ltb_spec (Z.of_nat (String.length password)) 6); [lia |].
  fold (stored_users ls). rewrite Hex.
  set (newUser := {| user_id := pretty now; user_name := name;
                     user_email := email; user_password := password |}).
  set (ls' := setStoredUsers (stored_users ls ++ [newUser])%list ls).
  assert (Hm : matched email ls' newUser).
  { exists (stored_users ls), []. repeat split. exact Hnone. }
  unfold login. rewrite He, Hp. cbn [orb].
  fold (stored_users ls'). rewrite (find_matched _ _ _ Hm).
  cbn [user_password newUser]. rewrite String.eqb_refl. repeat split.
Qed.

Lemma signup_success_witness :
  let out := signup "Ann" "ann@x.com" "abc123" 1700000000000 1700000000001
               Examples.seeded in
  success (fst out) = true
  /\ Auth.session_name <$> getSession (snd out) = Some "Ann".
Proof.
  cbv zeta.
  assert (Hnew : ~ registered "ann@x.com" Examples.seeded).
  { intros (u & [<- | []] & Hu). discriminate Hu. }
  destruct (signup_success "Ann" "ann@x.com" "abc123" 1700000000000
              1700000000001 Examples.seeded ltac:(discriminate) eq_refl
              ltac:(simpl; lia) Hnew) as (Hres & _ & Hsession).
  split.
  - rewrite Hres. reflexivity.
  - rewrite Hsession. reflexivity.
Defined.

(** [logout] removes the session whatever it was, and doing it twice
    is doing it once. *)
Theorem logout_clears_session (ls : LocalStorage) :
  isLoggedIn (logout ls) = false
  /\ getStoredUsers (logout ls) = getStoredUsers ls
  /\ logout (logout ls) = logout ls.
Proof. repeat split. Qed.

End CredentialFacts.

(* ===================================================================== *)
(** ** Screens and the session check *)
(* ===================================================================== *)

Section ScreenFacts.

Import UI Screens.

Lemma showScreen_eq screenName w :
  showScreen screenName w =
  if must_log_in screenName w
  then showScreen auth (showError "Please log in first to continue" w)
  else display screenName w.
Proof.
  rewrite showScreen_equation_1.
  destruct (Logic.inspect (must_log_in screenName w)) as [b Hb].
  destruct b; cbn; rewrite Hb; reflexivity.
Qed.

Lemma showScreen_open screenName w :
  is_protected screenName = false ->
  showScreen screenName w = display screenName w.
Proof.
  intros H. rewrite showScreen_eq. unfold must_log_in. rewrite H. reflexivity.
Qed.

Lemma showScreen_granted screenName w :
  Auth.isLoggedIn (localStorage w) = true ->
  showScreen screenName w = display screenName w.
Proof.
  intros H. rewrite showScreen_eq. unfold must_log_in. rewrite H.
  rewrite andb_false_r. reflexivity.
Qed.

Lemma showScreen_denied screenName w :
  is_protected screenName = true ->
  Auth.isLoggedIn (localStorage w) = false ->
  showScreen screenName w
  = display auth
      (display error (set_errorMessage "Please log in first to continue" w)).
Proof.
  intros Hp Hs. rewrite showScreen_eq. unfold must_log_in.
  rewrite Hp, Hs. cbn [andb negb]. unfold showError.
  rewrite !showScreen_open by reflexivity. reflexivity.
Qed.






End ScreenFacts.

(* ===================================================================== *)
(** ** Searching the catalogue *)
(* ===================================================================== *)

Section LookupFacts.

Import JsString API Lookup.

Lemma startsWith_prefix (p s : string) :
  startsWith p s = true <-> exists after, s = p +:+ after.
Proof.
  revert s. induction p as [| a p IH]; intros s; simpl.
  - split; [intros _; exists s; reflexivity | reflexivity].
  - destruct s as [| b s].
    + split; [discriminate | intros [after H]; discriminate].
    + rewrite andb_true_iff, IH, Ascii.eqb_eq. split.
      * intros [-> [after ->]]. exists after. reflexivity.
      * intros [after H]. injection H as -> ->. split; [reflexivity |].
        exists after. reflexivity.
Qed.

(** [includes] decides the substring relation. *)
Lemma includes_substring (s sub : string) :
  includes s sub = true <-> substring sub s.
Proof.
  unfold substring. induction s as [| c s IH].
  - simpl. rewrite orb_false_r, startsWith_prefix. split.
    + intros [after ->]. exists "", after. reflexivity.
    + intros (before & after & H). destruct before; simpl in H.
      * exists after. exact H.
      * discriminate.
  - cbn [includes]. rewrite orb_true_iff, startsWith_prefix, IH. split.
    + intros [[after ->] | (before & after & ->)].
      * exists "", after. reflexivity.
      * exists (String c before), after. reflexivity.
    + intros (before & after & H). destruct before as [| b before].
      * left. exists after. exact H.
      * right. simpl in H. injection H as -> ->.
        exists before, after. reflexivity.
Qed.

(** What one search does, in the vocabulary above: a fresh entry is
    returned as it is; otherwise one request is sent, and either its
    cards are filtered, formatted, cached and returned, or the search
    reports that nothing was found. *)
Lemma searchCards_eq (net : Network CardsBody) (now_lookup now_store : Z)
    (name set number : string) (st : State) :
  searchCards net now_lookup now_store name set number st =
  match fresh now_lookup st (cacheKey name set number) with
  | Some entry => (Normal (found (entry_data entry)), st)
  | None =>
      let sent := (requests st ++ [search_request name set])%list in
      match reply net (search_request name set) with
      | Answered (Some (c :: cs)) =>
          let formatted := map formatCard (kept name (c :: cs)) in
          (Normal (found formatted),
           {| cache := <[cacheKey name set number :=
                          {| entry_data := formatted;
                             timestamp := now_store |}]> (cache st);
              requests := sent |})
      | Garbled message =>
          (Normal (unreadable message),
           {| cache := cache st; requests := sent |})
      | _ => (Normal not_found, {| cache := cache st; requests := sent |})
      end
  end.
Proof.
  unfold searchCards, fresh, reply, search_request.
  fold (cacheKey name set number).
  change (if JsString.truthy set && JsString.truthy (trim set)
          then ("name:" +:+ dquote +:+ trim name +:+ dquote)
               +:+ " series.name:" +:+ dquote +:+ trim set +:+ dquote
          else "name:" +:+ dquote +:+ trim name +:+ dquote)
    with (search_query name set).
  set (q := search_query name set).
  unfold try_catch, bind, get_cache, fetchFromPokemonTCG, try_catch, bind,
    fetch, lift, throw, ret, formatCardResults, bind, cache_set, ret,
    found_cards, kept, name_matches.
  cbv beta iota zeta.
  destruct (cache st !! cacheKey name set number) as [entry |];
    [destruct (now_lookup - timestamp entry <? CACHE_DURATION);
       [reflexivity |] |].
  all: destruct (net _) as [response | message]; [| reflexivity].
  all: destruct (ok response); cbn [negb]; cbv beta iota zeta; [| reflexivity].
  all: destruct (json response) as [body | message]; [| reflexivity].
  all: cbn [fetched_success fetched_data].
  all: destruct body as [m | [| m | [| item items]]]; try reflexivity.
  all: unfold read, filter_input; cbn [named_cards].
  all: destruct item as [c | m]; cbn [named]; [| reflexivity].
  all: destruct (named_cards items) as [cs | m]; [| reflexivity].
  all: destruct (List.filter _ (c :: cs)) as [| f fs]; reflexivity.
Qed.

(** C7 (as amended).  [searchCards] never throws: it always returns a
    result.  The result has [success: false] exactly when no fresh
    cache entry answers the search and the remote call that is then
    made errors, yields a missing or empty data set, or yields a body
    the search cannot read ([null], a [data] that is no array, an
    element without a name).  The failure carries no cards, caches
    nothing and has cost one request; its [error] is 'No cards found'
    in the first two cases and the message of the caught TypeError in
    the last. *)
Theorem searchCards_reports_failure (net : Network CardsBody)
    (now_lookup now_store : Z) (name set number : string) (st : State) :
  exists res st',
    searchCards net now_lookup now_store name set number st = (Normal res, st')
    /\ (success res = false <->
        fresh now_lookup st (cacheKey name set number) = None
        /\ nothing_found (reply net (search_request name set)))
    /\ (success res = false ->
        data res = None
        /\ error res = Some (reported (reply net (search_request name set)))
        /\ cache st' = cache st
        /\ requests st' = (requests st ++ [search_request name set])%list)
    /\ (success res = true ->
        error res = None
        /\ ((exists c cs, data res = Some (c :: cs))
            \/ (exists entry,
                  fresh now_lookup st (cacheKey name set number) = Some entry
                  /\ data res = Some (entry_data entry)))).
Proof.
  rewrite searchCards_eq.
  destruct (fresh now_lookup st (cacheKey name set number)) as [entry |].
  - eexists _, _. split; [reflexivity |]. cbn. split; [| split].
    + split; [discriminate | intros [H _]; discriminate].
    + discriminate.
    + intros _. split; [reflexivity |]. right. exists entry.
      split; reflexivity.
  - cbv zeta.
    destruct (reply net (search_request name set)) as [m | [[| c cs] |] | m];
      eexists _, _; (split; [reflexivity |]); cbn;
      (split; [intuition congruence |]);
      (split; [intros H; first [discriminate H | repeat split] |]);
      intros H; try discriminate H.
    split; [reflexivity |]. left.
    destruct (kept name (c :: cs)) as [| k ks] eqn:Hk.
    + unfold kept in Hk. destruct (List.filter _ (c :: cs)); discriminate Hk.
    + cbn [map]. eauto.
Qed.

(** C7 as stated fails on a reply that is neither an error nor empty:
    a 200 reply whose one card has no name makes the filter throw, and
    the search reports the failure with the message of the TypeError. *)
Lemma nameless_card_reports_failure :
  reply Examples.nameless (search_request "Pikachu" "")
  = Garbled "Cannot read properties of undefined (reading 'toLowerCase')"
  /\ fst (searchCards Examples.nameless 0 0 "Pikachu" "" "" Examples.fresh_start)
     = Normal (unreadable
                 "Cannot read properties of undefined (reading 'toLowerCase')")
  /\ ~ failure_as_stated Examples.nameless 0 0 "Pikachu" "" ""
        Examples.fresh_start.
Proof.
  split; [reflexivity |]. split; [reflexivity |].
  intros H. specialize (H eq_refl _ eq_refl).
  apply (proj1 H). reflexivity.
Qed.

Lemma named_cards_named (cards : list RemoteCard) :
  named_cards (map Named cards) = Normal cards.
Proof.
  induction cards as [| c cards IH]; [reflexivity |].
  cbn [map named_cards named]. rewrite IH. reflexivity.
Qed.

Lemma named_cards_nameless (before : list RemoteCard) (message : string)
    (after : list RemoteItem) :
  named_cards (map Named before ++ Nameless message :: after)%list
  = Throw message.
Proof.
  induction before as [| c before IH]; [reflexivity |].
  cbn [map app named_cards named]. rewrite IH. reflexivity.
Qed.

(** C6 (as amended).  When a search reaches the remote service and it
    answers with a non-empty list of cards that all have a name, the
    search keeps exactly the cards whose lower-cased name contains the
    lower-cased query name with the white space around it trimmed off,
    and if no card passes it keeps them all; the kept cards are
    returned formatted, under the names they came with.  A list with a
    card that has no name reads as such whatever comes before and
    after that card: the filter throws on it, and the search reports
    failure with the message of the TypeError, caching nothing. *)
Theorem searchCards_filter (net : Network CardsBody) (now_lookup now_store : Z)
    (name set number : string) (st : State) :
  fresh now_lookup st (cacheKey name set number) = None ->
  (forall cards,
     reply net (search_request name set) = Answered (Some cards) ->
     cards <> [] ->
     fst (searchCards net now_lookup now_store name set number st)
     = Normal (found (map formatCard (kept name cards)))
     /\ (forall c,
           In c (List.filter (name_matches name) cards) <->
           In c cards
           /\ substring (trim (toLowerCase name)) (toLowerCase (remote_name c)))
     /\ (List.filter (name_matches name) cards = [] -> kept name cards = cards)
     /\ (List.filter (name_matches name) cards <> [] ->
         kept name cards = List.filter (name_matches name) cards)
     /\ map card_name (map formatCard (kept name cards))
        = map remote_name (kept name cards))
  /\ (forall message,
        reply net (search_request name set) = Garbled message ->
        fst (searchCards net now_lookup now_store name set number st)
        = Normal (unreadable message)
        /\ cache (snd (searchCards net now_lookup now_store name set number st))
           = cache st)
  /\ (forall cards, read (Body (Listed (map Named cards))) = Answered (Some cards))
  /\ (forall before message after,
        read (Body (Listed (map Named before ++ Nameless message :: after)%list))
        = Garbled message).
Proof.
  intros Hmiss. split; [| split; [| split]].
  - intros cards Hreply Hcards. rewrite searchCards_eq, Hmiss, Hreply.
    destruct cards as [| c cs]; [contradiction |]. cbv zeta.
    split; [reflexivity |]. split.
    { intros x. rewrite filter_In. unfold name_matches.
      rewrite includes_substring. reflexivity. }
    unfold kept. split; [intros ->; reflexivity |]. split.
    + destruct (List.filter _ _); [contradiction | reflexivity].
    + rewrite map_map. reflexivity.
  - intros message Hreply. rewrite searchCards_eq, Hmiss, Hreply.
    split; reflexivity.
  - intros cards. unfold read. rewrite named_cards_named. reflexivity.
  - intros before message after. unfold read.
    rewrite named_cards_nameless. reflexivity.
Qed.

Lemma searchCards_filter_witness :
  fst (searchCards
         (Examples.answering [Examples.remote_card "Dark Charizard";
                              Examples.remote_card "Pikachu"])
         0 0 " chariZARD " "" "" Examples.fresh_start)
  = Normal (found [formatCard (Examples.remote_card "Dark Charizard")]).
Proof.
  refine (proj1 (proj1 (searchCards_filter _ 0 0 " chariZARD " "" ""
                          Examples.fresh_start _)
                   [Examples.remote_card "Dark Charizard";
                    Examples.remote_card "Pikachu"] _ _));
    [reflexivity | reflexivity | discriminate].
Defined.

(** C6 as stated fails for a query name with white space around it: for
    [" Pikachu"] the code keeps the card named Pikachu, while no card
    name contains the query name as it stands, which by the claim
    would hand back the whole list. *)
Lemma untrimmed_name_is_trimmed :
  ~ filter_as_stated
      (Examples.answering [Examples.remote_card "Pikachu";
                           Examples.remote_card "Raichu"])
      0 0 " Pikachu" "" "" Examples.fresh_start.
Proof.
  intros H.
  specialize (H [Examples.remote_card "Pikachu"; Examples.remote_card "Raichu"]
                eq_refl eq_refl ltac:(discriminate)).
  vm_compute in H. discriminate.
Qed.

(** A search that succeeded, and the same search again. *)
Lemma searchCards_again (net1 net2 : Network CardsBody) (t1 t1' t2 t2' : Z)
    (name set number : string) (st st1 : State) (res : SearchResult) :
  searchCards net1 t1 t1' name set number st = (Normal res, st1) ->
  success res = true ->
  exists entry,
    cache st1 !! cacheKey name set number = Some entry
    /\ res = found (entry_data entry)
    /\ (fresh t1 st (cacheKey name set number) = None -> timestamp entry = t1')
    /\ (t2 - timestamp entry < CACHE_DURATION ->
        searchCards net2 t2 t2' name set number st1 = (Normal res, st1))
    /\ (CACHE_DURATION <= t2 - timestamp entry ->
        requests (snd (searchCards net2 t2 t2' name set number st1))
        = (requests st1 ++ [search_request name set])%list
        /\ fst (searchCards net2 t2 t2' name set number st1)
           = fst (searchCards net2 t2 t2' name set number
                    {| cache := delete (cacheKey name set number) (cache st1);
                       requests := requests st1 |})).
Proof.
  intros Hfirst Hok. rewrite searchCards_eq in Hfirst.
  assert (Hsecond : forall entry,
            cache st1 !! cacheKey name set number = Some entry ->
            (t2 - timestamp entry < CACHE_DURATION ->
             searchCards net2 t2 t2' name set number st1
             = (Normal (found (entry_data entry)), st1))
            /\ (CACHE_DURATION <= t2 - timestamp entry ->
                requests (snd (searchCards net2 t2 t2' name set number st1))
                = (requests st1 ++ [search_request name set])%list
                /\ fst (searchCards net2 t2 t2' name set number st1)
                   = fst (searchCards net2 t2 t2' name set number
                            {| cache := delete (cacheKey name set number)
                                          (cache st1);
                               requests := requests st1 |}))).
  { intros entry Hentry. split.
    - intros Hin. rewrite searchCards_eq. unfold fresh. rewrite Hentry.
      destruct (Z.ltb_spec (t2 - timestamp entry) CACHE_DURATION);
        [reflexivity | lia].
    - intros Hout. rewrite !searchCards_eq. unfold fresh.
      cbn [cache requests]. rewrite Hentry, lookup_delete_eq.
      destruct (Z.ltb_spec (t2 - timestamp entry) CACHE_DURATION); [lia |].
      cbv zeta.
      destruct (reply net2 (search_request name set)) as [m | [[| c cs] |] | m];
        split; reflexivity. }
  destruct (fresh t1 st (cacheKey name set number)) as [hit |] eqn:Hfresh.
  - injection Hfirst as <- <-. exists hit.
    assert (Hentry : cache st !! cacheKey name set number = Some hit).
    { unfold fresh in Hfresh.
      destruct (cache st !! cacheKey name set number) as [e |];
        [| discriminate].
      destruct (t1 - timestamp e <? CACHE_DURATION); congruence. }
    split; [exact Hentry |]. split; [reflexivity |].
    split; [discriminate |]. apply Hsecond, Hentry.
  - cbv zeta in Hfirst.
    destruct (reply net1 (search_request name set)) as [m | [[| c cs] |] | m];
      injection Hfirst as <- <-; try discriminate Hok.
    eexists. cbn [cache].
    split; [apply lookup_insert_eq |]. split; [reflexivity |].
    split; [reflexivity |]. apply Hsecond. cbn [cache].
    apply lookup_insert_eq.
Qed.

(** C2 (as amended).  When a search returned [success: true], its cards
    are cached under the key of its arguments, stamped with the time
    they were stored if they were fetched by this search.  A second
    search with the same arguments made less than [CACHE_DURATION]
    after that stamp returns the same result, sends no request and
    changes nothing.  One made [CACHE_DURATION] or more after the stamp
    sends exactly one request, and returns what it would return with the
    entry gone.  A search that found nothing caches nothing: it leaves
    the cache as it was. *)
Theorem searchCards_twice (net1 net2 : Network CardsBody) (t1 t1' t2 t2' : Z)
    (name set number : string) (st st1 : State) (res : SearchResult) :
  searchCards net1 t1 t1' name set number st = (Normal res, st1) ->
  (success res = true ->
   exists entry,
     cache st1 !! cacheKey name set number = Some entry
     /\ res = found (entry_data entry)
     /\ (fresh t1 st (cacheKey name set number) = None -> timestamp entry = t1')
     /\ (t2 - timestamp entry < CACHE_DURATION ->
         searchCards net2 t2 t2' name set number st1 = (Normal res, st1))
     /\ (CACHE_DURATION <= t2 - timestamp entry ->
         requests (snd (searchCards net2 t2 t2' name set number st1))
         = (requests st1 ++ [search_request name set])%list
         /\ fst (searchCards net2 t2 t2' name set number st1)
            = fst (searchCards net2 t2 t2' name set number
                     {| cache := delete (cacheKey name set number) (cache st1);
                        requests := requests st1 |})))
  /\ (success res = false -> cache st1 = cache st).
Proof.
  intros Hfirst. split.
  - intros Hok.
    exact (searchCards_again net1 net2 t1 t1' t2 t2' name set number st st1
             res Hfirst Hok).
  - intros Hfailed. rewrite searchCards_eq in Hfirst.
    destruct (fresh t1 st (cacheKey name set number)) as [hit |].
    + injection Hfirst as <- <-. discriminate Hfailed.
    + cbv zeta in Hfirst.
      destruct (reply net1 (search_request name set)) as [m | [[| c cs] |] | m];
        injection Hfirst as <- <-; try reflexivity.
      discriminate Hfailed.
Qed.

Lemma searchCards_twice_witness :
  let first :=
    searchCards (Examples.answering [Examples.remote_card "Pikachu"])
      0 1000 "Pikachu" "" "" Examples.fresh_start in
  searchCards Examples.unreachable 3600999 3600999 "Pikachu" "" "" (snd first)
  = first
  /\ requests
       (snd (searchCards Examples.unreachable 3601000 3601000 "Pikachu" "" ""
               (snd first)))
     = (requests (snd first) ++ [search_request "Pikachu" ""])%list.
Proof.
  intros first.
  destruct (proj1 (searchCards_twice
              (Examples.answering [Examples.remote_card "Pikachu"])
              Examples.unreachable 0 1000 3600999 3600999 "Pikachu" "" ""
              Examples.fresh_start (snd first)
              (found [formatCard (Examples.remote_card "Pikachu")])
              eq_refl) eq_refl)
    as (entry & Hentry & _ & Hstamp & Hinside & _).
  destruct (proj1 (searchCards_twice
              (Examples.answering [Examples.remote_card "Pikachu"])
              Examples.unreachable 0 1000 3601000 3601000 "Pikachu" "" ""
              Examples.fresh_start (snd first)
              (found [formatCard (Examples.remote_card "Pikachu")])
              eq_refl) eq_refl)
    as (entry' & Hentry' & _ & Hstamp' & _ & Houtside).
  split.
  - apply Hinside. rewrite (Hstamp eq_refl). reflexivity.
  - apply Houtside. rewrite (Hstamp' eq_refl). discriminate.
Defined.

(** C2 as stated fails when the first search finds nothing: nothing is
    cached, and the same search a millisecond later sends a second
    request. *)
Lemma failed_search_is_not_cached :
  ~ cache_as_stated Examples.unreachable Examples.unreachable 0 0 1 1
      "Charizard" "Base Set" "" Examples.fresh_start.
Proof.
  intros [Hinside _].
  destruct Hinside as [_ Hsame]; [unfold CACHE_DURATION; lia |].
  vm_compute in Hsame. discriminate.
Qed.

(** The key of a search does not tell the name from the set: the
    search for name [a_b] in set [c] and the one for name [a] in set
    [b_c] share a key, so the second is answered from what the first
    cached, without a request of its own. *)
Theorem cacheKey_collision :
  cacheKey "a_b" "c" "" = cacheKey "a" "b_c" ""
  /\ (let first :=
        searchCards (Examples.answering [Examples.remote_card "a_b"])
          0 0 "a_b" "c" "" Examples.fresh_start in
      searchCards Examples.unreachable 1 1 "a" "b_c" "" (snd first) = first).
Proof. split; reflexivity. Qed.

End LookupFacts.

(* ===================================================================== *)
(** ** The search workflow *)
(* ===================================================================== *)

Section WorkflowFacts.

Import JsNumber App Lookup Workflow.

Lemma showScreen_resultsView screenName w :
  UI.resultsView (UI.dom (UI.showScreen screenName w))
  = UI.resultsView (UI.dom w).
Proof.
  destruct (UI.is_protected screenName) eqn:Hp.
  - destruct (Auth.isLoggedIn (UI.localStorage w)) eqn:Hs.
    + rewrite showScreen_granted by exact Hs. reflexivity.
    + rewrite showScreen_denied by assumption. reflexivity.
  - rewrite showScreen_open by exact Hp. reflexivity.
Qed.

Lemma performSearch_settle_clears now cardData outcome st :
  searchInProgress (performSearch_settle now cardData outcome st) = false
  /\ UI.searchDisabled (UI.dom (ui (performSearch_settle now cardData outcome st)))
     = false.
Proof. split; reflexivity. Qed.

Lemma performSearch_begin_api st : api (fst (performSearch_begin st)) = api st.
Proof.
  unfold performSearch_begin.
  destruct (searchInProgress st); [reflexivity |].
  destruct (Auth.isLoggedIn _); [| reflexivity].
  destruct (UI.cardData _); reflexivity.
Qed.

Lemma performSearch_begin_waits st st' cardData :
  performSearch_begin st = (st', AwaitingDelay cardData) ->
  searchInProgress st = false
  /\ Auth.isLoggedIn (UI.localStorage (ui st)) = true
  /\ UI.cardData (UI.sessionStorage (ui st)) = Some cardData
  /\ searchInProgress st' = true
  /\ api st' = api st.
Proof.
  unfold performSearch_begin.
  destruct (searchInProgress st); [discriminate |].
  destruct (Auth.isLoggedIn _); [| discriminate].
  destruct (UI.cardData _) as [cd |]; [| discriminate].
  cbn [negb]. intros H. injection H as <- <-. repeat split.
Qed.

Lemma performSearch_begin_guard st :
  match snd (performSearch_begin st) with
  | AwaitingDelay _ =>
      searchInProgress st = false
      /\ searchInProgress (fst (performSearch_begin st)) = true
  | _ => searchInProgress (fst (performSearch_begin st)) = searchInProgress st
  end.
Proof.
  unfold performSearch_begin.
  destruct (searchInProgress st) eqn:Hbusy; [exact Hbusy |].
  destruct (Auth.isLoggedIn _); [| exact Hbusy].
  destruct (UI.cardData _); [split; reflexivity | exact Hbusy].
Qed.

Lemma step_single_flight (e : Event) (p : Page) :
  single_flight p -> single_flight (step e p).
Proof.
  intros [Hlen Hguard]. unfold single_flight.
  destruct e as [| net t1 t2 t3 | f]; cbn [step].
  - pose proof (performSearch_begin_guard (state p)) as Hbegin.
    destruct (performSearch_begin (state p)) as [st suspension].
    cbn [fst snd state in_flight] in *.
    destruct suspension as [| | cardData].
    + rewrite Hbegin. split; assumption.
    + rewrite Hbegin. split; assumption.
    + destruct Hbegin as [Hclear Hset].
      assert (Hnone : in_flight p = []).
      { destruct (in_flight p) as [| x l]; [reflexivity |].
        exfalso. rewrite Hclear in Hguard.
        assert (false = true) by (apply Hguard; discriminate). discriminate. }
      rewrite Hnone, Hset. cbn. split; [lia |].
      split; [discriminate | reflexivity].
  - destruct (in_flight p) as [| cardData rest] eqn:Hflight.
    + rewrite Hflight. split; assumption.
    + cbn [state in_flight].
      assert (Hrest : rest = []).
      { destruct rest; [reflexivity | simpl in Hlen; lia]. }
      subst rest. split; [simpl; lia |].
      unfold performSearch_resume.
      destruct (API.searchCards _ _ _ _ _ _ _) as [outcome api'].
      rewrite (proj1 (performSearch_settle_clears _ _ _ _)).
      split; [discriminate | intros H; contradiction].
  - cbn [state in_flight set_ui searchInProgress].
    split; assumption.
Qed.

Lemma run_single_flight (events : list Event) (p : Page) :
  single_flight p -> single_flight (run events p).
Proof.
  unfold run. revert p.
  induction events as [| e events IH]; intros p Hp; [exact Hp |].
  cbn [fold_left]. apply IH, step_single_flight, Hp.
Qed.

Lemma step_requests_guarded (e : Event) (p : Page) :
  single_flight p ->
  API.requests (api (state (step e p))) <> API.requests (api (state p)) ->
  searchInProgress (state p) = true.
Proof.
  intros [_ Hguard] Hsent. destruct e as [| net t1 t2 t3 | f]; cbn [step] in Hsent.
  - exfalso. apply Hsent.
    pose proof (performSearch_begin_api (state p)) as Hapi.
    destruct (performSearch_begin (state p)) as [st suspension].
    cbn [state fst] in *. rewrite Hapi. reflexivity.
  - destruct (in_flight p) as [| cardData rest] eqn:Hflight.
    + exfalso. apply Hsent. reflexivity.
    + apply Hguard. discriminate.
  - exfalso. apply Hsent. reflexivity.
Qed.

(** C3.  A call of [performSearch] made while the guard is set returns
    at once and changes nothing: no request is sent, no variable, no
    storage and no element is touched.  A call made while the guard is
    clear sends nothing before it has set the guard: its synchronous
    part leaves the request log alone and, when it goes on to wait for
    the lookup, has set the guard.  However the lookup settles, with a
    result, a reported failure or a thrown error, the guard is clear
    and the search button enabled when the call is over; so after any
    complete call the guard is clear and does not turn the next call
    away.  Over any sequence of triggers, resumptions and other
    handlers, at most one search is ever in flight, the guard is set
    exactly while one is, and a request is only sent while it is
    set. *)
Theorem performSearch_single_flight :
  (forall st, searchInProgress st = true ->
     performSearch_begin st = (st, Returned)
     /\ forall net now_lookup now_store now_mock,
          performSearch net now_lookup now_store now_mock st = st)
  /\ (forall st, api (fst (performSearch_begin st)) = api st)
  /\ (forall st st' cardData,
        performSearch_begin st = (st', AwaitingDelay cardData) ->
        searchInProgress st = false /\ searchInProgress st' = true)
  /\ (forall now cardData outcome st,
        searchInProgress (performSearch_settle now cardData outcome st) = false
        /\ UI.searchDisabled
             (UI.dom (ui (performSearch_settle now cardData outcome st)))
           = false)
  /\ (forall net now_lookup now_store now_mock cardData st,
        searchInProgress
          (performSearch_resume net now_lookup now_store now_mock cardData st)
        = false)
  /\ (forall net now_lookup now_store now_mock st,
        searchInProgress st = false ->
        searchInProgress (performSearch net now_lookup now_store now_mock st)
        = false)
  /\ (forall events p, single_flight p -> single_flight (run events p))
  /\ (forall e p, single_flight p ->
        API.requests (api (state (step e p))) <> API.requests (api (state p)) ->
        searchInProgress (state p) = true).
Proof.
  split.
  { intros st Hbusy.
    assert (H : performSearch_begin st = (st, Returned)).
    { unfold performSearch_begin. rewrite Hbusy. reflexivity. }
    split; [exact H |]. intros. unfold performSearch. rewrite H. reflexivity. }
  split; [exact performSearch_begin_api |].
  split.
  { intros st st' cardData H.
    apply performSearch_begin_waits in H. tauto. }
  split; [intros; apply performSearch_settle_clears |].
  assert (Hresume : forall net now_lookup now_store now_mock cardData st,
            searchInProgress
              (performSearch_resume net now_lookup now_store now_mock cardData st)
            = false).
  { intros. unfold performSearch_resume.
    destruct (API.searchCards _ _ _ _ _ _ _) as [outcome api'].
    apply performSearch_settle_clears. }
  split; [exact Hresume |].
  split; [| split; [exact run_single_flight | exact step_requests_guarded]].
  intros net now_lookup now_store now_mock st Hclear.
  unfold performSearch.
  destruct (performSearch_begin st) as [st' [| | cardData]] eqn:Hbegin.
  - unfold performSearch_begin in Hbegin. rewrite Hclear in Hbegin.
    destruct (Auth.isLoggedIn _); [| discriminate].
    destruct (UI.cardData _); [discriminate |].
    injection Hbegin as <-. exact Hclear.
  - unfold performSearch_begin in Hbegin. rewrite Hclear in Hbegin.
    destruct (Auth.isLoggedIn _).
    + destruct (UI.cardData _); discriminate.
    + injection Hbegin as <-. exact Hclear.
  - apply Hresume.
Qed.

Lemma performSearch_single_flight_witness :
  searchInProgress Examples.busy_page = true
  /\ performSearch Examples.unreachable 0 0 0 Examples.busy_page
     = Examples.busy_page
  /\ searchInProgress
       (performSearch Examples.unreachable 0 0 0 Examples.ready_page) = false
  /\ single_flight
       (run [Trigger; Trigger; Settle Examples.unreachable 0 0 0; Trigger]
          {| state := Examples.ready_page; in_flight := [] |}).
Proof.
  destruct performSearch_single_flight
    as (Hbusy & _ & _ & _ & _ & Hdone & Hrun & _).
  split; [reflexivity |]. split; [| split].
  - apply (Hbusy Examples.busy_page eq_refl).
  - apply Hdone. reflexivity.
  - apply Hrun. split; [simpl; lia |].
    split; [discriminate | intros H; contradiction].
Defined.

Lemma get_last (s : string) (b : ascii) :
  String.get (String.length s) (s +:+ String b "") = Some b.
Proof. induction s as [| a s IH]; [reflexivity | exact IH]. Qed.

Lemma length_snoc (s : string) (b : ascii) :
  String.length (s +:+ String b "") = S (String.length s).
Proof. induction s as [| a s IH]; [reflexivity | simpl; now rewrite IH]. Qed.

(** The synthetic price of a name of two or more characters is settled
    by its first and its last character. *)
Lemma generateMockPrice_ends (a b : ascii) (middle : string) :
  generateMockPrice (String a (middle +:+ String b ""))
  = seeded_price (JsString.code a) (JsString.code b).
Proof.
  unfold generateMockPrice, seeded_price, charCodeAt.
  cbn [String.length String.get Z.ltb Z.compare Z.to_nat].
  rewrite length_snoc.
  replace (Z.of_nat (S (S (String.length middle))) - 1)
    with (Z.of_nat (S (String.length middle))) by lia.
  destruct (Z.ltb_spec (Z.of_nat (S (String.length middle))) 0); [lia |].
  rewrite Nat2Z.id. cbn [String.get Nat.eqb]. rewrite get_last. reflexivity.
Qed.

Lemma showResults_view e w :
  UI.resultsView (UI.dom (UI.showResults e w))
  = Some {| UI.resultsCardName := API.card_name (API.card e);
            UI.resultsCardSet :=
              JsString.or_default (Some (API.card_set (API.card e)))
                (JsString.or_default (Some (API.card_setCode (API.card e)))
                   "N/A");
            UI.resultsCondition :=
              JsString.or_default (Some (API.selectedCondition e)) "N/A";
            UI.resultsPrice :=
              "$" +:+ JsString.or_default (Some (API.adjustedPrice e)) "N/A";
            UI.resultsCardImage :=
              JsObject.or JsString.truthy (API.card_imageUrl (API.card e))
                UI.noImage;
            UI.breakdownLabel :=
              "Base Price × "
              +:+ API.conditionAdjustment (API.priceBreakdown e);
            UI.breakdownPrice :=
              "$" +:+ API.estimatedValue (API.priceBreakdown e) |}.
Proof. unfold UI.showResults. rewrite showScreen_resultsView. reflexivity. Qed.

Lemma performSearch_settle_mock now cardData res st :
  without_cards res ->
  currentCard (performSearch_settle now cardData (Normal res) st)
  = Some (createMockCardResult now cardData)
  /\ UI.resultsView
       (UI.dom (ui (performSearch_settle now cardData (Normal res) st)))
     = UI.resultsView
         (UI.dom (UI.showResults
                    (API.enrichCardWithPricing
                       (createMockCardResult now cardData)
                       (UI.condition cardData))
                    (ui st))).
Proof.
  intros Hno. unfold performSearch_settle.
  assert (Hcard :
    (if negb (API.success res) then createMockCardResult now cardData
     else match API.data res with
          | Some (first :: _) => first
          | _ => createMockCardResult now cardData
          end) = createMockCardResult now cardData).
  { destruct Hno as [-> | [-> | ->]]; [reflexivity | |];
      destruct (negb (API.success res)); reflexivity. }
  rewrite Hcard. split; reflexivity.
Qed.

(** C8.  For the descriptor with name Charizard, set Base Set and
    condition Near Mint, on a page that is logged in and has no search
    under way: when the lookup is not answered from the cache and the
    remote call errors or yields no cards, [performSearch] makes the
    synthetic card the current card.  Its price is the seeded function
    of the codes of C and d, the first and last characters of the name,
    which is 166; the enriched card has multiplier 1.0 and an
    [adjustedPrice] equal to its [basePrice], and that price is what the
    results screen is given. *)
Theorem charizard_falls_back_to_mock (net : API.Network API.CardsBody)
    (now_lookup now_store now : Z) (number photo : string) (st : State) :
  let cardData :=
    {| UI.name := "Charizard"; UI.set := "Base Set"; UI.number := number;
       UI.condition := "Near Mint"; UI.photo := photo |} in
  let mock := createMockCardResult now cardData in
  let enriched := API.enrichCardWithPricing mock "Near Mint" in
  searchInProgress st = false ->
  Auth.isLoggedIn (UI.localStorage (ui st)) = true ->
  UI.cardData (UI.sessionStorage (ui st)) = Some cardData ->
  fresh now_lookup (api st) (cacheKey "Charizard" "Base Set" number) = None ->
  nothing_found (reply net (search_request "Charizard" "Base Set")) ->
  let st' := performSearch net now_lookup now_store now st in
  currentCard st' = Some mock
  /\ API.listed_avg mock = Some (generateMockPrice "Charizard")
  /\ generateMockPrice "Charizard"
     = seeded_price (JsString.code "C") (JsString.code "d")
  /\ generateMockPrice "Charizard" = 166%float
  /\ API.conditionMultiplier enriched = JsObject.Own 1.0%float
  /\ API.basePrice enriched = "166.00"
  /\ API.adjustedPrice enriched = API.basePrice enriched
  /\ (exists view, UI.resultsView (UI.dom (ui st')) = Some view
                   /\ UI.resultsPrice view = "$166.00")
  /\ searchInProgress st' = false.
Proof.
  intros cardData mock enriched Hclear Hsession Hdata Hmiss Hnothing st'.
  assert (Hprice : generateMockPrice "Charizard" = 166%float)
    by (vm_compute; reflexivity).
  assert (Hbase : API.basePrice enriched = "166.00").
  { subst enriched mock. unfold API.enrichCardWithPricing, API.base_price.
    cbn [API.basePrice API.listed_avg createMockCardResult API.card_prices
         API.tcgplayer API.avg mbind option_bind UI.name cardData].
    rewrite Hprice. vm_compute. reflexivity. }
  assert (Hadjusted : API.adjustedPrice enriched = "166.00").
  { subst enriched mock. unfold API.enrichCardWithPricing, API.base_price.
    cbn [API.adjustedPrice API.listed_avg createMockCardResult API.card_prices
         API.tcgplayer API.avg mbind option_bind UI.name cardData].
    rewrite Hprice. vm_compute. reflexivity. }
  assert (Hrun : exists res,
            without_cards res
            /\ st' = performSearch_settle now cardData (Normal res)
                       {| ui := ui (fst (performSearch_begin st));
                          api := snd (API.searchCards net now_lookup now_store
                                        "Charizard" "Base Set" number (api st));
                          currentCard := currentCard st;
                          searchInProgress := true |}).
  { subst st'. unfold performSearch, performSearch_begin.
    rewrite Hclear, Hsession, Hdata. cbn [negb fst].
    unfold performSearch_resume.
    cbn [api set_ui set_searchInProgress UI.name UI.set UI.number cardData
         currentCard searchInProgress ui].
    rewrite searchCards_eq, Hmiss. cbv zeta.
    exists not_found. split; [left; reflexivity |].
    destruct (reply net (search_request "Charizard" "Base Set"))
      as [m | [[| c cs] |] | m]; try contradiction; reflexivity. }
  destruct Hrun as (res & Hno & ->).
  destruct (performSearch_settle_mock now cardData res
              {| ui := ui (fst (performSearch_begin st));
                 api := snd (API.searchCards net now_lookup now_store
                               "Charizard" "Base Set" number (api st));
                 currentCard := currentCard st;
                 searchInProgress := true |} Hno) as [Hcard Hview].
  split; [exact Hcard |]. split; [reflexivity |].
  split; [apply (generateMockPrice_ends "C" "d" "harizar") |].
  split; [exact Hprice |].
  split; [apply multiplier_lookup; reflexivity |].
  split; [exact Hbase |]. split; [congruence |].
  split; [| apply performSearch_settle_clears].
  rewrite Hview, showResults_view. eexists. split; [reflexivity |].
  cbn [UI.resultsPrice UI.condition cardData].
  fold mock. fold enriched. rewrite Hadjusted. reflexivity.
Qed.

Lemma charizard_falls_back_to_mock_witness :
  currentCard (performSearch Examples.unreachable 0 0 42 Examples.ready_page)
  = Some (createMockCardResult 42 Examples.charizard)
  /\ API.adjustedPrice
       (API.enrichCardWithPricing
          (createMockCardResult 42 Examples.charizard) "Near Mint")
     = "166.00".
Proof.
  destruct (charizard_falls_back_to_mock Examples.unreachable 0 0 42 "" ""
              Examples.ready_page eq_refl eq_refl eq_refl eq_refl I)
    as (Hcard & _ & _ & _ & _ & Hbase & Hsame & _).
  split; [exact Hcard | exact (eq_trans Hsame Hbase)].
Defined.

Lemma codes_checked : forallb code_ok (seqZ 0 256) = true.
Proof. vm_compute. reflexivity. Qed.

Lemma sums_checked :
  forallb (fun a => forallb (sum_ok a) (seqZ 0 256)) (seqZ 0 256) = true.
Proof. vm_compute. reflexivity. Qed.

Lemma seeded_sums_checked : forallb seeded_sum_ok (seqZ 0 511) = true.
Proof. vm_compute. reflexivity. Qed.

Lemma checked_in_range (ok : Z -> bool) (n x : Z) :
  forallb ok (seqZ 0 n) = true -> 0 <= x < n -> ok x = true.
Proof.
  intros Hall Hx. rewrite forallb_forall in Hall. apply Hall.
  apply list_elem_of_In, elem_of_seqZ. lia.
Qed.

Lemma seeded_price_whole (first last : Z) :
  0 <= first < 256 -> 0 <= last < 256 ->
  seeded_price first last = of_Z (seeded_dollars first last)
  /\ JsNumber.truthy (seeded_price first last) = true.
Proof.
  intros Hfirst Hlast.
  pose proof (checked_in_range _ _ _ codes_checked Hfirst) as Ha.
  pose proof (checked_in_range _ _ _ codes_checked Hlast) as Hb.
  pose proof (checked_in_range _ _ _
                (checked_in_range (fun a => forallb (sum_ok a) (seqZ 0 256))
                   _ _ sums_checked Hfirst) Hlast) as Hsum.
  assert (Hrange : 0 <= first + last < 511) by lia.
  pose proof (checked_in_range _ _ _ seeded_sums_checked Hrange) as Hseed.
  apply FloatAxioms.Leibniz.eqb_spec in Ha, Hb, Hsum.
  apply andb_prop in Hseed as [Heq Htruthy].
  apply FloatAxioms.Leibniz.eqb_spec in Heq.
  unfold seeded_price, seeded_dollars. rewrite Ha, Hb, Hsum.
  split; assumption.
Qed.

Lemma code_range (c : ascii) : 0 <= JsString.code c < 256.
Proof.
  unfold JsString.code. pose proof (nat_ascii_bounded c). lia.
Qed.

Lemma string_ends (s : string) :
  s <> "" ->
  (exists a, s = String a "")
  \/ (exists a middle b, s = String a (middle +:+ String b "")).
Proof.
  destruct s as [| a s]; [contradiction |]. intros _.
  revert a. induction s as [| b s IH]; intros a.
  - left. exists a. reflexivity.
  - right. destruct (IH b) as [[x Hx] | (x & middle & y & Hxy)].
    + injection Hx as -> ->. exists a, "", x. reflexivity.
    + injection Hxy as -> ->. exists a, (String x middle), y. reflexivity.
Qed.

Lemma last_char_app (c b : ascii) (middle : string) :
  last_char c (middle +:+ String b "") = b.
Proof.
  revert c. induction middle as [| d middle IH]; intros c; [reflexivity |].
  cbn [String.append last_char]. apply IH.
Qed.

(** The synthetic price of every non-empty name is a whole number of
    dollars from 15 to 500, the seeded function of the codes of the
    first and of the last character of the name (one and the same
    character in a name of one); the enriched synthetic card then
    satisfies [adjustedPrice = basePrice × multiplier] exactly, for
    any condition that is not an inherited name. *)
Theorem mock_price_band (now : Z) (cardData : UI.CardData) :
  UI.name cardData <> "" ->
  JsObject.inherited (UI.condition cardData) = false ->
  let mock := createMockCardResult now cardData in
  (exists first last : ascii,
      ends (UI.name cardData) = Some (first, last)
      /\ generateMockPrice (UI.name cardData)
         = of_Z (seeded_dollars (JsString.code first) (JsString.code last))
      /\ 15 <= seeded_dollars (JsString.code first) (JsString.code last) <= 500
      /\ API.base_price mock = generateMockPrice (UI.name cardData))
  /\ Pricing.price_invariant
       (API.enrichCardWithPricing mock (UI.condition cardData)).
Proof.
  intros Hname Hown mock.
  assert (Hends : exists first last : ascii,
            ends (UI.name cardData) = Some (first, last)
            /\ generateMockPrice (UI.name cardData)
               = seeded_price (JsString.code first) (JsString.code last)).
  { destruct (string_ends _ Hname) as [[a ->] | (a & middle & b & ->)].
    - exists a, a. split; reflexivity.
    - exists a, b. split; [| apply generateMockPrice_ends].
      cbn [ends]. rewrite last_char_app. reflexivity. }
  destruct Hends as (first & last & Hboth & Hprice).
  destruct (seeded_price_whole _ _ (code_range first) (code_range last))
    as [Hwhole Htruthy].
  assert (Hband : 15 <= seeded_dollars (JsString.code first)
                          (JsString.code last) <= 500).
  { unfold seeded_dollars.
    pose proof (Z.mod_pos_bound
                  ((JsString.code first + JsString.code last) * 257) 486).
    lia. }
  assert (Hbase : API.base_price mock = generateMockPrice (UI.name cardData)).
  { subst mock. unfold API.base_price.
    change (API.listed_avg (createMockCardResult now cardData))
      with (Some (generateMockPrice (UI.name cardData))).
    rewrite Hprice, Htruthy. reflexivity. }
  split.
  - exists first, last. split; [exact Hboth |].
    rewrite Hprice, Hwhole. repeat split; try lia.
    rewrite Hbase, Hprice, Hwhole. reflexivity.
  - apply (whole_dollar_price_invariant mock _
             (seeded_dollars (JsString.code first) (JsString.code last)) Hown);
      [lia |].
    rewrite Hbase, Hprice. exact Hwhole.
Qed.

Lemma mock_price_band_witness :
  generateMockPrice "Pikachu" = of_Z 100
  /\ Pricing.price_invariant
       (API.enrichCardWithPricing
          (createMockCardResult 0
             {| UI.name := "Pikachu"; UI.set := "Jungle";
                UI.number := "60/64";
                UI.condition := "Lightly Played"; UI.photo := "" |})
          "Lightly Played").
Proof.
  destruct (mock_price_band 0
              {| UI.name := "Pikachu"; UI.set := "Jungle";
                 UI.number := "60/64";
                 UI.condition := "Lightly Played"; UI.photo := "" |}
              ltac:(discriminate) eq_refl)
    as [(first & last & Hends & Hprice & _) Hinvariant].
  split; [| exact Hinvariant].
  injection Hends as <- <-. exact Hprice.
Defined.

End WorkflowFacts.

(* ===================================================================== *)
(** ** More on the remote calls and the cache *)
(* ===================================================================== *)

Section RemoteFacts.

Import JsString API Lookup Remote.

Lemma fetchFromPokemonTCG_eq {B} (net : Network B) (endpoint : string)
    (params : list (string * string)) (st : State) :
  fetchFromPokemonTCG net endpoint params st
  = (Normal
       match outcome net {| endpoint := endpoint; params := params |} with
       | Normal body =>
           {| fetched_success := true; fetched_data := Some body;
              fetched_error := None |}
       | Throw message =>
           {| fetched_success := false; fetched_data := None;
              fetched_error := Some message |}
       end,
     {| cache := cache st;
        requests := (requests st
                     ++ [{| endpoint := endpoint; params := params |}])%list |}).
Proof.
  unfold fetchFromPokemonTCG, outcome, try_catch, bind, fetch, lift, throw, ret.
  cbv beta iota zeta.
  destruct (net _) as [response | message]; [| reflexivity].
  destruct (ok response); cbn [negb]; [| reflexivity].
  destruct (json response); reflexivity.
Qed.

(** A remote call never throws and never touches the cache; it sends
    exactly the one request it was asked for, and it reports success
    exactly when the transport delivered a response with an OK status
    and a JSON body.  A status that is not OK is reported with its code
    and text, any other failure (of the transport, or of the parsing
    of the body) with the message it came with. *)
Theorem fetchFromPokemonTCG_outcome {B} (net : Network B) (endpoint : string)
    (params : list (string * string)) (st : State) :
  let req := {| endpoint := endpoint; params := params |} in
  exists result st',
    fetchFromPokemonTCG net endpoint params st = (Normal result, st')
    /\ cache st' = cache st
    /\ requests st' = (requests st ++ [req])%list
    /\ (fetched_success result = true <->
        exists response body,
          net req = Normal response /\ ok response = true
          /\ json response = Normal body)
    /\ (forall body, fetched_success result = true ->
                     outcome net req = Normal body ->
                     fetched_data result = Some body)
    /\ (forall response, net req = Normal response -> ok response = false ->
        fetched_error result
        = Some ("API Error: " +:+ pretty (status response) +:+ " "
                +:+ statusText response))
    /\ (forall message, net req = Throw message ->
        fetched_error result = Some message)
    /\ (forall response message,
          net req = Normal response -> ok response = true ->
          json response = Throw message ->
          fetched_error result = Some message).
Proof.
  intros req. rewrite fetchFromPokemonTCG_eq. fold req.
  eexists _, _. split; [reflexivity |]. cbn [cache requests].
  split; [reflexivity |]. split; [reflexivity |].
  unfold outcome.
  destruct (net req) as [response | message];
    [destruct (ok response) eqn:Hok;
       [destruct (json response) as [body | message] eqn:Hjson |] |];
    cbn [fetched_success fetched_data fetched_error];
    (split;
     [split;
      [intros H; first [discriminate H | eauto 10]
      | intros (r & b & Hr & Hk & Hb); first [reflexivity | congruence]]
     | split;
       [intros b Hs Ho; congruence
       | split;
         [intros r Hr Hk; congruence
         | split;
           [intros m Hm; congruence
           | intros r m Hr Hk Hj; congruence]]]]).
Qed.

Lemma getCardPricing_eq (net : Network CardBody) (cardId condition : string)
    (st : State) :
  getCardPricing net cardId condition st
  = (Normal
       match outcome net (detail_request cardId) with
       | Normal (Detail (Some (Named c))) =>
           Priced (enrichCardWithPricing (formatCard c) condition)
       | Normal (Detail (Some (Nameless message))) => PricingError message
       | Normal (NullCard message) => PricingError message
       | Normal (Detail None) =>
           Unpriced {| fetched_success := true;
                       fetched_data := Some (Detail None);
                       fetched_error := None |}
       | Throw message =>
           Unpriced {| fetched_success := false; fetched_data := None;
                       fetched_error := Some message |}
       end,
     {| cache := cache st;
        requests := (requests st ++ [detail_request cardId])%list |}).
Proof.
  unfold getCardPricing, try_catch, bind. rewrite fetchFromPokemonTCG_eq.
  fold (detail_request cardId).
  destruct (outcome net (detail_request cardId))
    as [[m | [[c | m] |]] | message]; reflexivity.
Qed.

(** The detail path never throws and neither reads nor fills the cache:
    every call sends its request, so the same call twice sends it
    twice.  It returns the enriched card exactly when the remote call
    succeeded with a named card in its body.  It returns the message
    of a caught error exactly when the remote call succeeded with a
    body it cannot read: [null], or a card without a name.  In every
    other case it hands back the fetch result: a failed call, or a
    body without a card. *)
Theorem getCardPricing_outcome (net net' : Network CardBody)
    (cardId condition : string) (st : State) :
  exists out st',
    getCardPricing net cardId condition st = (Normal out, st')
    /\ cache st' = cache st
    /\ requests st' = (requests st ++ [detail_request cardId])%list
    /\ requests (snd (getCardPricing net' cardId condition st'))
       = (requests st ++ [detail_request cardId; detail_request cardId])%list
    /\ (forall e, out = Priced e <->
          exists c, outcome net (detail_request cardId)
                    = Normal (Detail (Some (Named c)))
                    /\ e = enrichCardWithPricing (formatCard c) condition)
    /\ (forall message, out = PricingError message <->
          outcome net (detail_request cardId) = Normal (NullCard message)
          \/ outcome net (detail_request cardId)
             = Normal (Detail (Some (Nameless message))))
    /\ (forall result, out = Unpriced result <->
          (exists message,
              outcome net (detail_request cardId) = Throw message
              /\ result = {| fetched_success := false; fetched_data := None;
                             fetched_error := Some message |})
          \/ (outcome net (detail_request cardId) = Normal (Detail None)
              /\ result = {| fetched_success := true;
                             fetched_data := Some (Detail None);
                             fetched_error := None |})).
Proof.
  rewrite getCardPricing_eq. eexists _, _. split; [reflexivity |].
  cbn [cache requests]. split; [reflexivity |]. split; [reflexivity |].
  split.
  { rewrite getCardPricing_eq. cbn [snd requests].
    rewrite <- app_assoc. reflexivity. }
  destruct (outcome net (detail_request cardId))
    as [[m | [[c | m] |]] | message].
  - split; [intros e; split; [discriminate | intros (c' & H & _); discriminate] |].
    split.
    + intros message. split.
      * intros H. injection H as <-. left. reflexivity.
      * intros [H | H]; [injection H as <-; reflexivity | discriminate].
    + intros result. split; [discriminate |].
      intros [(message & H & _) | (H & _)]; discriminate.
  - split.
    + intros e. split.
      * intros H. injection H as <-. exists c. split; reflexivity.
      * intros (c' & Hc & ->). injection Hc as <-. reflexivity.
    + split.
      * intros message. split; [discriminate |].
        intros [H | H]; discriminate.
      * intros result. split; [discriminate |].
        intros [(message & H & _) | (H & _)]; discriminate.
  - split; [intros e; split; [discriminate | intros (c' & H & _); discriminate] |].
    split.
    + intros message. split.
      * intros H. injection H as <-. right. reflexivity.
      * intros [H | H]; [discriminate | injection H as <-; reflexivity].
    + intros result. split; [discriminate |].
      intros [(message & H & _) | (H & _)]; discriminate.
  - split; [intros e; split; [discriminate | intros (c' & H & _); discriminate] |].
    split.
    + intros message. split; [discriminate | intros [H | H]; discriminate].
    + intros result. split.
      * intros H. injection H as <-. right. split; reflexivity.
      * intros [(message & H & _) | (_ & ->)]; [discriminate | reflexivity].
  - split; [intros e; split; [discriminate | intros (c' & H & _); discriminate] |].
    split.
    + intros m. split; [discriminate | intros [H | H]; discriminate].
    + intros result. split.
      * intros H. injection H as <-. left. exists message. split; reflexivity.
      * intros [(m & H & ->) | (H & _)]; [| discriminate].
        injection H as <-. reflexivity.
Qed.

Lemma reply_outcome (net : Network CardsBody) (req : Request) :
  reply net req
  = match outcome net req with
    | Normal body => read body
    | Throw message => Errored message
    end.
Proof.
  unfold reply, outcome. destruct (net req) as [response | message];
    [| reflexivity].
  destruct (ok response); [| reflexivity].
  destruct (json response); reflexivity.
Qed.

(** A search touches no cache entry but the one under its own key,
    never removes an entry, and sends at most one request, none when a
    fresh entry answers it.  It writes its entry only when it returns
    [success: true] from the remote service. *)
Theorem searchCards_frame (net : Network CardsBody) (now_lookup now_store : Z)
    (name set number : string) (st : State) :
  let key := cacheKey name set number in
  let out := searchCards net now_lookup now_store name set number st in
  (forall other, other <> key ->
     cache (snd out) !! other = cache st !! other)
  /\ (forall k, is_Some (cache st !! k) -> is_Some (cache (snd out) !! k))
  /\ (is_Some (fresh now_lookup st key) -> snd out = st)
  /\ (fresh now_lookup st key = None ->
      requests (snd out) = (requests st ++ [search_request name set])%list)
  /\ (cache (snd out) <> cache st ->
      exists cards,
        fst out = Normal (found cards)
        /\ cache (snd out) !! key
           = Some {| entry_data := cards; timestamp := now_store |}).
Proof.
  cbv zeta. rewrite searchCards_eq.
  destruct (fresh now_lookup st (cacheKey name set number)) as [entry |].
  - cbn [fst snd]. split; [reflexivity |]. split; [tauto |].
    split; [reflexivity |]. split; [discriminate |].
    intros H. contradiction.
  - cbv zeta.
    destruct (reply net (search_request name set)) as [m | [[| c cs] |] | m];
      cbn [fst snd cache requests].
    1-2, 4-5: split; [reflexivity |]; (split; [tauto |]);
      (split; [intros [? H]; discriminate H |]);
      (split; [reflexivity |]); intros H; contradiction.
    split; [intros other Hother; apply lookup_insert_ne; congruence |].
    split.
    { intros k Hk.
      destruct (decide (cacheKey name set number = k)) as [<- | Hne].
      - rewrite lookup_insert_eq. eauto.
      - rewrite lookup_insert_ne by exact Hne. exact Hk. }
    split; [intros [? H]; discriminate H |].
    split; [reflexivity |].
    intros _. eexists. split; [reflexivity | apply lookup_insert_eq].
Qed.

Lemma searchCards_frame_witness :
  let st :=
    snd (searchCards (Examples.answering [Examples.remote_card "Pikachu"])
           0 0 "Pikachu" "" "" Examples.fresh_start) in
  cache
    (snd (searchCards (Examples.answering [Examples.remote_card "Raichu"])
            5 5 "Raichu" "" "" st))
  !! cacheKey "Pikachu" "" ""
  = cache st !! cacheKey "Pikachu" "" "".
Proof.
  intros st.
  apply (proj1 (searchCards_frame
                  (Examples.answering [Examples.remote_card "Raichu"])
                  5 5 "Raichu" "" "" st)).
  discriminate.
Defined.

Lemma formatted_cards (cards : list RemoteCard) :
  Forall formatted (map formatCard cards).
Proof.
  apply List.Forall_forall. intros c Hc.
  apply in_map_iff in Hc as (rc & <- & _). exists rc. reflexivity.
Qed.

Lemma kept_nonempty (name : string) (c : RemoteCard) (cs : list RemoteCard) :
  kept name (c :: cs) <> [].
Proof.
  unfold kept. destruct (List.filter _ (c :: cs)); discriminate.
Qed.

Lemma searchCards_sound (net : Network CardsBody) (now_lookup now_store : Z)
    (name set number : string) (st : State) :
  cache_sound st ->
  cache_sound (snd (searchCards net now_lookup now_store name set number st))
  /\ (forall res,
        fst (searchCards net now_lookup now_store name set number st)
        = Normal res ->
        success res = true ->
        exists c cs, data res = Some (c :: cs) /\ Forall formatted (c :: cs)).
Proof.
  intros Hsound. rewrite searchCards_eq.
  destruct (fresh now_lookup st (cacheKey name set number)) as [entry |] eqn:Hf.
  - cbn [fst snd]. split; [exact Hsound |].
    intros res Hres _. injection Hres as <-.
    assert (Hentry : cache st !! cacheKey name set number = Some entry).
    { unfold fresh in Hf.
      destruct (cache st !! cacheKey name set number) as [e |];
        [| discriminate].
      destruct (now_lookup - timestamp e <? CACHE_DURATION); congruence. }
    destruct (Hsound _ _ Hentry) as [Hne Hall].
    destruct (entry_data entry) as [| c cs]; [contradiction |].
    exists c, cs. split; [reflexivity | exact Hall].
  - cbv zeta.
    destruct (reply net (search_request name set)) as [m | [[| c cs] |] | m];
      cbn [fst snd].
    1-2, 4-5: split; [exact Hsound | intros res Hres Hok; injection Hres as <-;
                                   discriminate Hok].
    split.
    + intros k e. cbn [cache].
      destruct (decide (cacheKey name set number = k)) as [<- | Hne].
      * rewrite lookup_insert_eq. intros H. injection H as <-.
        cbn [entry_data]. split; [| apply formatted_cards].
        intros H. apply map_eq_nil in H. exact (kept_nonempty _ _ _ H).
      * rewrite lookup_insert_ne by exact Hne. apply Hsound.
    + intros res Hres _. injection Hres as <-. cbn [data found].
      pose proof (kept_nonempty name c cs) as Hne.
      destruct (kept name (c :: cs)) as [| k ks] eqn:Hk; [contradiction |].
      exists (formatCard k), (map formatCard ks).
      split; [reflexivity |]. apply (formatted_cards (k :: ks)).
Qed.

(** The cache only ever holds non-empty lists of formatted cards: that
    holds of the empty cache and is kept by [searchCards] and
    [clearCache].  While it holds, a search that returns
    [success: true] returns at least one card, so a caller never meets
    a successful search without cards. *)
Theorem cache_stays_sound :
  cache_sound {| cache := ∅; requests := [] |}
  /\ (forall st, cache_sound (snd (clearCache st)))
  /\ (forall net now_lookup now_store name set number st,
        cache_sound st ->
        cache_sound
          (snd (searchCards net now_lookup now_store name set number st))
        /\ (forall res,
              fst (searchCards net now_lookup now_store name set number st)
              = Normal res ->
              success res = true ->
              exists c cs,
                data res = Some (c :: cs) /\ Forall formatted (c :: cs))).
Proof.
  split; [intros key entry H; cbn [cache] in H; rewrite lookup_empty in H;
          discriminate |].
  split; [intros st key entry H; unfold clearCache in H;
          cbn [snd cache] in H; rewrite lookup_empty in H; discriminate |].
  intros. apply searchCards_sound. assumption.
Qed.

Lemma cache_stays_sound_witness :
  cache_sound
    (snd (searchCards (Examples.answering [Examples.remote_card "Pikachu"])
            0 0 "Pikachu" "" "" Examples.fresh_start)).
Proof.
  apply (proj2 (proj2 cache_stays_sound)).
  apply (proj1 cache_stays_sound).
Defined.

(** [clearCache] forgets every entry and nothing else: the request log
    stays, and the next search, whatever its arguments and whenever it
    is made, goes to the remote service. *)
Theorem clearCache_forgets (net : Network CardsBody) (now_lookup now_store : Z)
    (name set number : string) (st : State) :
  requests (snd (clearCache st)) = requests st
  /\ (forall key, cache (snd (clearCache st)) !! key = None)
  /\ requests (snd (searchCards net now_lookup now_store name set number
                      (snd (clearCache st))))
     = (requests st ++ [search_request name set])%list.
Proof.
  split; [reflexivity |]. split; [intros key; apply lookup_empty |].
  rewrite searchCards_eq. unfold fresh. cbn [clearCache snd cache requests].
  rewrite lookup_empty. cbv zeta.
  destruct (reply net (search_request name set)) as [m | [[| c cs] |] | m];
    reflexivity.
Qed.

End RemoteFacts.

(* ===================================================================== *)
(** ** More on pricing and cache keys *)
(* ===================================================================== *)

Section PricingMore.

Import JsNumber API Lookup.

Lemma inherited_not_own (condition : string) :
  JsObject.inherited condition = true ->
  JsObject.get conditionMultipliers condition = JsObject.Inherited condition.
Proof.
  intros Hin. unfold JsObject.get. rewrite Hin.
  unfold JsObject.inherited in Hin. apply existsb_exists in Hin as (k & Hk & Heq).
  apply String.eqb_eq in Heq. subst k.
  cbn in Hk.
  repeat (destruct Hk as [<- | Hk]; [reflexivity |]). contradiction.
Qed.

Lemma toFixed_times_nan (f : nat) (x : number) : toFixed f (x * nan)%float = "NaN".
Proof.
  unfold toFixed. rewrite FloatAxioms.mul_spec.
  change (Prim2SF nan) with S754_nan.
  destruct (Prim2SF x); reflexivity.
Qed.

(** A condition that names a member every object inherits ([toString],
    [constructor], [valueOf], ...) never gets the 0.5 default: for
    every card the multiplier returned is that member, and the adjusted
    price, the estimated value and the adjustment all read [NaN], while
    the base price is still rendered. *)
Theorem inherited_condition_price (c : Card) (condition : string) :
  JsObject.inherited condition = true ->
  let r := enrichCardWithPricing c condition in
  conditionMultiplier r = JsObject.Inherited condition
  /\ adjustedPrice r = "NaN"
  /\ estimatedValue (priceBreakdown r) = "NaN"
  /\ conditionAdjustment (priceBreakdown r) = "NaN%"
  /\ basePrice r = toFixed 2 (base_price c).
Proof.
  intros Hin r. subst r. unfold enrichCardWithPricing.
  rewrite (inherited_not_own _ Hin).
  cbn [conditionMultiplier adjustedPrice priceBreakdown estimatedValue
       conditionAdjustment basePrice JsObject.or JsObject.truthy
       JsObject.toNumber].
  rewrite toFixed_times_nan. repeat split.
Qed.

Lemma inherited_condition_price_witness :
  adjustedPrice (enrichCardWithPricing getSampleCard "constructor") = "NaN".
Proof.
  exact (proj1 (proj2 (inherited_condition_price getSampleCard "constructor"
                         eq_refl))).
Defined.

Lemma append_assoc (a b c : string) : (a +:+ b) +:+ c = a +:+ b +:+ c.
Proof.
  induction a as [| x a IH]; [reflexivity |].
  change (String x ((a +:+ b) +:+ c) = String x (a +:+ b +:+ c)).
  f_equal. exact IH.
Qed.

Lemma cacheKey_shift (name middle set number : string) :
  cacheKey (name +:+ "_" +:+ middle) set number
  = cacheKey name (middle +:+ "_" +:+ set) number
  /\ cacheKey name (set +:+ "_" +:+ middle) number
     = cacheKey name set (middle +:+ "_" +:+ number).
Proof.
  unfold cacheKey. split; rewrite !append_assoc; reflexivity.
Qed.

(** The key of a search joins name, set and number with underscores, so
    it does not tell where one ends and the next begins: moving a part
    that follows an underscore from the name to the set (or from the
    set to the number) gives the same key.  A search for the one
    triple that was fetched and cached is therefore handed, within the
    window and without a request, to a search for the other triple. *)
Theorem cacheKey_shared (net1 net2 : Network CardsBody) (t1 t1' t2 t2' : Z)
    (name middle set number : string) (st st1 : State) (res : SearchResult) :
  fresh t1 st (cacheKey (name +:+ "_" +:+ middle) set number) = None ->
  searchCards net1 t1 t1' (name +:+ "_" +:+ middle) set number st
  = (Normal res, st1) ->
  success res = true ->
  t2 - t1' < CACHE_DURATION ->
  cacheKey (name +:+ "_" +:+ middle) set number
  = cacheKey name (middle +:+ "_" +:+ set) number
  /\ searchCards net2 t2 t2' name (middle +:+ "_" +:+ set) number st1
     = (Normal res, st1)
  /\ cacheKey name (set +:+ "_" +:+ middle) number
     = cacheKey name set (middle +:+ "_" +:+ number).
Proof.
  intros Hmiss Hfirst Hok Hin.
  pose proof (proj1 (cacheKey_shift name middle set number)) as Hkey.
  split; [exact Hkey |].
  split; [| exact (proj2 (cacheKey_shift name middle set number))].
  rewrite searchCards_eq, Hmiss in Hfirst. cbv zeta in Hfirst.
  destruct (reply net1 _) as [m | [[| c cs] |] | m];
    injection Hfirst as <- <-; try discriminate Hok.
  rewrite searchCards_eq. unfold fresh. cbn [cache].
  rewrite <- Hkey, lookup_insert_eq. cbn [timestamp entry_data].
  destruct (Z.ltb_spec (t2 - t1') CACHE_DURATION); [reflexivity | lia].
Qed.

Lemma cacheKey_shared_witness :
  let first :=
    searchCards (Examples.answering [Examples.remote_card "Mr_Mime"])
      0 0 "Mr_Mime" "Jungle" "" Examples.fresh_start in
  searchCards Examples.unreachable 1 1 "Mr" "Mime_Jungle" "" (snd first) = first.
Proof.
  intros first.
  exact (proj1 (proj2 (cacheKey_shared
                  (Examples.answering [Examples.remote_card "Mr_Mime"])
                  Examples.unreachable 0 0 1 1 "Mr" "Mime" "Jungle" ""
                  Examples.fresh_start (snd first)
                  (found [formatCard (Examples.remote_card "Mr_Mime")])
                  eq_refl eq_refl eq_refl ltac:(reflexivity)))).
Defined.

(** The breakdown that [enrichCardWithPricing] attaches agrees with
    the fields beside it: the same base price, the adjusted price as
    the estimated value, and the multiplier as a percentage, [100%]
    for Near Mint, [75%] for Lightly Played and [50%] for any other
    condition that is not an inherited name. *)
Theorem priceBreakdown_agrees (c : Card) (condition : string) :
  JsObject.inherited condition = false ->
  let r := enrichCardWithPricing c condition in
  breakdown_basePrice (priceBreakdown r) = basePrice r
  /\ estimatedValue (priceBreakdown r) = adjustedPrice r
  /\ conditionAdjustment (priceBreakdown r)
     = (if String.eqb "Near Mint" condition then "100%"
        else if String.eqb "Lightly Played" condition then "75%"
        else "50%").
Proof.
  intros Hown r. subst r. unfold enrichCardWithPricing.
  cbn [priceBreakdown breakdown_basePrice estimatedValue conditionAdjustment
       basePrice adjustedPrice].
  split; [reflexivity |]. split; [reflexivity |].
  rewrite (multiplier_lookup _ Hown). cbn [JsObject.toNumber].
  unfold Pricing.tier_multiplier.
  destruct (String.eqb "Near Mint" condition); [vm_compute; reflexivity |].
  destruct (String.eqb "Lightly Played" condition); [vm_compute; reflexivity |].
  destruct (String.eqb "Moderately Played" condition); vm_compute; reflexivity.
Qed.

Lemma priceBreakdown_agrees_witness :
  conditionAdjustment
    (priceBreakdown (enrichCardWithPricing getSampleCard "Lightly Played"))
  = "75%".
Proof.
  exact (proj2 (proj2 (priceBreakdown_agrees getSampleCard "Lightly Played"
                         eq_refl))).
Defined.

End PricingMore.

(* ===================================================================== *)
(** ** Trimming and case *)
(* ===================================================================== *)

Section TextFacts.

Import JsString Text.

Lemma list_of_trimStart (s : string) :
  list_ascii_of_string (trimStart s) = drop_white (list_ascii_of_string s).
Proof.
  induction s as [| c s IH]; [reflexivity |]. simpl.
  destruct (is_white c); [exact IH | reflexivity].
Qed.

Lemma list_of_rev (s : string) :
  list_ascii_of_string (rev s) = List.rev (list_ascii_of_string s).
Proof. unfold rev. apply list_ascii_of_string_of_list_ascii. Qed.

Lemma list_of_trim (s : string) :
  list_ascii_of_string (trim s)
  = List.rev (drop_white (List.rev (drop_white (list_ascii_of_string s)))).
Proof.
  unfold trim, trimEnd.
  rewrite list_of_rev, list_of_trimStart, list_of_rev, list_of_trimStart.
  reflexivity.
Qed.

Lemma list_of_map_chars (f : ascii -> ascii) (s : string) :
  list_ascii_of_string (map_chars f s) = map f (list_ascii_of_string s).
Proof. induction s as [| c s IH]; [reflexivity | simpl; now rewrite IH]. Qed.

Lemma same_list (s t : string) :
  list_ascii_of_string s = list_ascii_of_string t -> s = t.
Proof.
  intros H. rewrite <- (string_of_list_ascii_of_string s),
    <- (string_of_list_ascii_of_string t), H. reflexivity.
Qed.

Lemma drop_white_headed (l : list ascii) : headed (drop_white l).
Proof.
  induction l as [| c l IH]; [exact I |]. simpl.
  destruct (is_white c) eqn:Hc; [exact IH | exact Hc].
Qed.

Lemma drop_white_of_headed (l : list ascii) : headed l -> drop_white l = l.
Proof. destruct l as [| c l]; [reflexivity |]. simpl. intros ->. reflexivity. Qed.

Lemma drop_white_snoc (l : list ascii) (c : ascii) :
  is_white c = false -> drop_white (l ++ [c]) = (drop_white l ++ [c])%list.
Proof.
  intros Hc. induction l as [| a l IH]; simpl.
  - rewrite Hc. reflexivity.
  - destruct (is_white a); [exact IH | reflexivity].
Qed.

(** Trimming the end of a headed string leaves it headed. *)
Lemma trim_end_headed (l : list ascii) :
  headed l -> headed (List.rev (drop_white (List.rev l))).
Proof.
  destruct l as [| c l]; [intros _; exact I |]. intros Hc. simpl in Hc.
  simpl List.rev. rewrite (drop_white_snoc _ _ Hc), rev_app_distr.
  exact Hc.
Qed.

Lemma trim_idempotent (s : string) : trim (trim s) = trim s.
Proof.
  apply same_list. rewrite (list_of_trim (trim s)), (list_of_trim s).
  set (d := drop_white (list_ascii_of_string s)).
  assert (He : headed (List.rev (drop_white (List.rev d)))).
  { apply trim_end_headed, drop_white_headed. }
  rewrite (drop_white_of_headed _ He), rev_involutive.
  rewrite (drop_white_of_headed _ (drop_white_headed _)). reflexivity.
Qed.

Lemma is_white_lower (c : ascii) : is_white (lower_char c) = is_white c.
Proof. destruct c as [[] [] [] [] [] [] [] []]; reflexivity. Qed.

Lemma drop_white_map (f : ascii -> ascii) (l : list ascii) :
  (forall c, is_white (f c) = is_white c) ->
  drop_white (map f l) = map f (drop_white l).
Proof.
  intros Hf. induction l as [| c l IH]; [reflexivity |]. simpl.
  rewrite Hf. destruct (is_white c); [exact IH | reflexivity].
Qed.

Lemma trim_toLowerCase (s : string) :
  trim (toLowerCase s) = toLowerCase (trim s).
Proof.
  apply same_list. unfold toLowerCase.
  rewrite list_of_trim, !list_of_map_chars, list_of_trim.
  rewrite (drop_white_map _ _ is_white_lower), <- map_rev,
    (drop_white_map _ _ is_white_lower), map_rev. reflexivity.
Qed.

(** For a name that was trimmed, the filter of [searchCards] is the
    plain case-insensitive containment of the name. *)
Lemma trimmed_name_matches (name : string) (c : API.RemoteCard) :
  Lookup.name_matches (trim name) c = Lookup.name_contains (trim name) c.
Proof.
  unfold Lookup.name_matches, Lookup.name_contains.
  rewrite trim_toLowerCase, trim_idempotent. reflexivity.
Qed.

End TextFacts.

(* ===================================================================== *)
(** ** The regular expression of [isValidEmail] *)
(* ===================================================================== *)

Section LanguageFacts.

Import Regex Language.

Lemma append_empty (u v : string) : u +:+ v = "" -> u = "" /\ v = "".
Proof. destruct u; [intros H; split; [reflexivity | exact H] | discriminate]. Qed.

Lemma append_cons (u v : string) (c : ascii) (w : string) :
  u +:+ v = String c w ->
  (u = "" /\ v = String c w) \/ (exists u', u = String c u' /\ w = u' +:+ v).
Proof.
  destruct u as [| a u]; [left; split; [reflexivity | assumption] |].
  intros H. change (String a (u +:+ v) = String c w) in H.
  injection H as -> <-. right. exists u. split; reflexivity.
Qed.

Lemma nullable_matches (r : regex) : nullable r = true <-> matches r "".
Proof.
  split.
  - induction r as [| | p | r IHr s IHs | r IHr s IHs | r IHr]; simpl; intros H;
      try discriminate.
    + constructor.
    + apply andb_true_iff in H as [Hr Hs].
      exact (matches_seq _ _ "" "" (IHr Hr) (IHs Hs)).
    + apply orb_true_iff in H as [Hr | Hs];
        [apply matches_alt_l | apply matches_alt_r]; auto.
    + constructor.
  - intros H. remember "" as w eqn:Hw.
    induction H as [| p c Hc | r s u v Hu IHu Hv IHv | r s u Hu IHu | r s u Hu IHu
                    | r | r u v Hu IHu Hv IHv]; simpl; try reflexivity.
    + discriminate.
    + apply append_empty in Hw as [-> ->].
      rewrite IHu, IHv; reflexivity.
    + rewrite IHu by assumption. reflexivity.
    + rewrite IHu by assumption. apply orb_true_r.
Qed.

Lemma seq_inv (r s : regex) (w : string) :
  matches (Seq r s) w -> exists u v, w = u +:+ v /\ matches r u /\ matches s v.
Proof. intros H. inversion H; subst. eauto. Qed.

Lemma alt_inv (r s : regex) (w : string) :
  matches (Alt r s) w -> matches r w \/ matches s w.
Proof. intros H. inversion H; subst; auto. Qed.

Lemma class_inv (p : ascii -> bool) (w : string) :
  matches (Class p) w -> exists c, w = String c "" /\ p c = true.
Proof. intros H. inversion H; subst. eauto. Qed.

Lemma eps_inv (w : string) : matches Eps w -> w = "".
Proof. intros H. inversion H. reflexivity. Qed.

Lemma void_inv (w : string) : ~ matches Void w.
Proof. intros H. inversion H. Qed.

Lemma deriv_sound (c : ascii) (r : regex) :
  forall w, matches (deriv c r) w -> matches r (String c w).
Proof.
  induction r as [| | p | r IHr s IHs | r IHr s IHs | r IHr]; simpl; intros w H.
  - destruct (void_inv _ H).
  - destruct (void_inv _ H).
  - destruct (p c) eqn:Hc; [| destruct (void_inv _ H)].
    apply eps_inv in H. subst w. constructor. exact Hc.
  - assert (Hseq : forall w, matches (Seq (deriv c r) s) w ->
                             matches (Seq r s) (String c w)).
    { intros w0 H0. apply seq_inv in H0 as (u & v & -> & Hu & Hv).
      exact (matches_seq r s (String c u) v (IHr _ Hu) Hv). }
    destruct (nullable r) eqn:Hn; [| exact (Hseq _ H)].
    apply alt_inv in H as [H | H]; [exact (Hseq _ H) |].
    exact (matches_seq r s "" (String c w) (proj1 (nullable_matches r) Hn)
             (IHs _ H)).
  - apply alt_inv in H as [H | H]; [apply matches_alt_l | apply matches_alt_r]; auto.
  - apply seq_inv in H as (u & v & -> & Hu & Hv).
    exact (matches_star_cons r (String c u) v (IHr _ Hu) Hv).
Qed.

Lemma deriv_complete (c : ascii) (r : regex) (w : string) :
  matches r (String c w) -> matches (deriv c r) w.
Proof.
  intros H. remember (String c w) as cw eqn:Hcw. revert w Hcw.
  induction H as [| p a Ha | r s u v Hu IHu Hv IHv | r s u Hu IHu | r s u Hu IHu
                  | r | r u v Hu IHu Hv IHv]; intros w Hcw; simpl.
  - discriminate.
  - injection Hcw as -> <-. rewrite Ha. constructor.
  - apply append_cons in Hcw as [[-> ->] | (u' & -> & ->)].
    + rewrite (proj2 (nullable_matches r) Hu).
      apply matches_alt_r. apply IHv. reflexivity.
    + specialize (IHu u' eq_refl).
      destruct (nullable r); [apply matches_alt_l |]; constructor; assumption.
  - apply matches_alt_l. auto.
  - apply matches_alt_r. auto.
  - discriminate.
  - apply append_cons in Hcw as [[-> ->] | (u' & -> & ->)].
    + apply IHv. reflexivity.
    + constructor; [apply IHu; reflexivity | exact Hv].
Qed.

(** [test] decides the language of the expression: the derivative
    matcher accepts exactly the words of [r]. *)
Lemma test_matches (r : regex) (s : string) : test r s = true <-> matches r s.
Proof.
  revert r. induction s as [| c s IH]; intros r; simpl.
  - apply nullable_matches.
  - rewrite IH. split; [apply deriv_sound | apply deriv_complete].
Qed.

Lemma star_class (p : ascii -> bool) (w : string) :
  matches (Star (Class p)) w <-> every p w = true.
Proof.
  split.
  - intros H. remember (Star (Class p)) as r eqn:Hr.
    induction H as [| | | | | r | r u v Hu _ Hv IHv]; try discriminate.
    + reflexivity.
    + injection Hr as ->. apply class_inv in Hu as (c & -> & Hc).
      simpl. rewrite Hc. exact (IHv eq_refl).
  - induction w as [| c w IH]; simpl; intros H; [constructor |].
    apply andb_true_iff in H as [Hc Hw].
    exact (matches_star_cons (Class p) (String c "") w
             (matches_class p c Hc) (IH Hw)).
Qed.

Lemma plus_class (w : string) :
  matches (Plus (Class Auth.not_space_or_at)) w <-> plain w = true.
Proof.
  unfold Plus. split.
  - intros H. apply seq_inv in H as (u & v & -> & Hu & Hv).
    apply class_inv in Hu as (c & -> & Hc).
    apply star_class in Hv. simpl. rewrite Hc. exact Hv.
  - destruct w as [| c w]; [discriminate |]. simpl. intros H.
    apply andb_true_iff in H as [Hc Hw].
    exact (matches_seq _ _ (String c "") w (matches_class _ c Hc)
             (proj2 (star_class _ w) Hw)).
Qed.

Lemma class_char (a : ascii) (w : string) :
  matches (Class (Ascii.eqb a)) w <-> w = String a "".
Proof.
  split.
  - intros H. apply class_inv in H as (c & -> & Hc).
    apply Ascii.eqb_eq in Hc. now subst.
  - intros ->. constructor. apply Ascii.eqb_refl.
Qed.

(** [isValidEmail] accepts exactly the strings [local@domain.tld]
    whose three parts are non-empty and hold no white space and no
    [@]; the domain and the last part may themselves hold dots. *)
Theorem isValidEmail_shape (email : string) :
  Auth.isValidEmail email = true
  <-> exists l d t, email = address l d t
        /\ plain l = true /\ plain d = true /\ plain t = true.
Proof.
  unfold Auth.isValidEmail, Auth.emailRegex, address. rewrite test_matches.
  split.
  - intros H.
    apply seq_inv in H as (l & w1 & -> & Hl & H).
    apply seq_inv in H as (a & w2 & -> & Ha & H).
    apply seq_inv in H as (d & w3 & -> & Hd & H).
    apply seq_inv in H as (o & t & -> & Ho & Ht).
    apply class_char in Ha, Ho. subst a o.
    exists l, d, t. rewrite <- !plus_class. repeat split; assumption.
  - intros (l & d & t & -> & Hl & Hd & Ht).
    apply plus_class in Hl, Hd, Ht.
    apply matches_seq; [exact Hl |].
    apply (matches_seq _ _ "@"); [now apply class_char |].
    apply matches_seq; [exact Hd |].
    apply (matches_seq _ _ "."); [now apply class_char | exact Ht].
Qed.

Lemma every_append (p : ascii -> bool) (u v : string) :
  every p (u +:+ v) = every p u && every p v.
Proof.
  induction u as [| c u IH]; [reflexivity |].
  change (p c && every p (u +:+ v) = p c && every p u && every p v).
  rewrite IH. apply andb_assoc.
Qed.

Lemma plain_every (s : string) : plain s = true -> every Auth.not_space_or_at s = true.
Proof. destruct s; [discriminate | intros H; exact H]. Qed.

End LanguageFacts.

(* ===================================================================== *)
(** ** The credential store over time *)
(* ===================================================================== *)

Section AccountFacts.

Import Auth Credentials Accounts.

Lemma falsy_false (s : string) : JsString.falsy s = false <-> s <> "".
Proof. destruct s; simpl; split; congruence. Qed.

Lemma login_cases (email password : string) (now : Z) (ls : LocalStorage) :
  (success (fst (login email password now ls)) = false
   /\ snd (login email password now ls) = ls)
  \/ (exists u, List.find (fun v => String.eqb (user_email v) email)
                  (stored_users ls) = Some u
                /\ user_password u = password
                /\ email <> "" /\ password <> ""
                /\ login email password now ls
                   = ({| success := true; message := "Login successful";
                         user := Some (session_at now u) |},
                      {| nashCards_users := nashCards_users ls;
                         nashCards_session := Some (session_at now u) |})).
Proof.
  unfold login. fold (stored_users ls).
  destruct (JsString.falsy email) eqn:He; [left; split; reflexivity |].
  destruct (JsString.falsy password) eqn:Hp; [left; split; reflexivity |].
  cbn [orb].
  destruct (List.find _ _) as [u |] eqn:Hfind; [| left; split; reflexivity].
  destruct (String.eqb_spec (user_password u) password) as [Hpw | Hpw];
    [| left; split; reflexivity].
  right. exists u. cbn [negb].
  split; [reflexivity |]. split; [exact Hpw |].
  split; [intros ->; discriminate He |].
  split; [intros ->; discriminate Hp | reflexivity].
Qed.

Lemma signup_cases (name email password : string) (now login_now : Z)
    (ls : LocalStorage) :
  let newUser := {| user_id := pretty now; user_name := name;
                    user_email := email; user_password := password |} in
  (success (fst (signup name email password now login_now ls)) = false
   /\ snd (signup name email password now login_now ls) = ls)
  \/ (acceptable newUser /\ ~ registered email ls
      /\ signup name email password now login_now ls
         = ({| success := true; message := "Account created successfully";
               user := None |},
            {| nashCards_users := Some (stored_users ls ++ [newUser])%list;
               nashCards_session := Some (session_at login_now newUser) |})).
Proof.
  intros newUser. unfold signup. fold (stored_users ls).
  destruct (JsString.falsy name) eqn:Hn; [left; split; reflexivity |].
  destruct (JsString.falsy email) eqn:He; [left; split; reflexivity |].
  destruct (JsString.falsy password) eqn:Hp; [left; split; reflexivity |].
  cbn [orb].
  destruct (isValidEmail email) eqn:Hvalid; [| left; split; reflexivity].
  cbn [negb].
  destruct (Z.ltb_spec (Z.of_nat (String.length password)) 6) as [Hlen | Hlen];
    [left; split; reflexivity |].
  destruct (existsb _ _) eqn:Hex; [left; split; reflexivity |].
  right.
  assert (Hnew : ~ registered email ls).
  { intros Hreg. apply existsb_registered in Hreg. congruence. }
  assert (Hnone : Forall (fun v => user_email v <> email) (stored_users ls)).
  { apply List.Forall_forall. intros v Hin Heq. apply Hnew.
    exists v. split; assumption. }
  split; [| split; [exact Hnew |]].
  - split; [intros H; cbn in H; subst name; discriminate Hn |].
    split; [exact Hvalid | cbn; lia].
  - fold newUser.
    set (ls' := setStoredUsers (stored_users ls ++ [newUser])%list ls).
    assert (Hm : matched email ls' newUser).
    { exists (stored_users ls), []. repeat split. exact Hnone. }
    unfold login. rewrite He, Hp. cbn [orb].
    fold (stored_users ls'). rewrite (find_matched _ _ _ Hm).
    cbn [user_password newUser]. rewrite String.eqb_refl. reflexivity.
Qed.

Lemma NoDup_snoc {A} (l : list A) (x : A) :
  List.NoDup l -> ~ In x l -> List.NoDup (l ++ [x])%list.
Proof.
  induction l as [| a l IH]; intros Hl Hx; cbn.
  - constructor; [intros [] | constructor].
  - apply List.NoDup_cons_iff in Hl as [Ha Hl]. constructor.
    + intros Hin. apply in_app_or in Hin as [Hin | [-> | []]];
        [exact (Ha Hin) | apply Hx; left; reflexivity].
    + apply IH; [exact Hl |]. intros Hin. apply Hx. right. exact Hin.
Qed.

Lemma well_formed_step (op : Op) (ls : LocalStorage) :
  well_formed ls -> well_formed (apply op ls) /\ keeps_records ls (apply op ls).
Proof.
  intros (Huniq & Hacc & Hknown).
  assert (Hsame : well_formed ls /\ keeps_records ls ls).
  { split; [split; [| split]; assumption |].
    exists []. symmetry. apply app_nil_r. }
  destruct op as [| name email password now login_now | email password now |];
    cbn [apply].
  - unfold init. destruct (getStoredUsers ls) as [users |] eqn:Hstored;
      [exact Hsame |].
    assert (Hnil : stored_users ls = []).
    { unfold stored_users. rewrite Hstored. reflexivity. }
    split; [split; [| split] |].
    + unfold unique_emails. cbn. constructor; [intros [] | constructor].
    + cbn. constructor; [| constructor].
      split; [discriminate |]. split; [reflexivity | cbn; lia].
    + intros s Hs. cbn in Hs. destruct (Hknown s Hs) as (u & Hin & _).
      rewrite Hnil in Hin. destruct Hin.
    + unfold keeps_records. rewrite Hnil. eexists. reflexivity.
  - destruct (signup_cases name email password now login_now ls)
      as [[_ ->] | (Hok & Hnew & ->)]; [exact Hsame |].
    cbn [snd].
    set (newUser := {| user_id := pretty now; user_name := name;
                       user_email := email; user_password := password |}) in *.
    set (ls' := {| nashCards_users := Some (stored_users ls ++ [newUser])%list;
                   nashCards_session := Some (session_at login_now newUser) |}).
    assert (Hst : stored_users ls' = (stored_users ls ++ [newUser])%list)
      by reflexivity.
    split; [split; [| split] |].
    + unfold unique_emails. rewrite Hst, map_app. cbn [map user_email newUser].
      apply NoDup_snoc; [exact Huniq |].
      intros Hin. apply in_map_iff in Hin as (v & Hv & Hin).
      apply Hnew. exists v. split; assumption.
    + rewrite Hst. apply List.Forall_app. split; [exact Hacc |].
      constructor; [exact Hok | constructor].
    + intros s Hs. cbn in Hs. injection Hs as <-. exists newUser. split.
      * rewrite Hst. apply in_or_app. right. left. reflexivity.
      * exists login_now. reflexivity.
    + exists [newUser]. exact Hst.
  - destruct (login_cases email password now ls)
      as [[_ ->] | (u & Hfind & _ & _ & _ & ->)]; [exact Hsame |].
    cbn [snd]. split; [split; [exact Huniq | split; [exact Hacc |]] |].
    + intros s Hs. cbn in Hs. injection Hs as <-. exists u. split.
      * apply find_some in Hfind. exact (proj1 Hfind).
      * exists now. reflexivity.
    + exists []. symmetry. apply app_nil_r.
  - split; [split; [exact Huniq | split; [exact Hacc |]] |].
    + intros s Hs. discriminate Hs.
    + exists []. symmetry. apply app_nil_r.
Qed.

Lemma empty_well_formed : well_formed empty.
Proof.
  split; [constructor | split; [constructor |]]. intros s Hs. discriminate Hs.
Qed.


(** Whatever sequence of [init], [signup], [login] and [logout] calls
    is made on a well-formed store (for one, the store of a browser
    that never opened the page), the store stays well formed: no two
    stored records share an email, every stored record has a name, a
    well-formed email and a password of six characters or more, and
    an active session is the session of a stored record.  No call
    removes or alters a stored record. *)
Theorem accounts_invariant (ops : list Op) (ls : LocalStorage) :
  well_formed ls ->
  well_formed (run ops ls) /\ keeps_records ls (run ops ls).
Proof.
  revert ls. induction ops as [| op ops IH]; intros ls Hwf.
  - split; [exact Hwf |]. exists []. symmetry. apply app_nil_r.
  - destruct (well_formed_step op ls Hwf) as (Hwf' & added & Hadded).
    destruct (IH (apply op ls) Hwf') as (Hend & more & Hmore).
    split; [exact Hend |]. exists (added ++ more)%list.
    cbn [run fold_left]. fold (run ops (apply op ls)).
    rewrite Hmore, Hadded, <- app_assoc. reflexivity.
Qed.

Lemma accounts_invariant_witness :
  let ops := [ Init; Signup "Ann" "ann@x.com" "abc123" 5 6; Logout;
               Signup "Bob" "ann@x.com" "secret1" 7 8;
               Login "demo@example.com" "password123" 9 ] in
  well_formed (run ops empty) /\ keeps_records empty (run ops empty).
Proof. intros ops. exact (accounts_invariant ops empty empty_well_formed). Defined.

Lemma seeded_well_formed : well_formed (init empty).
Proof. exact (proj1 (well_formed_step Init empty empty_well_formed)). Qed.

Lemma find_unique (email : string) (users : list User) (u : User) :
  List.NoDup (map user_email users) -> In u users -> user_email u = email ->
  List.find (fun v => String.eqb (user_email v) email) users = Some u.
Proof.
  intros Huniq Hin Hu. induction users as [| v users IH]; [destruct Hin |].
  cbn in Huniq. apply List.NoDup_cons_iff in Huniq as [Hfresh Huniq].
  cbn [List.find]. destruct Hin as [-> | Hin].
  - apply String.eqb_eq in Hu. rewrite Hu. reflexivity.
  - destruct (String.eqb_spec (user_email v) email) as [Hv | Hv].
    + exfalso. apply Hfresh. rewrite Hv, <- Hu. apply in_map. exact Hin.
    + apply IH; assumption.
Qed.

(** On a well-formed store [login] succeeds exactly when some stored
    record has the email and the password given; it then opens that
    record's session and returns it, and leaves the records alone. *)
Theorem login_succeeds_iff (email password : string) (now : Z)
    (ls : LocalStorage) :
  well_formed ls ->
  let out := login email password now ls in
  (success (fst out) = true
   <-> exists u, In u (stored_users ls)
                 /\ user_email u = email /\ user_password u = password)
  /\ (forall u, In u (stored_users ls) -> user_email u = email ->
                user_password u = password ->
                user (fst out) = Some (session_at now u)
                /\ getSession (snd out) = Some (session_at now u)
                /\ getStoredUsers (snd out) = getStoredUsers ls).
Proof.
  intros (Huniq & Hacc & _) out.
  assert (Hgood : forall u, In u (stored_users ls) -> user_email u = email ->
            user_password u = password ->
            out = ({| success := true; message := "Login successful";
                      user := Some (session_at now u) |},
                   {| nashCards_users := nashCards_users ls;
                      nashCards_session := Some (session_at now u) |})).
  { intros u Hin Hu Hpw.
    pose proof (proj1 (List.Forall_forall _ _) Hacc u Hin) as (_ & Hvalid & Hlen).
    subst out. unfold login. fold (stored_users ls).
    rewrite (find_unique email _ u Huniq Hin Hu).
    destruct email as [| a email]; [rewrite Hu in Hvalid; discriminate Hvalid |].
    destruct password as [| b password]; [rewrite Hpw in Hlen; cbn in Hlen; lia |].
    cbn [JsString.falsy orb].
    apply String.eqb_eq in Hpw. rewrite Hpw. reflexivity. }
  split; [split |].
  - intros Hok. subst out.
    destruct (login_cases email password now ls)
      as [[Hfail _] | (u & Hfind & Hpw & _)]; [congruence |].
    apply find_some in Hfind as [Hin Hu]. apply String.eqb_eq in Hu.
    exists u. repeat split; assumption.
  - intros (u & Hin & Hu & Hpw). rewrite (Hgood u Hin Hu Hpw). reflexivity.
  - intros u Hin Hu Hpw. rewrite (Hgood u Hin Hu Hpw). repeat split.
Qed.

Lemma login_succeeds_iff_witness :
  success (fst (login "demo@example.com" "password123" 9 (init empty))) = true.
Proof.
  apply (proj1 (login_succeeds_iff "demo@example.com" "password123" 9
                  (init empty) seeded_well_formed)).
  eexists. split; [left; reflexivity |]. split; reflexivity.
Defined.

Lemma find_first {A} (f : A -> bool) (l : list A) (x : A) :
  List.find f l = Some x ->
  exists before after,
    l = (before ++ x :: after)%list /\ Forall (fun y => f y = false) before.
Proof.
  induction l as [| a l IH]; [discriminate |]. cbn [List.find].
  destruct (f a) eqn:Ha.
  - intros [= ->]. exists [], l. split; [reflexivity | constructor].
  - intros H. destruct (IH H) as (before & after & -> & Hbefore).
    exists (a :: before), after. split; [reflexivity |].
    constructor; assumption.
Qed.

(** [getProfile] returns nothing without a session.  With a session
    of a stored record it returns a stored record with the session's
    id: the record the session belongs to when no two stored records
    share an id, and the first record with that id otherwise. *)
Theorem getProfile_of_session (ls : LocalStorage) :
  (getSession ls = None -> getProfile ls = None)
  /\ (forall s, getSession ls = Some s -> session_known ls ->
        exists u, getProfile ls = Some u /\ In u (stored_users ls)
                  /\ user_id u = session_id s
                  /\ (unique_ids ls -> session_of u s)
                  /\ exists before after,
                       stored_users ls = (before ++ u :: after)%list
                       /\ Forall (fun v => user_id v <> session_id s) before).
Proof.
  unfold getProfile. split; [intros ->; reflexivity |].
  intros s Hs Hknown. rewrite Hs. fold (stored_users ls).
  destruct (Hknown s Hs) as (u & Hin & now & ->). cbn [session_id session_at].
  destruct (List.find _ _) as [v |] eqn:Hfind.
  - pose proof (find_first _ _ _ Hfind) as (before & after & Hsplit & Hbefore).
    apply find_some in Hfind as [Hv Hid]. apply String.eqb_eq in Hid.
    exists v. split; [reflexivity |]. split; [exact Hv |].
    split; [exact Hid |]. split.
    2: { exists before, after. split; [exact Hsplit |].
         apply List.Forall_forall. intros y Hy.
         apply String.eqb_neq.
         exact (proj1 (List.Forall_forall _ _) Hbefore y Hy). }
    intros Huniq. exists now. f_equal.
    unfold unique_ids in Huniq. clear Hs Hknown Hsplit Hbefore.
    induction (stored_users ls) as [| x users IH]; [destruct Hin |].
    cbn in Huniq. apply List.NoDup_cons_iff in Huniq as [Hfresh Huniq].
    destruct Hin as [-> | Hin], Hv as [-> | Hv]; try reflexivity.
    + exfalso. apply Hfresh. rewrite <- Hid. apply in_map. exact Hv.
    + exfalso. apply Hfresh. rewrite Hid. apply in_map. exact Hin.
    + apply IH; assumption.
  - exfalso. apply (find_none _ _ Hfind) in Hin.
    rewrite String.eqb_refl in Hin. discriminate Hin.
Qed.

Lemma getProfile_of_session_witness :
  exists u, getProfile (run [Init; Login "demo@example.com" "password123" 9] empty)
            = Some u /\ user_name u = "Demo User".
Proof.
  set (ls := run [Init; Login "demo@example.com" "password123" 9] empty).
  destruct (proj2 (getProfile_of_session ls) _ eq_refl
              (proj2 (proj2 (proj1 (well_formed_step
                 (Login "demo@example.com" "password123" 9) (init empty)
                 seeded_well_formed)))))
    as (u & Hu & _ & _ & Hof & _).
  exists u. split; [exact Hu |].
  destruct Hof as (now & Heq).
  - repeat constructor; intros [].
  - exact (eq_sym (f_equal session_name Heq)).
Defined.



Lemma apply_keeps_records (op : Op) (ls : LocalStorage) :
  keeps_records ls (apply op ls).
Proof.
  assert (Hsame : keeps_records ls ls) by (exists []; symmetry; apply app_nil_r).
  destruct op as [| name email password now login_now | email password now |];
    cbn [apply].
  - unfold init. destruct (getStoredUsers ls) as [users |] eqn:Hstored;
      [exact Hsame |].
    unfold keeps_records, stored_users at 2. rewrite Hstored.
    eexists. reflexivity.
  - destruct (signup_cases name email password now login_now ls)
      as [[_ ->] | (_ & _ & ->)]; [exact Hsame |].
    eexists. reflexivity.
  - destruct (login_cases email password now ls)
      as [[_ ->] | (u & _ & _ & _ & _ & ->)]; exact Hsame.
  - exact Hsame.
Qed.

Lemma run_keeps_records (ops : list Op) (ls : LocalStorage) :
  keeps_records ls (run ops ls).
Proof.
  revert ls. induction ops as [| op ops IH]; intros ls.
  - exists []. symmetry. apply app_nil_r.
  - destruct (apply_keeps_records op ls) as (added & Hadded).
    destruct (IH (apply op ls)) as (more & Hmore).
    exists (added ++ more)%list. cbn [run fold_left].
    fold (run ops (apply op ls)). rewrite Hmore, Hadded, <- app_assoc.
    reflexivity.
Qed.

Lemma find_app_first {A} (f : A -> bool) (l l' : list A) (x : A) :
  List.find f l = Some x -> List.find f (l ++ l')%list = Some x.
Proof.
  induction l as [| a l IH]; [discriminate |]. cbn.
  destruct (f a); [exact (fun H => H) | exact IH].
Qed.

(** An account once created can log in ever after: whatever calls of
    [init], [signup], [login] and [logout] follow a successful
    [signup], a [login] with the email and the password of that signup
    succeeds and opens the session of the new record, and a [login]
    with that email and any other password fails. *)
Theorem signup_then_login (name email password : string) (now login_now : Z)
    (ls : LocalStorage) (ops : list Op) (later : Z) :
  success (fst (signup name email password now login_now ls)) = true ->
  let newUser := {| user_id := pretty now; user_name := name;
                    user_email := email; user_password := password |} in
  let ls' := run ops (snd (signup name email password now login_now ls)) in
  login email password later ls'
  = ({| success := true; message := "Login successful";
        user := Some (session_at later newUser) |},
     {| nashCards_users := nashCards_users ls';
        nashCards_session := Some (session_at later newUser) |})
  /\ (forall other, other <> password ->
        success (fst (login email other later ls')) = false
        /\ snd (login email other later ls') = ls').
Proof.
  intros Hok newUser ls'.
  destruct (signup_cases name email password now login_now ls)
    as [[Hfail _] | ((_ & Hvalid & Hlen) & Hnew & Hrun)]; [congruence |].
  fold newUser in Hrun.
  destruct (run_keeps_records ops (snd (signup name email password now
                                          login_now ls))) as (added & Hadded).
  fold ls' in Hadded. rewrite Hrun in Hadded.
  change (stored_users (snd _)) with (stored_users ls ++ [newUser])%list in Hadded.
  assert (Hfind : List.find (fun v => String.eqb (user_email v) email)
                    (stored_users ls') = Some newUser).
  { rewrite Hadded. apply find_app_first, find_last_added; [| reflexivity].
    apply List.Forall_forall. intros v Hin Heq. apply Hnew.
    exists v. split; assumption. }
  cbn [user_email user_password newUser] in Hvalid, Hlen.
  assert (He : JsString.falsy email = false).
  { destruct email; [discriminate Hvalid | reflexivity]. }
  split.
  - unfold login. fold (stored_users ls'). rewrite He, Hfind.
    destruct password; [cbn in Hlen; lia |]. cbn [JsString.falsy orb].
    cbn [user_password newUser]. rewrite String.eqb_refl. reflexivity.
  - intros other Hother. unfold login. fold (stored_users ls').
    rewrite He, Hfind. cbn [orb].
    destruct (JsString.falsy other); [split; reflexivity |].
    cbn [user_password newUser].
    destruct (String.eqb_spec password other) as [-> | _];
      [contradiction | split; reflexivity].
Qed.

Lemma signup_then_login_witness :
  let ls := snd (signup "Ann" "ann@x.com" "abc123" 5 6 Examples.seeded) in
  success (fst (login "ann@x.com" "abc123" 9
                  (run [Logout; Login "demo@example.com" "password123" 7] ls)))
  = true.
Proof.
  intros ls.
  exact (f_equal (fun out => success (fst out))
           (proj1 (signup_then_login "Ann" "ann@x.com" "abc123" 5 6
                     Examples.seeded
                     [Logout; Login "demo@example.com" "password123" 7] 9
                     eq_refl))).
Defined.

End AccountFacts.

(* ===================================================================== *)
(** ** The handlers of the page *)
(* ===================================================================== *)

Section HandlerFacts.

Import JsString Handlers Forms.

Lemma showError_eq (message : string) (w : UI.World) :
  UI.showError message w = UI.display UI.error (UI.set_errorMessage message w).
Proof. unfold UI.showError. apply showScreen_open. reflexivity. Qed.

Lemma showError_refused (message : string) (w : UI.World) :
  refused message w (UI.showError message w).
Proof. rewrite showError_eq. repeat split. Qed.

Lemma or_default_eqb (s d : string) :
  or_default (Some s) d = if String.eqb s "" then d else s.
Proof. destruct s; reflexivity. Qed.

Lemma truthy_eqb (s : string) : truthy s = negb (String.eqb s "").
Proof. destruct s; reflexivity. Qed.

Lemma handleSearch_cases (p : Page) :
  (exists condition,
      Auth.isLoggedIn (UI.localStorage (world p)) = true
      /\ complete (cardForm p) condition
      /\ handleSearch p
         = Normal
             {| world :=
                  UI.display UI.confirmation
                    {| UI.localStorage := UI.localStorage (world p);
                       UI.sessionStorage :=
                         {| UI.cardData :=
                              Some (descriptor (cardForm p) condition);
                            UI.currentScreen :=
                              UI.currentScreen (UI.sessionStorage (world p));
                            UI.previousScreen :=
                              UI.previousScreen (UI.sessionStorage (world p)) |};
                       UI.dom := UI.dom (world p) |};
                authForm := authForm p; cardForm := cardForm p;
                confirmView :=
                  Some (confirming (descriptor (cardForm p) condition)) |})
  \/ (exists message,
        handleSearch p = Normal (set_world (UI.showError message) p)).
Proof.
  unfold handleSearch.
  destruct (Auth.isLoggedIn (UI.localStorage (world p))) eqn:Hlogged;
    cbn [negb]; [| right; eexists; reflexivity].
  destruct (negb (negb (photoPreviewHidden (cardForm p)))
            && falsy (trim (cardName (cardForm p)))
            && falsy (trim (cardSet (cardForm p))));
    [right; eexists; reflexivity |].
  destruct (falsy (trim (cardName (cardForm p)))) eqn:Hname;
    [right; eexists; reflexivity |].
  destruct (falsy (trim (cardSet (cardForm p)))) eqn:Hset;
    [right; eexists; reflexivity |].
  cbn [orb].
  destruct (getSelectedCondition (conditionRadios (cardForm p)))
    as [condition |] eqn:Hsel; [| right; eexists; reflexivity].
  destruct (falsy condition) eqn:Hc; [right; eexists; reflexivity |].
  apply falsy_false in Hname, Hset, Hc.
  left. exists condition. split; [reflexivity |].
  split; [repeat split; assumption |].
  unfold showConfirmation. cbn [set_world world UI.sessionStorage UI.cardData].
  unfold set_world. cbn [world authForm cardForm confirmView].
  rewrite showScreen_granted by exact Hlogged.
  unfold confirming, descriptor.
  cbn [UI.name UI.set UI.number UI.condition UI.photo].
  rewrite or_default_eqb, truthy_eqb.
  destruct (String.eqb (src (previewImage (cardForm p))) ""); reflexivity.
Qed.




Lemma trimmed_query (name set : string) :
  name <> "" -> set <> "" -> trim name = name -> trim set = set ->
  Lookup.search_query name set
  = "name:" +:+ dquote +:+ name +:+ dquote
    +:+ " series.name:" +:+ dquote +:+ set +:+ dquote.
Proof.
  intros Hname Hset Hn Hs. unfold Lookup.search_query. rewrite Hn, Hs.
  destruct set; [contradiction |]. cbn [truthy falsy negb andb].
  rewrite !append_assoc. reflexivity.
Qed.

(** What [handleSearch] hands on to the search: whenever it shows the
    confirmation screen, the descriptor it stored has a name and a set
    that are non-empty and carry no white space around them, and a
    non-empty condition.  For such a descriptor the request of
    [searchCards] names both the card and the set, and the filter of
    [searchCards] is the plain containment of the name, whatever the
    service returns. *)
Theorem handleSearch_descriptor (p p' : Page) :
  handleSearch p = Normal p' ->
  UI.active (UI.dom (world p')) = [UI.confirmation] ->
  exists cardData,
    UI.cardData (UI.sessionStorage (world p')) = Some cardData
    /\ UI.name cardData <> "" /\ UI.set cardData <> ""
    /\ UI.condition cardData <> ""
    /\ trim (UI.name cardData) = UI.name cardData
    /\ trim (UI.set cardData) = UI.set cardData
    /\ trim (UI.number cardData) = UI.number cardData
    /\ Lookup.search_query (UI.name cardData) (UI.set cardData)
       = "name:" +:+ dquote +:+ UI.name cardData +:+ dquote
         +:+ " series.name:" +:+ dquote +:+ UI.set cardData +:+ dquote
    /\ (forall cards,
          Lookup.kept (UI.name cardData) cards
          = Lookup.kept_as_stated (UI.name cardData) cards).
Proof.
  intros Hrun Hshown.
  destruct (handleSearch_cases p)
    as [(condition & Hlogged & Hcomplete & Hp) | (message & Hp)];
    rewrite Hrun in Hp; injection Hp as ->.
  2: { cbn [set_world world] in Hshown. rewrite showError_eq in Hshown.
       discriminate Hshown. }
  destruct Hcomplete as (Hname & Hset & _ & Hcond).
  exists (descriptor (cardForm p) condition).
  split; [reflexivity |].
  split; [exact Hname |]. split; [exact Hset |]. split; [exact Hcond |].
  cbn [descriptor UI.name UI.set UI.number].
  split; [apply trim_idempotent |]. split; [apply trim_idempotent |].
  split; [apply trim_idempotent |].
  split; [apply trimmed_query; auto using trim_idempotent |].
  intros cards. unfold Lookup.kept, Lookup.kept_as_stated.
  rewrite (filter_ext _ _ (trimmed_name_matches (cardName (cardForm p)))).
  reflexivity.
Qed.

Lemma handleSearch_descriptor_witness :
  exists p' cardData,
    handleSearch Samples.searching = Normal p'
    /\ UI.cardData (UI.sessionStorage (world p')) = Some cardData
    /\ Lookup.kept (UI.name cardData)
         [Examples.remote_card "Pikachu"; Examples.remote_card "Raichu"]
       = [Examples.remote_card "Pikachu"].
Proof.
  destruct (handleSearch Samples.searching) as [p' | message] eqn:Hrun;
    [| discriminate Hrun].
  destruct (handleSearch_descriptor Samples.searching p' Hrun)
    as (cardData & Hdata & _ & _ & _ & _ & _ & _ & _ & Hkept).
  - injection Hrun as <-. reflexivity.
  - exists p', cardData. split; [reflexivity |]. split; [exact Hdata |].
    injection Hrun as <-. injection Hdata as <-. reflexivity.
Defined.






Lemma getSelectedCondition_cleared (radios : list Radio) :
  getSelectedCondition
    (map (fun radio => {| radio_value := radio_value radio;
                          radio_checked := false |}) radios) = None.
Proof. induction radios as [| r radios IH]; [reflexivity | exact IH]. Qed.

(** After [handleLogout] no session is active and the stored records
    are as before; the page shows the auth screen alone, the header
    says Login, and the card form is empty with no condition checked
    and no photo.  The search is then closed: [handleSearch] refuses,
    and so does [performSearch], which sends nothing and arms the timer
    that leads back to the auth screen.  The descriptor of the last
    search stays in [sessionStorage]. *)
Theorem handleLogout_outcome (p : Page) :
  let p' := handleLogout p in
  Auth.isLoggedIn (UI.localStorage (world p')) = false
  /\ Auth.getStoredUsers (UI.localStorage (world p'))
     = Auth.getStoredUsers (UI.localStorage (world p))
  /\ UI.active (UI.dom (world p')) = [UI.auth]
  /\ UI.userDisplayName (UI.dom (world p')) = "Login"
  /\ UI.userMenuBtnShown (UI.dom (world p')) = false
  /\ cardForm p' = clearCardForm (cardForm p)
  /\ getSelectedCondition (conditionRadios (cardForm p')) = None
  /\ UI.cardData (UI.sessionStorage (world p'))
     = UI.cardData (UI.sessionStorage (world p))
  /\ handleSearch p'
     = Normal (set_world
                 (UI.showError "Please log in first to search for cards") p')
  /\ (forall st, App.ui st = world p' -> App.searchInProgress st = false ->
        snd (App.performSearch_begin st) = App.RedirectScheduled
        /\ App.api (fst (App.performSearch_begin st)) = App.api st
        /\ App.searchInProgress (fst (App.performSearch_begin st)) = false
        /\ UI.active (UI.dom (App.ui (App.redirect_timer
                                        (fst (App.performSearch_begin st)))))
           = [UI.auth]).
Proof.
  intros p'.
  assert (Hworld : world p'
            = UI.display UI.auth
                (UI.display UI.auth
                   (UI.set_dom (fun d =>
                      {| UI.active := UI.active d;
                         UI.errorMessage := UI.errorMessage d;
                         UI.userMenuHidden := UI.userMenuHidden d;
                         UI.searchDisabled := UI.searchDisabled d;
                         UI.userDisplayName := "Login";
                         UI.userMenuBtnShown := false;
                         UI.resultsView := UI.resultsView d |})
                      (set_localStorage (Auth.logout (UI.localStorage (world p)))
                         (world p))))).
  { subst p'. unfold handleLogout, set_cardForm, set_world.
    cbn [world]. unfold UI.updateUserDisplay.
    cbn [set_localStorage UI.localStorage Auth.getSession Auth.logout
         Auth.nashCards_session].
    rewrite !showScreen_open by reflexivity. reflexivity. }
  assert (Hout : Auth.isLoggedIn (UI.localStorage (world p')) = false)
    by (rewrite Hworld; reflexivity).
  split; [exact Hout |].
  split; [rewrite Hworld; reflexivity |].
  split; [rewrite Hworld; reflexivity |].
  split; [rewrite Hworld; reflexivity |].
  split; [rewrite Hworld; reflexivity |].
  split; [reflexivity |].
  split; [apply getSelectedCondition_cleared |].
  split; [rewrite Hworld; reflexivity |].
  split.
  - unfold handleSearch. rewrite Hout. reflexivity.
  - intros st Hui Hfree. unfold App.performSearch_begin.
    rewrite Hfree, Hui, Hout. cbn [negb fst snd].
    split; [reflexivity |]. split; [reflexivity |]. split; [exact Hfree |].
    unfold App.redirect_timer, App.set_ui. cbn [App.ui].
    rewrite showScreen_open by reflexivity. reflexivity.
Qed.

Lemma handleLogout_outcome_witness :
  snd (App.performSearch_begin
         {| App.ui := world (handleLogout Samples.searching);
            App.api := Examples.fresh_start; App.currentCard := None;
            App.searchInProgress := false |})
  = App.RedirectScheduled.
Proof.
  apply (proj2 (proj2 (proj2 (proj2 (proj2 (proj2 (proj2 (proj2 (proj2
           (handleLogout_outcome Samples.searching))))))))));
    reflexivity.
Defined.

(** [handleFileUpload] hands the file to the reader exactly when its
    type begins with [image/] and its size is at most 10,485,760
    bytes, a file of exactly that size included; the page is then as
    it was, and the preview changes only when the reader is done.
    Any other file leaves the forms and the stores as they were and
    shows the error screen. *)
Theorem handleFileUpload_accepts (file : File) (p : Page) :
  let out := handleFileUpload file p in
  (snd out = true
   <-> (exists subtype, file_type file = "image/" +:+ subtype)
       /\ file_size file <= 10485760)
  /\ (snd out = true -> fst out = p)
  /\ (snd out = false ->
      cardForm (fst out) = cardForm p /\ authForm (fst out) = authForm p
      /\ exists message,
           In message ["Please upload an image file";
                       "File size must be less than 10MB"]
           /\ refused message (world p) (world (fst out))).
Proof.
  intros out. subst out. unfold handleFileUpload.
  destruct (startsWith "image/" (file_type file)) eqn:Htype; cbn [negb].
  - apply startsWith_prefix in Htype.
    destruct (Z.ltb_spec (10 * 1024 * 1024) (file_size file)) as [Hbig | Hfit];
      cbn [fst snd].
    + split; [split; [discriminate | intros [_ H]; lia] |].
      split; [discriminate |]. intros _.
      split; [reflexivity |]. split; [reflexivity |].
      eexists. split; [right; left; reflexivity | apply showError_refused].
    + split; [split; [intros _; split; [exact Htype | lia] | reflexivity] |].
      split; [reflexivity | discriminate].
  - cbn [fst snd]. split.
    + split; [discriminate |]. intros [Hprefix _].
      apply startsWith_prefix in Hprefix. congruence.
    + split; [discriminate |]. intros _.
      split; [reflexivity |]. split; [reflexivity |].
      eexists. split; [left; reflexivity | apply showError_refused].
Qed.

Lemma handleFileUpload_accepts_witness :
  snd (handleFileUpload {| file_type := "image/png"; file_size := 10485760 |}
         Samples.searching) = true.
Proof.
  apply (proj1 (handleFileUpload_accepts _ _)).
  split; [exists "png"; reflexivity | cbn; lia].
Defined.

End HandlerFacts.

(* ===================================================================== *)
(** ** Start-up, reset and the end of a search *)
(* ===================================================================== *)

Section WorkflowMore.

Import JsNumber API Lookup Remote.

(** [getPopularSets] is one remote call for [/sets] without
    parameters: it never throws and never touches the cache, it reports
    success exactly when the call came to a body, which it then hands
    on, and nothing is remembered, so that a second call sends the
    request again. *)
Theorem getPopularSets_outcome {B} (net net' : Network B) (st : State) :
  let req := {| endpoint := "/sets"; params := [] |} in
  exists result st',
    Catalogue.getPopularSets net st = (Normal result, st')
    /\ cache st' = cache st
    /\ requests st' = (requests st ++ [req])%list
    /\ (forall body, outcome net req = Normal body ->
          fetched_success result = true /\ fetched_data result = Some body)
    /\ (forall message, outcome net req = Throw message ->
          fetched_success result = false /\ fetched_error result = Some message)
    /\ requests (snd (Catalogue.getPopularSets net' st'))
       = (requests st ++ [req; req])%list.
Proof.
  intros req.
  assert (Heq : forall (n : Network B) s,
            Catalogue.getPopularSets n s = fetchFromPokemonTCG n "/sets" [] s).
  { intros n s. unfold Catalogue.getPopularSets, try_catch, bind, ret.
    rewrite fetchFromPokemonTCG_eq. reflexivity. }
  rewrite Heq, fetchFromPokemonTCG_eq. fold req.
  eexists _, _. split; [reflexivity |]. cbn [cache requests].
  split; [reflexivity |]. split; [reflexivity |].
  split; [intros body ->; split; reflexivity |].
  split; [intros message ->; split; reflexivity |].
  rewrite Heq, fetchFromPokemonTCG_eq. cbn [snd requests].
  rewrite <- app_assoc. reflexivity.
Qed.

Lemma searchCards_normal (net : Network CardsBody) (now_lookup now_store : Z)
    (name set number : string) (st : State) :
  exists res, fst (searchCards net now_lookup now_store name set number st)
              = Normal res.
Proof.
  rewrite searchCards_eq.
  destruct (fresh now_lookup st (cacheKey name set number)) as [entry |];
    [eexists; reflexivity |].
  cbv zeta.
  destruct (reply net (search_request name set)) as [m | [[| c cs] |] | m];
    eexists; reflexivity.
Qed.

Lemma tier_prices (condition : string) :
  In (toFixed 2 (469 * Pricing.tier_multiplier condition)%float)
    ["469.00"; "351.75"; "234.50"].
Proof.
  destruct (tier_multiplier_cases condition) as [-> | [-> | ->]].
  - left. vm_compute. reflexivity.
  - right. left. vm_compute. reflexivity.
  - right. right. left. vm_compute. reflexivity.
Qed.

Lemma formatted_price (c : Card) (condition : string) :
  formatted c -> JsObject.inherited condition = false ->
  adjustedPrice (enrichCardWithPricing c condition)
  = toFixed 2 (469 * Pricing.tier_multiplier condition)%float.
Proof.
  intros [rc ->] Hown. unfold enrichCardWithPricing. cbn [adjustedPrice].
  rewrite (multiplier_lookup _ Hown). cbn [JsObject.toNumber].
  unfold base_price. rewrite formatCard_avg. reflexivity.
Qed.

(** A search that has waited always ends with the results written,
    the guard clear and the button enabled: the lookup cannot throw,
    so the branch that reports a failed fetch is never taken.  The
    results screen is shown if the session is still active; if it was
    closed in the meantime the page goes to the auth screen instead.
    When the lookup found cards, the card shown is the first
    of them and, the cache holding formatted cards only, its price
    is [$469.00], [$351.75] or [$234.50] by the condition alone,
    whatever the card; when it found none, the card shown is the
    synthetic one. *)
Theorem performSearch_resume_outcome (net : Network CardsBody)
    (now_lookup now_store now_mock : Z) (cardData : UI.CardData)
    (st : App.State) :
  cache_sound (App.api st) ->
  JsObject.inherited (UI.condition cardData) = false ->
  let lookup :=
    searchCards net now_lookup now_store (UI.name cardData) (UI.set cardData)
      (UI.number cardData) (App.api st) in
  let st' :=
    App.performSearch_resume net now_lookup now_store now_mock cardData st in
  exists res view,
    fst lookup = Normal res
    /\ App.api st' = snd lookup
    /\ UI.resultsView (UI.dom (App.ui st')) = Some view
    /\ (Auth.isLoggedIn (UI.localStorage (App.ui st)) = true ->
        UI.active (UI.dom (App.ui st')) = [UI.results]
        /\ UI.errorMessage (UI.dom (App.ui st'))
           = UI.errorMessage (UI.dom (App.ui st)))
    /\ (Auth.isLoggedIn (UI.localStorage (App.ui st)) = false ->
        UI.active (UI.dom (App.ui st')) = [UI.auth]
        /\ UI.errorMessage (UI.dom (App.ui st'))
           = "Please log in first to continue")
    /\ App.searchInProgress st' = false
    /\ UI.searchDisabled (UI.dom (App.ui st')) = false
    /\ (success res = true ->
        exists c cs,
          data res = Some (c :: cs) /\ App.currentCard st' = Some c
          /\ UI.resultsCardName view = card_name c
          /\ UI.resultsPrice view
             = "$" +:+ toFixed 2 (469 * Pricing.tier_multiplier
                                          (UI.condition cardData))%float
          /\ In (UI.resultsPrice view) ["$469.00"; "$351.75"; "$234.50"])
    /\ (success res = false ->
        App.currentCard st' = Some (App.createMockCardResult now_mock cardData)).
Proof.
  intros Hsound Hown lookup st'.
  destruct (searchCards_normal net now_lookup now_store (UI.name cardData)
              (UI.set cardData) (UI.number cardData) (App.api st))
    as [res Hres].
  fold lookup in Hres.
  destruct (searchCards_sound net now_lookup now_store (UI.name cardData)
              (UI.set cardData) (UI.number cardData) (App.api st) Hsound)
    as [_ Hfound].
  fold lookup in Hfound. specialize (Hfound res Hres).
  assert (Hst' : st' = App.performSearch_settle now_mock cardData (Normal res)
                         {| App.ui := App.ui st; App.api := snd lookup;
                            App.currentCard := App.currentCard st;
                            App.searchInProgress := App.searchInProgress st |}).
  { subst st'. unfold App.performSearch_resume. fold lookup.
    destruct lookup as [outcome api']. cbn [fst snd] in *. subst outcome.
    reflexivity. }
  assert (Hscreen : forall e w,
            (Auth.isLoggedIn (UI.localStorage w) = true ->
             UI.active (UI.dom (UI.showResults e w)) = [UI.results]
             /\ UI.errorMessage (UI.dom (UI.showResults e w))
                = UI.errorMessage (UI.dom w))
            /\ (Auth.isLoggedIn (UI.localStorage w) = false ->
                UI.active (UI.dom (UI.showResults e w)) = [UI.auth]
                /\ UI.errorMessage (UI.dom (UI.showResults e w))
                   = "Please log in first to continue")).
  { intros e w. unfold UI.showResults. split; intros Hs.
    - rewrite showScreen_granted by exact Hs. split; reflexivity.
    - rewrite showScreen_denied by (try reflexivity; exact Hs).
      split; reflexivity. }
  exists res. rewrite Hst'. unfold App.performSearch_settle.
  cbn [App.set_ui App.set_searchInProgress App.ui App.api App.currentCard
       App.searchInProgress UI.enableSearch UI.set_searchDisabled UI.set_dom
       UI.dom UI.resultsView UI.errorMessage UI.searchDisabled UI.active].
  rewrite showResults_view. eexists. split; [exact Hres |].
  split; [reflexivity |]. split; [reflexivity |].
  split; [apply Hscreen |]. split; [apply Hscreen |].
  split; [reflexivity |]. split; [reflexivity |].
  cbn [UI.resultsCardName UI.resultsPrice].
  destruct (success res) eqn:Hok; cbn [negb].
  - destruct (Hfound eq_refl) as (c & cs & Hdata & Hforms).
    rewrite Hdata. apply List.Forall_cons_iff in Hforms as [Hc _].
    rewrite (formatted_price c _ Hc Hown).
    assert (Hprice : JsString.or_default
                       (Some (toFixed 2 (469 * Pricing.tier_multiplier
                                                 (UI.condition cardData))%float))
                       "N/A"
                     = toFixed 2 (469 * Pricing.tier_multiplier
                                          (UI.condition cardData))%float).
    { destruct (tier_prices (UI.condition cardData))
        as [<- | [<- | [<- | []]]]; reflexivity. }
    rewrite Hprice.
    split; [| discriminate]. intros _. exists c, cs.
    split; [reflexivity |]. split; [reflexivity |]. split; [reflexivity |].
    split; [reflexivity |].
    destruct (tier_prices (UI.condition cardData))
      as [<- | [<- | [<- | []]]]; cbn; tauto.
  - split; [discriminate | reflexivity].
Qed.

Lemma performSearch_resume_outcome_witness :
  UI.resultsPrice
  <$> UI.resultsView
        (UI.dom (App.ui (App.performSearch_resume
                           (Examples.answering [Examples.remote_card "Charizard"])
                           0 0 0 Examples.charizard Examples.ready_page)))
  = Some "$469.00".
Proof.
  destruct (performSearch_resume_outcome
              (Examples.answering [Examples.remote_card "Charizard"])
              0 0 0 Examples.charizard Examples.ready_page)
    as (res & view & Hres & _ & Hview & _ & _ & _ & _ & Hfound & _).
  - intros key entry H.
    unfold Examples.ready_page, Examples.fresh_start in H.
    cbn [App.api cache] in H. rewrite lookup_empty in H. discriminate H.
  - reflexivity.
  - assert (Heq : res = found [formatCard (Examples.remote_card "Charizard")]).
    { assert (H : Normal res
                  = Normal (found [formatCard (Examples.remote_card "Charizard")]))
        by (rewrite <- Hres; reflexivity).
      injection H as H. exact H. }
    subst res. destruct (Hfound eq_refl) as (c & cs & _ & _ & _ & Hprice & _).
    rewrite Hview. cbn [fmap option_fmap option_map]. rewrite Hprice.
    vm_compute. reflexivity.
Defined.

(** [App.init] keeps the stored records and the session it finds, and
    seeds the demo account when there are no stored records at all; it
    shows the card input screen to a visitor with a session and the
    auth screen to any other, and leaves the cache and the variables
    of the module alone.  A second run leaves the stores, the document
    and the variables as the first left them, but adds every listener
    that is an arrow function a second time: on a page initialised
    twice one click on the link between the two forms toggles them
    twice and so leaves them as they were, while the handlers added
    by name still run once. *)
Theorem init_outcome (r : Startup.Runtime) :
  let st := Startup.page r in
  let ls := UI.localStorage (App.ui st) in
  let st' := Startup.page (Startup.init r) in
  Auth.getStoredUsers (UI.localStorage (App.ui st'))
  = Some (match Auth.getStoredUsers ls with
          | Some users => users
          | None => [Examples.demo_user]
          end)
  /\ Auth.getSession (UI.localStorage (App.ui st')) = Auth.getSession ls
  /\ (Auth.isLoggedIn ls = true ->
      UI.active (UI.dom (App.ui st')) = [UI.cardInput]
      /\ UI.userMenuBtnShown (UI.dom (App.ui st')) = true)
  /\ (Auth.isLoggedIn ls = false ->
      UI.active (UI.dom (App.ui st')) = [UI.auth]
      /\ UI.userDisplayName (UI.dom (App.ui st')) = "Login"
      /\ UI.userMenuBtnShown (UI.dom (App.ui st')) = false)
  /\ App.api st' = App.api st
  /\ Startup.getCurrentCard st' = Startup.getCurrentCard st
  /\ App.searchInProgress st' = App.searchInProgress st
  /\ Startup.inits (Startup.init r) = S (Startup.inits r)
  /\ Startup.page (Startup.init (Startup.init r)) = st'
  /\ (forall auth card,
        Startup.inits r = 0%nat ->
        let first := Site.of_runtime (Startup.init r) auth card in
        let second :=
          Site.of_runtime (Startup.init (Startup.init r)) auth card in
        Handlers.loginFormHidden
          (Site.auth_form (Site.step Site.ClickToggleForms first))
        = negb (Handlers.loginFormHidden auth)
        /\ Handlers.loginFormHidden
             (Site.auth_form (Site.step Site.ClickToggleForms second))
           = Handlers.loginFormHidden auth
        /\ Handlers.signupFormHidden
             (Site.auth_form (Site.step Site.ClickToggleForms second))
           = Handlers.signupFormHidden auth
        /\ (forall now,
              Site.app (Site.step (Site.ClickLogin now) second)
              = Site.app (Site.step (Site.ClickLogin now) first))).
Proof.
  intros st ls st'.
  assert (Hstate : Auth.getStoredUsers (UI.localStorage (App.ui st'))
            = Some (match Auth.getStoredUsers ls with
                    | Some users => users
                    | None => [Examples.demo_user]
                    end)
          /\ Auth.getSession (UI.localStorage (App.ui st')) = Auth.getSession ls
          /\ (Auth.isLoggedIn ls = true ->
              UI.active (UI.dom (App.ui st')) = [UI.cardInput]
              /\ UI.userMenuBtnShown (UI.dom (App.ui st')) = true)
          /\ (Auth.isLoggedIn ls = false ->
              UI.active (UI.dom (App.ui st')) = [UI.auth]
              /\ UI.userDisplayName (UI.dom (App.ui st')) = "Login"
              /\ UI.userMenuBtnShown (UI.dom (App.ui st')) = false)
          /\ App.api st' = App.api st
          /\ Startup.getCurrentCard st' = Startup.getCurrentCard st
          /\ App.searchInProgress st' = App.searchInProgress st
          /\ Startup.page (Startup.init (Startup.init r)) = st').
  { subst st' ls st. unfold Startup.init.
    destruct r as [[[[users session] storage d] a card busy] n].
    cbn [Startup.page Startup.inits App.ui App.api App.currentCard
         App.searchInProgress UI.localStorage].
    unfold UI.updateUserDisplay, Auth.isLoggedIn.
    cbn [Handlers.set_localStorage UI.localStorage Auth.getSession Auth.init
         Auth.getStoredUsers Auth.nashCards_users Auth.nashCards_session].
    destruct session as [session |].
    - assert (Hin : forall u,
                Auth.isLoggedIn
                  {| Auth.nashCards_users := u;
                     Auth.nashCards_session := Some session |} = true)
        by reflexivity.
      destruct users as [users |];
        cbn [Auth.getStoredUsers Auth.nashCards_users Auth.setStoredUsers
             Auth.nashCards_session UI.set_dom UI.localStorage App.ui];
        rewrite !showScreen_granted by apply Hin;
        cbn [App.ui UI.display UI.localStorage UI.dom UI.set_dom
             UI.sessionStorage Auth.nashCards_session Auth.nashCards_users
             Handlers.set_localStorage];
        rewrite ?showScreen_granted by apply Hin;
        repeat split; discriminate.
    - destruct users as [users |];
        cbn [Auth.getStoredUsers Auth.nashCards_users Auth.setStoredUsers
             Auth.nashCards_session UI.set_dom UI.localStorage App.ui];
        rewrite !showScreen_open by reflexivity;
        cbn [App.ui UI.display UI.localStorage UI.dom UI.set_dom
             UI.sessionStorage Auth.nashCards_session Auth.nashCards_users
             Handlers.set_localStorage];
        rewrite ?showScreen_open by reflexivity;
        repeat split; discriminate. }
  destruct Hstate as (H1 & H2 & H3 & H4 & H5 & H6 & H7 & Hsame).
  split; [exact H1 |]. split; [exact H2 |]. split; [exact H3 |].
  split; [exact H4 |]. split; [exact H5 |]. split; [exact H6 |].
  split; [exact H7 |]. split; [reflexivity |]. split; [exact Hsame |].
  intros auth card Hnone first second.
  assert (Hone : Site.inits first = 1%nat)
    by (subst first; cbn [Site.of_runtime Site.inits Startup.init Startup.inits];
        rewrite Hnone; reflexivity).
  assert (Htwo : Site.inits second = 2%nat)
    by (subst second;
        cbn [Site.of_runtime Site.inits Startup.init Startup.inits];
        rewrite Hnone; reflexivity).
  unfold Site.step. cbn [Site.binding]. rewrite Hone, Htwo.
  cbn [Nat.iter nat_rect Nat.eqb].
  split; [reflexivity |]. split; [apply negb_involutive |].
  split; [apply negb_involutive |].
  intros now.
  assert (Happ : Site.app second = Site.app first)
    by (subst first second; unfold Site.of_runtime; cbn [Site.app];
        exact Hsame).
  assert (Hview : Site.view second = Site.view first)
    by (unfold Site.view; rewrite Happ; reflexivity).
  unfold Site.once, Site.handler, Site.update. cbn [Site.app].
  rewrite Hview, Happ. reflexivity.
Qed.

Lemma init_outcome_witness :
  Handlers.loginFormHidden
    (Site.auth_form
       (Site.step Site.ClickToggleForms
          (Site.of_runtime
             (Startup.init
                (Startup.init
                   (Site.unstarted
                      (Handlers.world (Samples.visitor Samples.blank)))))
             Samples.blank Samples.filled)))
  = Handlers.loginFormHidden Samples.blank.
Proof.
  destruct (init_outcome
              (Site.unstarted
                 (Handlers.world (Samples.visitor Samples.blank))))
    as (_ & _ & _ & _ & _ & _ & _ & _ & _ & H).
  exact (proj1 (proj2 (H Samples.blank Samples.filled eq_refl))).
Defined.

(** [App.reset] while a search waits undoes the guard: the button
    that was refused a moment before starts a second search for the
    same descriptor while the first is still under way, and when the
    first settles it sets the current card that [reset] had cleared
    and clears the guard that the second had set. *)
Theorem reset_reopens_search (st st1 : App.State) (cardData : UI.CardData)
    (form : Handlers.CardForm) :
  App.performSearch_begin st = (st1, App.AwaitingDelay cardData) ->
  let st2 := fst (Startup.reset st1 form) in
  App.performSearch_begin st1 = (st1, App.Returned)
  /\ Startup.getCurrentCard st2 = None
  /\ snd (Startup.reset st1 form) = Handlers.clearCardForm form
  /\ exists st3,
       App.performSearch_begin st2 = (st3, App.AwaitingDelay cardData)
       /\ App.searchInProgress st3 = true
       /\ forall net now_lookup now_store now_mock,
            let st4 := App.performSearch_resume net now_lookup now_store
                         now_mock cardData st3 in
            App.searchInProgress st4 = false
            /\ Startup.getCurrentCard st4 <> None.
Proof.
  intros Hbegin st2.
  assert (Hst1 : App.searchInProgress st = false
                 /\ Auth.isLoggedIn (UI.localStorage (App.ui st)) = true
                 /\ UI.cardData (UI.sessionStorage (App.ui st)) = Some cardData
                 /\ st1 = App.set_ui UI.showLoading
                            (App.set_ui UI.disableSearch
                               (App.set_searchInProgress true st))).
  { unfold App.performSearch_begin in Hbegin.
    destruct (App.searchInProgress st); [discriminate |].
    destruct (Auth.isLoggedIn _); [| discriminate].
    destruct (UI.cardData _) as [cd |]; [| discriminate].
    cbn [negb] in Hbegin. injection Hbegin as <- <-. repeat split. }
  destruct Hst1 as (Hfree & Hlogged & Hdata & Hst1).
  assert (Hui : Auth.isLoggedIn (UI.localStorage (App.ui st1)) = true
                /\ UI.cardData (UI.sessionStorage (App.ui st1)) = Some cardData).
  { rewrite Hst1. unfold App.set_ui, App.set_searchInProgress. cbn [App.ui].
    unfold UI.showLoading.
    rewrite showScreen_granted by exact Hlogged. split; assumption. }
  destruct Hui as [Hlogged1 Hdata1].
  split; [rewrite Hst1; reflexivity |].
  split; [reflexivity |]. split; [reflexivity |].
  subst st2. unfold Startup.reset. cbn [fst].
  unfold App.performSearch_begin at 1.
  cbn [App.searchInProgress App.ui]. rewrite Hlogged1, Hdata1. cbn [negb].
  eexists. split; [reflexivity |]. split; [reflexivity |].
  intros net now_lookup now_store now_mock.
  unfold App.performSearch_resume.
  match goal with
  | |- context [searchCards ?n ?a ?b ?x ?y ?z ?s] =>
      destruct (searchCards_normal n a b x y z s) as [res Hres];
      destruct (searchCards n a b x y z s) as [outcome api']
  end.
  cbn [fst] in Hres. subst outcome. split; [reflexivity |]. discriminate.
Qed.

Lemma reset_reopens_search_witness :
  snd (App.performSearch_begin
         (fst (Startup.reset (fst (App.performSearch_begin Examples.ready_page))
                 Samples.filled)))
  = App.AwaitingDelay Examples.charizard.
Proof.
  destruct (reset_reopens_search Examples.ready_page
              (fst (App.performSearch_begin Examples.ready_page))
              Examples.charizard Samples.filled eq_refl)
    as (_ & _ & _ & st3 & Hagain & _).
  rewrite Hagain. reflexivity.
Defined.

End WorkflowMore.

(* ===================================================================== *)
(** ** The page as a whole *)
(* ===================================================================== *)

Section SiteFacts.

Import Handlers Site Steps.




























(** *** What the page asks of the remote service *)




















End SiteFacts.
